(** * Change detection for tracked web pages: a shallow embedding of
      [scraping-release.py] and the properties of its diff pipeline.

    The file follows the script bottom-up:
    - [PyStr]: the string primitives of Python the script relies on
      ([str.splitlines], [str.replace], [str.strip], the [re.sub] and
      [re.match] patterns);
    - [Difflib]: [difflib.SequenceMatcher(None, a, b)] as the script
      constructs it (no junk predicate, [autojunk] left at its default);
    - [Soup]: the parse tree the script obtains from BeautifulSoup, with
      [find_all], [decompose] and [get_text];
    - [Script]: the script's own functions, [sanitize_filename],
      [get_page_content_with_selenium], [compute_image_hashes],
      [remove_unnecessary_tags], [highlight_html_diff] and the body of
      the loop of [main], over the browser, the image requests, the
      decoder, the digest and the clock taken as parameters;
    - [Sample]: one such world, to run the script in.
    The properties come after the definitions.

    Strings are [string] (characters are code points below 256); indices
    are [nat]; Python dictionaries are [gmap]; the two folders are maps
    from file names to contents. *)

From Stdlib Require Import String Ascii List Arith Lia Bool.
From stdpp Require Import base option list sorting gmap strings pretty.

Set Warnings "-register-all,-clear-no-such-hyp".

(** ** Python strings *)

Module PyStr.

Local Open Scope string_scope.

Definition chr (n : nat) : string := String (ascii_of_nat n) EmptyString.

(** The characters that cannot be written inside a literal here. *)
Definition nl : string := chr 10.
Definition dq : string := chr 34.

Definition snoc (s : string) (c : ascii) : string := s ++ String c EmptyString.

Definition is_empty (s : string) : bool :=
  match s with
  | EmptyString => true
  | String _ _ => false
  end.

(** [str.isspace] on one character, which is also what [\s] matches in a
    [str] pattern: TAB..CR, FS..US, SPACE, NEL and NBSP. *)
Definition isspace (c : ascii) : bool :=
  let n := nat_of_ascii c in
  ((9 <=? n)%nat && (n <=? 13)%nat) || ((28 <=? n)%nat && (n <=? 32)%nat)
  || (n =? 133)%nat || (n =? 160)%nat.

(** The line boundaries of [str.splitlines]: LF, VT, FF, CR, FS, GS, RS
    and NEL; CR LF counts as one. *)
Definition is_linebreak (c : ascii) : bool :=
  let n := nat_of_ascii c in
  ((10 <=? n)%nat && (n <=? 13)%nat) || ((28 <=? n)%nat && (n <=? 30)%nat)
  || (n =? 133)%nat.

(** [s.splitlines(keepends=True)]; [cur] is the line being read. *)
Fixpoint splitlines_from (cur : string) (s : string) : list string :=
  match s with
  | EmptyString => if is_empty cur then [] else [cur]
  | String c s' =>
      if is_linebreak c then
        match s' with
        | String c' s'' =>
            if ((nat_of_ascii c =? 13)%nat && (nat_of_ascii c' =? 10)%nat)%bool
            then snoc (snoc cur c) c' :: splitlines_from EmptyString s''
            else snoc cur c :: splitlines_from EmptyString s'
        | EmptyString => [snoc cur c]
        end
      else splitlines_from (snoc cur c) s'
  end.

Definition splitlines_keepends (s : string) : list string :=
  splitlines_from EmptyString s.

(** [s.replace(old, new)] for a pattern [old] of one character. *)
Fixpoint replace_char (old : ascii) (new : string) (s : string) : string :=
  match s with
  | EmptyString => EmptyString
  | String c s' =>
      if Ascii.eqb c old then new ++ replace_char old new s'
      else String c (replace_char old new s')
  end.

Fixpoint lstrip (s : string) : string :=
  match s with
  | EmptyString => EmptyString
  | String c s' => if isspace c then lstrip s' else s
  end.

Fixpoint rstrip (s : string) : string :=
  match s with
  | EmptyString => EmptyString
  | String c s' =>
      let r := rstrip s' in
      if (is_empty r && isspace c)%bool then EmptyString else String c r
  end.

(** [s.strip()]. *)
Definition strip (s : string) : string := rstrip (lstrip s).

(** Does [>] occur in [s] before any line feed?  Then [<.*?>] matches at
    a [<] that stands just before [s]. *)
Fixpoint closes (s : string) : bool :=
  match s with
  | EmptyString => false
  | String c s' =>
      if Ascii.eqb c ">" then true
      else if (nat_of_ascii c =? 10)%nat then false
      else closes s'
  end.

(** [re.sub] of the pattern [<.*?>] by the empty string: scanning from the left, a [<] that is
    closed on its line is dropped together with everything up to the
    first [>] after it ([inside] is set while that text is skipped). *)
Fixpoint sub_tags_from (inside : bool) (s : string) : string :=
  match s with
  | EmptyString => EmptyString
  | String c s' =>
      if inside then
        sub_tags_from (negb (Ascii.eqb c ">")) s'
      else if (Ascii.eqb c "<" && closes s')%bool then sub_tags_from true s'
      else String c (sub_tags_from false s')
  end.

Definition re_sub_tags (s : string) : string := sub_tags_from false s.

(** [re.sub] of the pattern [\s+] by one blank: every maximal run of white space becomes
    one blank. *)
Fixpoint sub_spaces_from (in_run : bool) (s : string) : string :=
  match s with
  | EmptyString => EmptyString
  | String c s' =>
      if isspace c then
        if in_run then sub_spaces_from true s'
        else String " " (sub_spaces_from true s')
      else String c (sub_spaces_from false s')
  end.

Definition re_sub_spaces (s : string) : string := sub_spaces_from false s.

(** The character class of [sanitize_filename]: backslash, slash, colon,
    star, question mark, double quote, the angle brackets and the bar. *)
Definition is_forbidden (c : ascii) : bool :=
  let n := nat_of_ascii c in
  (n =? 92)%nat || (n =? 47)%nat || (n =? 58)%nat || (n =? 42)%nat
  || (n =? 63)%nat || (n =? 34)%nat || (n =? 60)%nat || (n =? 62)%nat
  || (n =? 124)%nat.

(** [re.sub] of that class by an underscore. *)
Fixpoint re_sub_forbidden (s : string) : string :=
  match s with
  | EmptyString => EmptyString
  | String c s' =>
      String (if is_forbidden c then "_"%char else c) (re_sub_forbidden s')
  end.

(** [re.match] of the pattern [^https?://] finds a match. *)
Definition re_match_http (s : string) : bool :=
  (String.prefix "http://" s || String.prefix "https://" s)%bool.

(** [needle in s]. *)
Fixpoint contains (needle s : string) : bool :=
  (String.prefix needle s
   || match s with
      | EmptyString => false
      | String _ s' => contains needle s'
      end)%bool.

(** [c in s] for one character. *)
Fixpoint has_char (c : ascii) (s : string) : bool :=
  match s with
  | EmptyString => false
  | String c' s' => (Ascii.eqb c' c || has_char c s')%bool
  end.

(** [sep.join(parts)]. *)
Definition join (sep : string) (parts : list string) : string :=
  String.concat sep parts.

End PyStr.

(** ** difflib.SequenceMatcher *)

Module Difflib.

(** A matching block [(i, j, k)]: [a[i:i+k] == b[j:j+k]]. *)
Definition block : Type := nat * nat * nat.

Inductive tag : Type := Replace | Delete | Insert | Equal.

(** An opcode [(tag, i1, i2, j1, j2)]. *)
Definition opcode : Type := tag * nat * nat * nat * nat.

#[global] Instance tag_eq_dec : EqDecision tag.
Proof. solve_decision. Defined.

(** Tuples compare lexicographically; this is the order [list.sort] uses
    on the list of matching blocks. *)
Definition block_le (x y : block) : Prop :=
  x.1.1 < y.1.1 ∨
  (x.1.1 = y.1.1 ∧ (x.1.2 < y.1.2 ∨ (x.1.2 = y.1.2 ∧ x.2 ≤ y.2))).

#[global] Instance block_le_dec : RelDecision block_le.
Proof. intros x y. unfold block_le. apply _. Defined.

#[global] Instance block_le_trans : Transitive block_le.
Proof. intros [[??]?] [[??]?] [[??]?]. unfold block_le. simpl. lia. Qed.

#[global] Instance block_le_total : Total block_le.
Proof. intros [[??]?] [[??]?]. unfold block_le. simpl. lia. Qed.

#[global] Instance block_le_antisymm : AntiSymm (=) block_le.
Proof.
  intros [[i j] k] [[i' j'] k']. unfold block_le. simpl. intros ??.
  assert (i = i' ∧ j = j' ∧ k = k') as (-> & -> & ->) by lia. done.
Qed.

Section SequenceMatcher.
Context {A : Type} `{Countable A}.

(** The two sequences [self.a] and [self.b]. *)
Variables (a b : list A).

(** [__chain_b], first loop:
    [for i, elt in enumerate(b): b2j.setdefault(elt, []).append(i)]. *)
Fixpoint chain_b_index (i : nat) (l : list A) (b2j : gmap A (list nat))
  : gmap A (list nat) :=
  match l with
  | [] => b2j
  | elt :: l' =>
      chain_b_index (S i) l' (<[elt := default [] (b2j !! elt) ++ [i]]> b2j)
  end.

(** [isjunk] is [None], so [bjunk] stays the empty set. *)
Definition bjunk : gset A := ∅.

Definition isbjunk (x : A) : bool := bool_decide (x ∈ bjunk).

(** [__chain_b], last part: with [autojunk] and [len(b) >= 200] every
    element that occurs more than [len(b) // 100 + 1] times is deleted
    from [b2j]. *)
Definition ntest : nat := length b / 100 + 1.

Definition is_popular (idxs : list nat) : bool := ntest <? length idxs.

Definition b2j : gmap A (list nat) :=
  let full := chain_b_index 0 b ∅ in
  if 200 <=? length b
  then filter (λ kv, is_popular kv.2 = false) full
  else full.

(** [j2len.get(j-1, 0)]; for [j = 0] the key [-1] is never present. *)
Definition j2lenget (j2len : gmap nat nat) (j : nat) : nat :=
  match j with
  | 0 => 0
  | S j' => default 0 (j2len !! j')
  end.

(** The inner loop of [find_longest_match] over the indices [js] of
    [a[i]] in [b]: [continue] below [blo], [break] at [bhi]. *)
Fixpoint scan_row (blo bhi i : nat) (js : list nat)
    (j2len newj2len : gmap nat nat) (best : block)
  : gmap nat nat * block :=
  match js with
  | [] => (newj2len, best)
  | j :: js' =>
      if j <? blo then scan_row blo bhi i js' j2len newj2len best
      else if bhi <=? j then (newj2len, best)
      else
        let k := j2lenget j2len j + 1 in
        let best' := if best.2 <? k then (i + 1 - k, j + 1 - k, k) else best in
        scan_row blo bhi i js' j2len (<[j := k]> newj2len) best'
  end.

(** The outer loop, [for i in range(alo, ahi)], over the list of the
    values of [i].  The matcher only calls it with [ahi <= len(a)], so
    [a[i]] is always there; the new block [(i-k+1, j-k+1, k)] of the inner
    loop is written [(i + 1 - k, j + 1 - k, k)] to stay in [nat]. *)
Fixpoint scan_rows (blo bhi : nat) (rows : list nat)
    (j2len : gmap nat nat) (best : block) : block :=
  match rows with
  | [] => best
  | i :: rows' =>
      let js := match a !! i with
                | Some x => default [] (b2j !! x)
                | None => []
                end in
      let '(newj2len, best') := scan_row blo bhi i js j2len ∅ best in
      scan_rows blo bhi rows' newj2len best'
  end.

(** [a[i] == b[j]] for indices inside both sequences. *)
Definition elt_eqb (i j : nat) : bool :=
  match a !! i, b !! j with
  | Some x, Some y => bool_decide (x = y)
  | _, _ => false
  end.

Definition junk_at (j : nat) : bool :=
  match b !! j with
  | Some y => isbjunk y
  | None => false
  end.

(** The two kinds of [while] loop that grow the best block; [want_junk]
    tells the junk loops ([isbjunk(..)]) from the non-junk ones
    ([not isbjunk(..)]).  Each iteration of the first loop decreases
    [besti], each iteration of the second increases [besti + bestsize]
    towards [ahi]: [fuel] counts the iterations left. *)
Fixpoint extend_down (fuel : nat) (want_junk : bool) (alo blo : nat)
    (best : block) : block :=
  match fuel with
  | 0 => best
  | S fuel' =>
      let '(besti, bestj, bestsize) := best in
      if (alo <? besti) && (blo <? bestj)
         && eqb (junk_at (bestj - 1)) want_junk
         && elt_eqb (besti - 1) (bestj - 1)
      then extend_down fuel' want_junk alo blo (besti - 1, bestj - 1, bestsize + 1)
      else best
  end.

Fixpoint extend_up (fuel : nat) (want_junk : bool) (ahi bhi : nat)
    (best : block) : block :=
  match fuel with
  | 0 => best
  | S fuel' =>
      let '(besti, bestj, bestsize) := best in
      if (besti + bestsize <? ahi) && (bestj + bestsize <? bhi)
         && eqb (junk_at (bestj + bestsize)) want_junk
         && elt_eqb (besti + bestsize) (bestj + bestsize)
      then extend_up fuel' want_junk ahi bhi (besti, bestj, bestsize + 1)
      else best
  end.

Definition find_longest_match (alo ahi blo bhi : nat) : block :=
  let best0 := scan_rows blo bhi (seq alo (ahi - alo)) ∅ (alo, blo, 0) in
  let best1 := extend_down best0.1.1 false alo blo best0 in
  let best2 := extend_up (ahi - (best1.1.1 + best1.2)) false ahi bhi best1 in
  let best3 := extend_down best2.1.1 true alo blo best2 in
  extend_up (ahi - (best3.1.1 + best3.2)) true ahi bhi best3.

(** The work list of [get_matching_blocks].  [queue] is kept with the
    top of the stack first ([queue.pop()] takes the head,
    [queue.append] conses), [matching_blocks] in append order.  [None]
    only when [fuel] runs out. *)
Fixpoint matching_loop (fuel : nat) (queue : list (nat * nat * nat * nat))
    (matching_blocks : list block) : option (list block) :=
  match queue with
  | [] => Some matching_blocks
  | (alo, ahi, blo, bhi) :: queue' =>
      match fuel with
      | 0 => None
      | S fuel' =>
          let '(i, j, k) := find_longest_match alo ahi blo bhi in
          if 0 <? k then
            let q1 := if (alo <? i) && (blo <? j)
                      then (alo, i, blo, j) :: queue' else queue' in
            let q2 := if (i + k <? ahi) && (j + k <? bhi)
                      then (i + k, ahi, j + k, bhi) :: q1 else q1 in
            matching_loop fuel' q2 (matching_blocks ++ [(i, j, k)])
          else matching_loop fuel' queue' matching_blocks
      end
  end.

(** The loop that collapses adjacent blocks. *)
Fixpoint collapse (blocks : list block) (cur : block)
    (non_adjacent : list block) : list block * block :=
  match blocks with
  | [] => (non_adjacent, cur)
  | (i2, j2, k2) :: rest =>
      let '(i1, j1, k1) := cur in
      if (i1 + k1 =? i2) && (j1 + k1 =? j2)
      then collapse rest (i1, j1, k1 + k2) non_adjacent
      else collapse rest (i2, j2, k2)
             (if 0 <? k1 then non_adjacent ++ [(i1, j1, k1)] else non_adjacent)
  end.

(** Every pass of the work loop either finds no block or splits its
    region around a block of at least one element; [2 * len(a) + 2]
    passes are always enough (lemma [matching_loop_total]). *)
Definition matching_fuel : nat := 2 * length a + 2.

Definition get_matching_blocks : option (list block) :=
  match matching_loop matching_fuel [(0, length a, 0, length b)] [] with
  | None => None
  | Some matching_blocks =>
      let sorted := merge_sort block_le matching_blocks in
      let '(non_adjacent, (i1, j1, k1)) := collapse sorted (0, 0, 0) [] in
      let non_adjacent := if 0 <? k1 then non_adjacent ++ [(i1, j1, k1)]
                          else non_adjacent in
      Some (non_adjacent ++ [(length a, length b, 0)])
  end.

Fixpoint opcodes_loop (blocks : list block) (i j : nat)
    (answer : list opcode) : list opcode :=
  match blocks with
  | [] => answer
  | (ai, bj, size) :: rest =>
      let answer1 :=
        if (i <? ai) && (j <? bj) then answer ++ [(Replace, i, ai, j, bj)]
        else if i <? ai then answer ++ [(Delete, i, ai, j, bj)]
        else if j <? bj then answer ++ [(Insert, i, ai, j, bj)]
        else answer in
      let i' := ai + size in
      let j' := bj + size in
      let answer2 :=
        if 0 <? size then answer1 ++ [(Equal, ai, i', bj, j')] else answer1 in
      opcodes_loop rest i' j' answer2
  end.

Definition get_opcodes : option (list opcode) :=
  match get_matching_blocks with
  | None => None
  | Some blocks => Some (opcodes_loop blocks 0 0 [])
  end.

End SequenceMatcher.

(** *** Vocabulary for the properties of the matcher *)

Section Vocabulary.
Context {A : Type} `{EqDecision A}.
Variables (a b : list A).

(** The indices of [x] in [l], ascending, counted from [i]. *)
Fixpoint positions (x : A) (i : nat) (l : list A) : list nat :=
  match l with
  | [] => []
  | y :: l' =>
      if decide (x = y) then i :: positions x (S i) l'
      else positions x (S i) l'
  end.

(** [a[i:i+k] == b[j:j+k]], both slices inside their sequences. *)
Definition runs_equal (i j k : nat) : Prop :=
  ∀ d, d < k → elt_eqb a b (i + d) (j + d) = true.

Definition runs_equalb (i j k : nat) : bool :=
  forallb (λ d, elt_eqb a b (i + d) (j + d)) (seq 0 k).

(** A list of non-empty matching blocks that runs, in order and without
    overlap on either side, from [(alo, blo)] up to [(ahi, bhi)]. *)
Fixpoint chain (alo blo ahi bhi : nat) (l : list block) : Prop :=
  match l with
  | [] => alo ≤ ahi ∧ blo ≤ bhi
  | (i, j, k) :: l' =>
      alo ≤ i ∧ blo ≤ j ∧ 0 < k ∧ runs_equal i j k ∧
      chain (i + k) (j + k) ahi bhi l'
  end.

(** The opcodes [ops] tile [[i, la)] on the old side and [[j, lb)] on
    the new side: each opcode starts where the previous one stopped. *)
Fixpoint partitions (i j la lb : nat) (ops : list opcode) : Prop :=
  match ops with
  | [] => i = la ∧ j = lb
  | (_, i1, i2, j1, j2) :: rest =>
      i1 = i ∧ j1 = j ∧ i1 ≤ i2 ∧ j1 ≤ j2 ∧ partitions i2 j2 la lb rest
  end.

Definition covers_old (x : nat) (op : opcode) : bool :=
  let '(_, i1, i2, _, _) := op in (i1 <=? x) && (x <? i2).

Definition covers_new (y : nat) (op : opcode) : bool :=
  let '(_, _, _, j1, j2) := op in (j1 <=? y) && (y <? j2).

Definition cover_count_old (x : nat) (ops : list opcode) : nat :=
  length (List.filter (covers_old x) ops).

Definition cover_count_new (y : nat) (ops : list opcode) : nat :=
  length (List.filter (covers_new y) ops).

(** The shape of one opcode: [equal] covers two identical runs,
    [replace] two non-empty ranges, [delete] and [insert] one. *)
Definition opcode_okb (op : opcode) : bool :=
  let '(t, i1, i2, j1, j2) := op in
  match t with
  | Equal => (i1 <? i2) && (i2 - i1 =? j2 - j1) && runs_equalb i1 j1 (i2 - i1)
  | Replace => (i1 <? i2) && (j1 <? j2)
  | Delete => (i1 <? i2) && (j1 =? j2)
  | Insert => (i1 =? i2) && (j1 <? j2)
  end.

Fixpoint partitionsb (i j la lb : nat) (ops : list opcode) : bool :=
  match ops with
  | [] => (i =? la) && (j =? lb)
  | (_, i1, i2, j1, j2) :: rest =>
      (i1 =? i) && (j1 =? j) && (i1 <=? i2) && (j1 <=? j2)
      && partitionsb i2 j2 la lb rest
  end.

(** [ops] is an alignment of [a] with [b]. *)
Definition alignmentb (ops : list opcode) : bool :=
  partitionsb 0 0 (length a) (length b) ops && forallb opcode_okb ops.

(** The number of lines under [insert], [delete] and [replace]. *)
Definition edit_lines (ops : list opcode) : nat :=
  foldr (λ op n,
           let '(t, i1, i2, j1, j2) := op in
           match t with
           | Equal => n
           | _ => (i2 - i1) + (j2 - j1) + n
           end) 0 ops.

(** What the dictionary [j2len] holds once the rows below [i] are
    done: lengths of matches that end just before row [i]. *)
Definition j2len_ok (alo blo bhi i : nat) (m : gmap nat nat) : Prop :=
  ∀ j k, m !! j = Some k →
    0 < k ∧ alo + k ≤ i ∧ blo + k ≤ j + 1 ∧ j < bhi ∧
    runs_equal (i - k) (j + 1 - k) k.

(** A matching block inside the region [a[alo:ahi]] x [b[blo:bhi]]. *)
Definition best_ok (alo ahi blo bhi : nat) (best : block) : Prop :=
  alo ≤ best.1.1 ∧ best.1.1 + best.2 ≤ ahi ∧
  blo ≤ best.1.2 ∧ best.1.2 + best.2 ≤ bhi ∧
  runs_equal best.1.1 best.1.2 best.2.

(** [x] is still a key of [b2j] after the popularity purge. *)
Definition is_live (x : A) : bool :=
  negb ((200 <=? length b) && is_popular b (positions x 0 b)).

(** Length of the run of live elements of [b] that ends at index [j]. *)
Fixpoint live_run (j : nat) : nat :=
  match j with
  | 0 => match b !! 0 with
         | Some x => if is_live x then 1 else 0
         | None => 0
         end
  | S j' => match b !! S j' with
            | Some x => if is_live x then S (live_run j') else 0
            | None => 0
            end
  end.

(** When [b] is matched with itself, no entry of [j2len] exceeds the
    live run that ends in its column or in the previous row, and the
    entry on the diagonal is that run. *)
Definition diag_len_ok (i : nat) (m : gmap nat nat) : Prop :=
  ∀ j k, m !! j = Some k →
    k ≤ live_run j ∧ ∃ i', i = S i' ∧ k ≤ live_run i'.

Definition diag_entry (i : nat) (m : gmap nat nat) : Prop :=
  ∀ i', i = S i' → 0 < live_run i' → m !! i' = Some (live_run i').

Definition live_prev (j : nat) : nat :=
  match j with
  | 0 => 0
  | S j' => live_run j'
  end.

(** Work left in the queue of [get_matching_blocks]. *)
Definition queue_weight (queue : list (nat * nat * nat * nat)) : nat :=
  foldr (λ r n, let '(alo, ahi, _, _) := r in 2 * (ahi - alo) + 1 + n) 0 queue.

End Vocabulary.

End Difflib.


(** ** The parse tree of BeautifulSoup *)

Module Soup.

Local Open Scope string_scope.

(** A [NavigableString] or a [Tag] with its attribute dictionary and its
    children; a document is the list of the children of its root. *)
Inductive node : Type :=
  | Text (s : string)
  | Tag (name : string) (attrs : gmap string string) (children : list node).

(** [tag.get(key)]. *)
Definition get (n : node) (key : string) : option string :=
  match n with
  | Text _ => None
  | Tag _ attrs _ => attrs !! key
  end.

(** [find_all(name)]: the tags of that name, in document order. *)
Fixpoint find_all_in (name : string) (n : node) : list node :=
  match n with
  | Text _ => []
  | Tag nm _ children =>
      (if String.eqb nm name then [n] else [])
      ++ flat_map (find_all_in name) children
  end.

Definition find_all (name : string) (soup : list node) : list node :=
  flat_map (find_all_in name) soup.

(** [for t in soup.find_all(name): t.decompose()]: every tag of that
    name is taken out of the tree with all it contains. *)
Fixpoint decompose_in (name : string) (n : node) : list node :=
  match n with
  | Text s => [Text s]
  | Tag nm attrs children =>
      if String.eqb nm name then []
      else [Tag nm attrs (flat_map (decompose_in name) children)]
  end.

Definition decompose_all (name : string) (soup : list node) : list node :=
  flat_map (decompose_in name) soup.

(** The strings of the tree, in document order. *)
Fixpoint strings_in (n : node) : list string :=
  match n with
  | Text s => [s]
  | Tag _ _ children => flat_map strings_in children
  end.

(** The tags whose strings are of a class of their own in the tree
    ([RubyTextString], [RubyParenthesisString], [Stylesheet], [Script],
    [TemplateString]): a string that has one of them above it is not a
    plain [NavigableString]. *)
Definition string_containers : list string :=
  ["rt"; "rp"; "style"; "script"; "template"].

Definition is_string_container (name : string) : bool :=
  existsb (String.eqb name) string_containers.

(** The plain strings of the tree, in document order: the ones
    [get_text] yields, since it leaves out every string of another
    class. *)
Fixpoint text_strings_in (n : node) : list string :=
  match n with
  | Text s => [s]
  | Tag nm _ children =>
      if is_string_container nm then []
      else flat_map text_strings_in children
  end.

(** [soup.get_text(separator=sep)]. *)
Definition get_text (sep : string) (soup : list node) : string :=
  PyStr.join sep (flat_map text_strings_in soup).

(** Two trees that differ in the attributes of their tags only. *)
Fixpoint same_but_attrs (n1 n2 : node) : bool :=
  match n1, n2 with
  | Text s1, Text s2 => String.eqb s1 s2
  | Tag nm1 _ cs1, Tag nm2 _ cs2 =>
      String.eqb nm1 nm2
      && (fix all2 (l1 l2 : list node) : bool :=
            match l1, l2 with
            | [], [] => true
            | x1 :: l1', x2 :: l2' => same_but_attrs x1 x2 && all2 l1' l2'
            | _, _ => false
            end) cs1 cs2
  | _, _ => false
  end.

Fixpoint same_but_attrs_list (l1 l2 : list node) : bool :=
  match l1, l2 with
  | [], [] => true
  | x1 :: l1', x2 :: l2' => same_but_attrs x1 x2 && same_but_attrs_list l1' l2'
  | _, _ => false
  end.

(** *** A reading of markup into that tree

    What [BeautifulSoup(markup, "html.parser")] builds for markup made of
    start tags, end tags and text: tag and attribute names in lower
    case; the text of [script] and [style] taken raw up to its end tag;
    void elements closed at once; an end tag closes the innermost open
    tag of its name and is dropped when there is none; text that is
    white space only shrinks to one line feed or one blank outside [pre]
    and [textarea].  Comments, declarations, processing instructions and
    character references are outside this reading, and so are a [>]
    inside an attribute value and a [<] that is followed by a letter or
    a slash without opening a complete tag. *)

Inductive token : Type :=
  | TStart (name : string) (attrs : gmap string string)
  | TEnd (name : string)
  | TData (s : string).

Definition lower_char (c : ascii) : ascii :=
  let n := nat_of_ascii c in
  if ((65 <=? n)%nat && (n <=? 90)%nat)%bool then ascii_of_nat (n + 32) else c.

Fixpoint lower (s : string) : string :=
  match s with
  | EmptyString => EmptyString
  | String c s' => String (lower_char c) (lower s')
  end.

Definition is_letter (c : ascii) : bool :=
  let n := nat_of_ascii (lower_char c) in ((97 <=? n)%nat && (n <=? 122)%nat)%bool.

Definition is_quote (c : ascii) : bool :=
  let n := nat_of_ascii c in ((n =? 34)%nat || (n =? 39)%nat)%bool.

Fixpoint has_gt (s : string) : bool :=
  match s with
  | EmptyString => false
  | String c s' => (Ascii.eqb c ">" || has_gt s')%bool
  end.

(** After a [<]: a letter, or a slash and a letter, and a [>] further on. *)
Definition tag_opens (s : string) : bool :=
  match s with
  | String c s' =>
      ((is_letter c
        || (Ascii.eqb c "/"
            && match s' with
               | String c' _ => is_letter c'
               | EmptyString => false
               end))
       && has_gt s)%bool
  | EmptyString => false
  end.

(** In the raw text of [script] or [style], after a [<]: the end tag. *)
Definition cdata_closes (name : string) (s : string) : bool :=
  (String.prefix ("/" ++ name) (lower s) && has_gt s)%bool.

Inductive attr_mode : Type :=
  | AName
  | AEquals
  | AQuoted (q : ascii)
  | AUnquoted.

Definition put_attr (name val : string) (acc : gmap string string)
  : gmap string string :=
  if PyStr.is_empty name then acc else <[lower name := val]> acc.

Fixpoint parse_attrs (m : attr_mode) (name val : string) (s : string)
    (acc : gmap string string) : gmap string string :=
  match s with
  | EmptyString => put_attr name val acc
  | String c s' =>
      match m with
      | AName =>
          if (PyStr.isspace c || Ascii.eqb c "/")%bool
          then parse_attrs AName "" "" s' (put_attr name "" acc)
          else if Ascii.eqb c "=" then parse_attrs AEquals name "" s' acc
          else parse_attrs AName (PyStr.snoc name c) "" s' acc
      | AEquals =>
          if is_quote c then parse_attrs (AQuoted c) name "" s' acc
          else if PyStr.isspace c then parse_attrs AEquals name "" s' acc
          else parse_attrs AUnquoted name (String c "") s' acc
      | AQuoted q =>
          if Ascii.eqb c q then parse_attrs AName "" "" s' (<[lower name := val]> acc)
          else parse_attrs (AQuoted q) name (PyStr.snoc val c) s' acc
      | AUnquoted =>
          if PyStr.isspace c
          then parse_attrs AName "" "" s' (<[lower name := val]> acc)
          else parse_attrs AUnquoted name (PyStr.snoc val c) s' acc
      end
  end.

(** The name of a tag: up to the first blank or slash. *)
Fixpoint tag_name (s : string) : string * string :=
  match s with
  | EmptyString => ("", "")
  | String c s' =>
      if (PyStr.isspace c || Ascii.eqb c "/")%bool then ("", s)
      else let '(nm, rest) := tag_name s' in (String c nm, rest)
  end.

Fixpoint ends_with_slash (s : string) : bool :=
  match s with
  | EmptyString => false
  | String c EmptyString => Ascii.eqb c "/"
  | String _ s' => ends_with_slash s'
  end.

(** The tokens of the text between a [<] and its [>]. *)
Definition parse_tag (body : string) : list token :=
  match body with
  | String "/" rest => [TEnd (lower (PyStr.strip rest))]
  | _ =>
      let '(nm, rest) := tag_name body in
      let start := TStart (lower nm) (parse_attrs AName "" "" rest ∅) in
      if ends_with_slash body then [start; TEnd (lower nm)] else [start]
  end.

Inductive mode : Type :=
  | MText
  | MTag (cdata : option string)
  | MCData (name : string).

Definition is_cdata_element (name : string) : bool :=
  (String.eqb name "script" || String.eqb name "style")%bool.

Definition data_token (buf : string) : list token :=
  if PyStr.is_empty buf then [] else [TData buf].

Definition mode_after (toks : list token) : mode :=
  match toks with
  | [TStart nm _] => if is_cdata_element nm then MCData nm else MText
  | _ => MText
  end.

Fixpoint tokenize (m : mode) (buf : string) (s : string) : list token :=
  match s with
  | EmptyString =>
      match m with
      | MTag _ => [TData (String "<" buf)]
      | _ => data_token buf
      end
  | String c s' =>
      match m with
      | MText =>
          if (Ascii.eqb c "<" && tag_opens s')%bool
          then data_token buf ++ tokenize (MTag None) "" s'
          else tokenize MText (PyStr.snoc buf c) s'
      | MTag _ =>
          if Ascii.eqb c ">"
          then let toks := parse_tag buf in
               toks ++ tokenize (mode_after toks) "" s'
          else tokenize m (PyStr.snoc buf c) s'
      | MCData nm =>
          if (Ascii.eqb c "<" && cdata_closes nm s')%bool
          then data_token buf ++ tokenize (MTag None) "" s'
          else tokenize m (PyStr.snoc buf c) s'
      end
  end.

Definition void_elements : list string :=
  ["area"; "base"; "br"; "col"; "embed"; "hr"; "img"; "input"; "keygen";
   "link"; "menuitem"; "meta"; "param"; "source"; "track"; "wbr";
   "basefont"; "bgsound"; "command"; "frame"; "image"; "isindex"; "nextid";
   "spacer"].

Definition is_void (name : string) : bool :=
  existsb (String.eqb name) void_elements.

Definition preserves_whitespace (name : string) : bool :=
  (String.eqb name "pre" || String.eqb name "textarea")%bool.

(** An open tag: its name, its attributes, its children so far, the
    last one first. *)
Definition frame : Type := string * gmap string string * list node.

Definition is_ascii_space (c : ascii) : bool :=
  let n := nat_of_ascii c in
  ((n =? 32)%nat || (n =? 10)%nat || (n =? 9)%nat || (n =? 12)%nat
   || (n =? 13)%nat)%bool.

Fixpoint all_ascii_space (s : string) : bool :=
  match s with
  | EmptyString => true
  | String c s' => (is_ascii_space c && all_ascii_space s')%bool
  end.

(** [endData]: white space alone becomes one line feed or one blank. *)
Definition end_data (stack : list frame) (s : string) : string :=
  if (all_ascii_space s
      && negb (existsb (λ f : frame, preserves_whitespace f.1.1) stack))%bool
  then if PyStr.contains PyStr.nl s then PyStr.nl else " "
  else s.

Definition add_child (n : node) (stack : list frame) (root : list node)
  : list frame * list node :=
  match stack with
  | [] => ([], n :: root)
  | (nm, attrs, children) :: stack' => ((nm, attrs, n :: children) :: stack', root)
  end.

(** [_popToTag]: close the open tags down to the innermost one named
    [name]; [child] is the tag just closed, whose name was [closed]. *)
Fixpoint pop_to_tag (name closed : string) (child : node)
    (stack : list frame) (root : list node) : list frame * list node :=
  if String.eqb closed name then add_child child stack root
  else
    match stack with
    | [] => ([], child :: root)
    | (nm, attrs, children) :: stack' =>
        pop_to_tag name nm (Tag nm attrs (rev (child :: children))) stack' root
    end.

(** At the end of the markup every open tag is closed. *)
Fixpoint close_from (child : node) (stack : list frame) (root : list node)
  : list node :=
  match stack with
  | [] => rev (child :: root)
  | (nm, attrs, children) :: stack' =>
      close_from (Tag nm attrs (rev (child :: children))) stack' root
  end.

Definition close_all (stack : list frame) (root : list node) : list node :=
  match stack with
  | [] => rev root
  | (nm, attrs, children) :: stack' =>
      close_from (Tag nm attrs (rev children)) stack' root
  end.

Fixpoint build (toks : list token) (stack : list frame) (root : list node)
  : list node :=
  match toks with
  | [] => close_all stack root
  | TData s :: toks' =>
      let '(stack2, root2) := add_child (Text (end_data stack s)) stack root in
      build toks' stack2 root2
  | TStart nm attrs :: toks' =>
      if is_void nm
      then let '(stack2, root2) := add_child (Tag nm attrs []) stack root in
           build toks' stack2 root2
      else build toks' ((nm, attrs, []) :: stack) root
  | TEnd nm :: toks' =>
      if existsb (λ f : frame, String.eqb f.1.1 nm) stack
      then match stack with
           | [] => build toks' stack root
           | (nm0, attrs0, children0) :: stack' =>
               let '(stack2, root2) :=
                 pop_to_tag nm nm0 (Tag nm0 attrs0 (rev children0)) stack' root in
               build toks' stack2 root2
           end
      else build toks' stack root
  end.

Definition html_parser (markup : string) : list node :=
  build (tokenize MText "" markup) [] [].

End Soup.

(** ** The script *)

Module Script.

Import PyStr.
Local Open Scope string_scope.

Definition MIN_IMAGE_WIDTH : nat := 50.
Definition MIN_IMAGE_HEIGHT : nat := 50.
Definition MAX_RETRIES : nat := 5.

Definition sanitize_filename (name : string) : string := re_sub_forbidden name.

(** *** What the script gets from outside *)

(** [driver.get(url)] followed by [driver.page_source]: the page, a
    [WebDriverException] with its text, or an exception of another class
    with its text. *)
Inductive page_result : Type :=
  | PageSource (html : string)
  | WebDriverException (msg : string)
  | LoadRaised (msg : string).

(** [session.get(src, timeout=10)]: a response with its status code and
    its body, or an exception with its text. *)
Inductive response : Type :=
  | Response (status_code : nat) (content : string)
  | RequestException (msg : string).

(** [Image.open(BytesIO(content))] and [im.size]: the width and the
    height, or an exception with its text. *)
Inductive image_result : Type :=
  | ImageSize (w h : nat)
  | ImageError (msg : string).

(** A value read back by [json.load]. *)
Inductive json : Type :=
  | JNull
  | JNum (n : nat)
  | JStr (s : string)
  | JDict (d : gmap string string).

(** The exceptions that leave a function: [Uncaught] is an exception of
    a page load that is no [WebDriverException]. *)
Inductive py_exn : Type :=
  | AttributeError
  | IndexError
  | Uncaught (msg : string).

(** What one run writes and prints, in order. *)
Inductive message : Type :=
  | SkipInvalidUrl
  | ErrorFetchFailed
  | InfoChanged
  | InfoUnchanged
  | InfoFirstCapture
  | DiffCreated.

Inductive event : Type :=
  | Printed (m : message) (name : string)
  | DiffWritten (file : string) (content : string)
  | SnapshotWritten (file : string) (data : gmap string json).

(** *** [highlight_html_diff] *)

Definition extract_readable_text (line : string) : string :=
  strip (re_sub_spaces (re_sub_tags line)).

Definition escape (line : string) : string :=
  replace_char ">" "&gt;" (replace_char "<" "&lt;" line).

Definition span_inserted (line : string) : string :=
  "<span style=" ++ dq ++ "background-color: yellow;" ++ dq ++ ">"
  ++ escape line ++ "</span>".

Definition del_removed (line : string) : string :=
  "<del style=" ++ dq ++ "background-color: #fcc;" ++ dq ++ ">"
  ++ escape line ++ "</del>".

Definition span_modified (line : string) : string :=
  "<span style=" ++ dq ++ "background-color: #faa;" ++ dq ++ ">"
  ++ escape line ++ "</span>".

(** What is appended for one line under an opcode of each kind. *)
Definition wrapper_of (t : Difflib.tag) (line : string) : string :=
  match t with
  | Difflib.Equal => line
  | Difflib.Insert => span_inserted line
  | Difflib.Delete => del_removed line
  | Difflib.Replace => span_modified line
  end.

(** [for idx in range(..): result.append(wrap(pairs[idx][0]))]; an index
    outside [pairs] raises. *)
Fixpoint append_lines (pairs : list (string * string)) (wrap : string → string)
    (idxs : list nat) (result : list string) : py_exn + list string :=
  match idxs with
  | [] => inr result
  | idx :: idxs' =>
      match pairs !! idx with
      | Some p => append_lines pairs wrap idxs' (result ++ [wrap p.1])
      | None => inl IndexError
      end
  end.

Definition render_opcode (old_pairs new_pairs : list (string * string))
    (op : Difflib.opcode) (result : list string) : py_exn + list string :=
  let '(tag, i1, i2, j1, j2) := op in
  match tag with
  | Difflib.Equal => append_lines new_pairs (λ l, l) (seq j1 (j2 - j1)) result
  | Difflib.Insert => append_lines new_pairs span_inserted (seq j1 (j2 - j1)) result
  | Difflib.Delete => append_lines old_pairs del_removed (seq i1 (i2 - i1)) result
  | Difflib.Replace => append_lines new_pairs span_modified (seq j1 (j2 - j1)) result
  end.

Fixpoint render_opcodes (old_pairs new_pairs : list (string * string))
    (ops : list Difflib.opcode) (result : list string) : py_exn + list string :=
  match ops with
  | [] => inr result
  | op :: ops' =>
      match render_opcode old_pairs new_pairs op result with
      | inr result' => render_opcodes old_pairs new_pairs ops' result'
      | inl e => inl e
      end
  end.

Definition pairs_of (lines : list string) : list (string * string) :=
  map (λ orig, (orig, extract_readable_text orig)) lines.

(** The comparison keys [old_text_only] and [new_text_only]. *)
Definition text_only (lines : list string) : list string :=
  map snd (pairs_of lines).

(** [SequenceMatcher(None, old_text_only, new_text_only).get_opcodes()];
    [None] only if the matcher ran out of fuel, which it never does. *)
Definition align (old_lines new_lines : list string)
  : option (list Difflib.opcode) :=
  Difflib.get_opcodes (text_only old_lines) (text_only new_lines).

Definition diff_opcodes (old_html new_html : string)
  : option (list Difflib.opcode) :=
  align (splitlines_keepends old_html) (splitlines_keepends new_html).

(** An opcode list is of minimal edit distance when no alignment of the
    same two sequences puts fewer lines under insert, delete and
    replace. *)
Definition minimal_edit (a b : list string) (ops : list Difflib.opcode) : Prop :=
  ∀ ops', Difflib.alignmentb a b ops' = true →
          (Difflib.edit_lines ops ≤ Difflib.edit_lines ops')%nat.

Definition highlight_html_diff (old_html new_html : string)
  : option (py_exn + string) :=
  let old_pairs := pairs_of (splitlines_keepends old_html) in
  let new_pairs := pairs_of (splitlines_keepends new_html) in
  match diff_opcodes old_html new_html with
  | None => None
  | Some ops =>
      match render_opcodes old_pairs new_pairs ops [] with
      | inl e => Some (inl e)
      | inr result =>
          Some (inr ("<meta charset='UTF-8'>" ++ nl ++ String.concat "" result))
      end
  end.

(** The call [highlight_html_diff(old_html, new_html)] of [main], where
    [old_html] is whatever the stored record holds: [splitlines] exists
    on [str] only. *)
Definition call_highlight (old_html : json) (new_html : string)
  : option (py_exn + string) :=
  match old_html with
  | JStr s => highlight_html_diff s new_html
  | _ => Some (inl AttributeError)
  end.

(** [remove_unnecessary_tags]. *)
Definition remove_unnecessary_tags (soup : list Soup.node) : list Soup.node :=
  Soup.decompose_all "script" (Soup.decompose_all "style" soup).

Section World.

(** [BeautifulSoup(page_content, "html.parser")]. *)
Variable BeautifulSoup : string → list Soup.node.

(** The browser session and one page load in it. *)
Context {Driver : Type}.
Variable driver_get : Driver → string → Driver * page_result.

(** The image requests, the image decoder and the hash.  What a
    request answers depends on the reference only. *)
Variable session_get : string → response.
Variable image_open : string → image_result.
Variable md5_hexdigest : string → string.

(** The clock: the three formats of the [n]-th reading of
    [datetime.now()]. *)
Variable strftime_full : nat → string.
Variable strftime_date : nat → string.
Variable strftime_hhmm : nat → string.

(** [get_page_content_with_selenium]: [attempts] passes of the loop
    are left; the pair returned is [(page, None)] or [(None, error)].
    The [except] clause catches [WebDriverException] only: any other
    exception of the load leaves the function. *)
Fixpoint get_page_attempts (attempts : nat) (url : string) (driver : Driver)
    (last_exception : option string)
  : Driver * (py_exn + (option string * option string)) :=
  match attempts with
  | 0 => (driver, inr (None, Some (default "None" last_exception)))
  | S attempts' =>
      match driver_get driver url with
      | (driver', PageSource html) => (driver', inr (Some html, None))
      | (driver', WebDriverException e) =>
          get_page_attempts attempts' url driver' (Some e)
      | (driver', LoadRaised e) => (driver', inl (Uncaught e))
      end
  end.

(** The first [n] page loads of [url], starting in [driver], all raise
    a [WebDriverException]. *)
Fixpoint attempts_fail (n : nat) (url : string) (driver : Driver) : Prop :=
  match n with
  | 0 => True
  | S n' =>
      (∃ e, (driver_get driver url).2 = WebDriverException e)
      ∧ attempts_fail n' url (driver_get driver url).1
  end.

Definition get_page_content_with_selenium (url : string) (driver : Driver)
  : Driver * (py_exn + (option string * option string)) :=
  get_page_attempts MAX_RETRIES url driver None.

(** One pass of the loop of [compute_image_hashes]. *)
Definition image_step (img_hashes : gmap string string) (img : Soup.node)
  : gmap string string :=
  match Soup.get img "src" with
  | None => img_hashes
  | Some src =>
      if is_empty src then img_hashes
      else
        match session_get src with
        | RequestException e => <[src := "Error:" ++ e]> img_hashes
        | Response status_code content =>
            if (status_code =? 200)%nat then
              match image_open content with
              | ImageError e => <[src := "ErrorImage:" ++ e]> img_hashes
              | ImageSize w h =>
                  if ((w <? MIN_IMAGE_WIDTH)%nat || (h <? MIN_IMAGE_HEIGHT)%nat)%bool
                  then img_hashes
                  else <[src := md5_hexdigest content]> img_hashes
              end
            else <[src := "ErrorStatus:" ++ pretty status_code]> img_hashes
        end
  end.

Definition compute_image_hashes (soup : list Soup.node) (base_url : string)
  : gmap string string :=
  foldl image_step ∅ (Soup.find_all "img" soup).

(** The text compared from one run to the next. *)
Definition text_for_diff_of (page_content : string) : string :=
  Soup.get_text nl (remove_unnecessary_tags (BeautifulSoup page_content)).

(** The record [new_data]. *)
Definition new_data_of (name url retrieved_at page_content : string)
  : gmap string json :=
  <["name" := JStr name]>
  (<["url" := JStr url]>
  (<["retrieved_at" := JStr retrieved_at]>
  (<["html_source" := JStr page_content]>
  (<["text_for_diff" := JStr (text_for_diff_of page_content)]>
  (<["image_hashes" :=
       JDict (compute_image_hashes (BeautifulSoup page_content) url)]> ∅))))).

(** [old_data.get(key, "")]. *)
Definition dict_get (d : gmap string json) (key : string) : json :=
  default (JStr "") (d !! key).

(** [old_text != text_for_diff]. *)
Definition py_ne (v : json) (s : string) : bool :=
  match v with
  | JStr s' => negb (String.eqb s' s)
  | _ => true
  end.

Definition diff_filename (date hhmm name : string) : string :=
  "diff-" ++ date ++ "-" ++ hhmm ++ "-" ++ sanitize_filename name ++ ".html".

Definition indent : string := "                ".

Definition diff_html_full (name diff_html : string) : string :=
  nl ++ indent ++ "<html>" ++ nl
  ++ indent ++ "<head>" ++ nl
  ++ indent ++ "<meta charset=" ++ dq ++ "UTF-8" ++ dq ++ ">" ++ nl
  ++ indent ++ "<title>Diff for " ++ name ++ "</title>" ++ nl
  ++ indent ++ "</head>" ++ nl
  ++ indent ++ "<body>" ++ nl
  ++ indent ++ diff_html ++ nl
  ++ indent ++ "</body>" ++ nl
  ++ indent ++ "</html>" ++ nl
  ++ indent.

(** The state one run works on: the two folders (file name to
    content), the browser session, the number of clock readings so
    far, and what was printed and written.  Every file of the data
    folder holds a JSON object; its fields may be of any kind. *)
Record world : Type := World {
  data_folder : gmap string (gmap string json);
  diff_folder : gmap string string;
  driver : Driver;
  clock : nat;
  log : list event
}.

(** How the body of the loop ends for one row. *)
Inductive row_end : Type :=
  | Next
  | Raised (e : py_exn)
  | OutOfFuel.

(** The body of [for _, row in df.iterrows()], for the row
    [(row0, row1)] already turned into strings. *)
Definition process_row (row : string * string) (w : world) : world * row_end :=
  let name := strip row.1 in
  let url := strip row.2 in
  if negb (re_match_http url) then
    (World (data_folder w) (diff_folder w) (driver w) (clock w)
       (log w ++ [Printed SkipInvalidUrl name])%list, Next)
  else
    let file_name := sanitize_filename name ++ ".json" in
    let old_data := data_folder w !! file_name in
    match get_page_content_with_selenium url (driver w) with
    | (driver', inl e) =>
        (World (data_folder w) (diff_folder w) driver' (clock w) (log w),
         Raised e)
    | (driver', inr (None, error_info)) =>
        (World (data_folder w) (diff_folder w) driver' (clock w)
           (log w ++ [Printed ErrorFetchFailed name])%list, Next)
    | (driver', inr (Some page_content, error_info)) =>
        let text_for_diff := text_for_diff_of page_content in
        let new_data :=
          new_data_of name url (strftime_full (clock w)) page_content in
        let save (diffs : gmap string string) (ticks : nat) (l : list event) :=
          (World (<[file_name := new_data]> (data_folder w)) diffs driver'
             ticks (l ++ [SnapshotWritten file_name new_data])%list, Next) in
        match old_data with
        | Some old =>
            if py_ne (dict_get old "text_for_diff") text_for_diff then
              let l1 := (log w ++ [Printed InfoChanged name])%list in
              match call_highlight (dict_get old "html_source") page_content with
              | None =>
                  (World (data_folder w) (diff_folder w) driver'
                     (S (clock w)) l1, OutOfFuel)
              | Some (inl e) =>
                  (World (data_folder w) (diff_folder w) driver'
                     (S (clock w)) l1, Raised e)
              | Some (inr diff_html) =>
                  let file :=
                    diff_filename (strftime_date (S (clock w)))
                      (strftime_hhmm (S (clock w))) name in
                  let content := diff_html_full name diff_html in
                  save (<[file := content]> (diff_folder w)) (S (S (clock w)))
                    (l1 ++ [DiffWritten file content; Printed DiffCreated file])%list
              end
            else
              save (diff_folder w) (S (clock w))
                (log w ++ [Printed InfoUnchanged name])%list
        | None =>
            save (diff_folder w) (S (clock w))
              (log w ++ [Printed InfoFirstCapture name])%list
        end
    end.

(** The loop over the rows: an exception leaves it at once. *)
Fixpoint process_rows (rows : list (string * string)) (w : world)
  : world * row_end :=
  match rows with
  | [] => (w, Next)
  | row :: rows' =>
      match process_row row w with
      | (w', Next) => process_rows rows' w'
      | stopped => stopped
      end
  end.

End World.

End Script.

(** ** A small world to run the script in

    Sites that answer every page load, never do, or refuse the first
    two; a browser that loses its connection; a handful of images; and
    a clock that counts its readings.  The
    digest is a stand-in: the script only stores what [hexdigest]
    returns. *)

Module Sample.

Import PyStr Script.
Local Open Scope string_scope.

Definition page_of (url : string) : string :=
  if String.eqb url "http://site/ab" then "<p>A</p><p>B</p>"
  else if String.eqb url "http://site/ac" then "<p>A</p><p>C</p>"
  else if String.eqb url "http://site/lines" then "A" ++ nl ++ "C"
  else "<p>hello</p>".

Definition driver_up (loads : nat) (url : string) : nat * page_result :=
  (S loads, PageSource (page_of url)).

Definition driver_down (loads : nat) (url : string) : nat * page_result :=
  (S loads, WebDriverException "net::ERR_CONNECTION_REFUSED").

(** A browser whose connection is lost at the second page load of a
    session: that load raises an exception that is no
    [WebDriverException]. *)
Definition driver_lost (loads : nat) (url : string) : nat * page_result :=
  if (loads =? 1)%nat then (S loads, LoadRaised "MaxRetryError")
  else (S loads, PageSource (page_of url)).

(** A site that refuses the first two page loads of a session. *)
Definition driver_flaky (loads : nat) (url : string) : nat * page_result :=
  if (loads <? 2)%nat then (S loads, WebDriverException "timeout")
  else (S loads, PageSource (page_of url)).

Definition session_get (src : string) : response :=
  if String.eqb src "small.png" then Response 200 "bytes of a 10x10 image"
  else if String.eqb src "large.png" then Response 200 "bytes of a 60x60 image"
  else if String.eqb src "gone.png" then Response 404 ""
  else RequestException "connection refused".

Definition image_open (content : string) : image_result :=
  if String.eqb content "bytes of a 10x10 image" then ImageSize 10 10
  else if String.eqb content "bytes of a 60x60 image" then ImageSize 60 60
  else ImageError "cannot identify image file".

Definition md5_hexdigest (content : string) : string := "md5 of " ++ content.

Definition strftime_full (n : nat) : string := "2025-01-01 00:00:0" ++ pretty n.
Definition strftime_date (n : nat) : string := "2025-01-01".
Definition strftime_hhmm (n : nat) : string := "0000".

Definition process_rows_up :=
  process_rows Soup.html_parser driver_up session_get image_open md5_hexdigest
    strftime_full strftime_date strftime_hhmm.

Definition process_row_up :=
  process_row Soup.html_parser driver_up session_get image_open md5_hexdigest
    strftime_full strftime_date strftime_hhmm.

Definition process_row_down :=
  process_row Soup.html_parser driver_down session_get image_open md5_hexdigest
    strftime_full strftime_date strftime_hhmm.

Definition process_rows_down :=
  process_rows Soup.html_parser driver_down session_get image_open md5_hexdigest
    strftime_full strftime_date strftime_hhmm.

Definition process_rows_lost :=
  process_rows Soup.html_parser driver_lost session_get image_open md5_hexdigest
    strftime_full strftime_date strftime_hhmm.

Definition new_data (name url retrieved_at page : string) : gmap string json :=
  new_data_of Soup.html_parser session_get image_open md5_hexdigest
    name url retrieved_at page.

(** The Snapshot of an earlier run for the target [t]. *)
Definition snapshot_ab : gmap string json :=
  new_data "t" "http://site/ab" "2024-12-31 00:00:00" "<p>A</p><p>B</p>".

Definition snapshot_lines : gmap string json :=
  new_data "t" "http://site/lines" "2024-12-31 00:00:00" ("A" ++ nl ++ "B").

(** The same record after something else rewrote the file with a null
    in the place of the markup. *)
Definition snapshot_null : gmap string json :=
  <["html_source" := JNull]> snapshot_ab.

Definition world_with (snapshot : gmap string json) : @world nat :=
  World (<["t.json" := snapshot]> ∅) ∅ 0 0 [].

Definition world_empty : @world nat := World ∅ ∅ 0 0 [].

Definition two_images : list Soup.node :=
  Soup.html_parser "<img src=small.png><p>x</p><img src=large.png>".

End Sample.

(** ** Vocabulary of the properties *)

Module Shape.

Import PyStr Script.
Local Open Scope string_scope.

(** Every character of [s] passes [ok]. *)
Fixpoint all_chars (ok : ascii → bool) (s : string) : bool :=
  match s with
  | EmptyString => true
  | String c s' => (ok c && all_chars ok s')%bool
  end.

(** A character a file name may hold on every system. *)
Definition is_allowed (c : ascii) : bool := negb (is_forbidden c).

(** Every white space character of [s] is a blank, and none follows
    another; [after_blank] tells that the character before [s] is
    one. *)
Fixpoint spaced_from (after_blank : bool) (s : string) : bool :=
  match s with
  | EmptyString => true
  | String c s' =>
      if isspace c
      then (Ascii.eqb c " " && negb after_blank && spaced_from true s')%bool
      else spaced_from false s'
  end.

(** The same, and [s] does not end with a blank. *)
Fixpoint tidy_from (after_blank : bool) (s : string) : bool :=
  match s with
  | EmptyString => negb after_blank
  | String c s' =>
      if isspace c
      then (Ascii.eqb c " " && negb after_blank && tidy_from true s')%bool
      else tidy_from false s'
  end.

(** A tidy text is empty, or runs of other characters set apart by
    single blanks: no white space at either end, none but blanks, no two
    in a row. *)
Definition tidy (s : string) : bool :=
  (is_empty s || tidy_from true s)%bool.

(** The list [result] of [highlight_html_diff] before it is joined. *)
Definition diff_result (old_html new_html : string)
  : option (py_exn + list string) :=
  match diff_opcodes old_html new_html with
  | None => None
  | Some ops =>
      Some (render_opcodes (pairs_of (splitlines_keepends old_html))
              (pairs_of (splitlines_keepends new_html)) ops [])
  end.

(** The first line of every diff document. *)
Definition meta_line : string := "<meta charset='UTF-8'>" ++ nl.

(** The lines [pairs[lo:hi]], each in its wrapper. *)
Definition wrapped_range (t : Difflib.tag) (pairs : list (string * string))
    (lo hi : nat) : list string :=
  map (λ p : string * string, wrapper_of t p.1) (take (hi - lo) (drop lo pairs)).

(** What one opcode adds to [result]. *)
Definition pieces_of (old_pairs new_pairs : list (string * string))
    (op : Difflib.opcode) : list string :=
  let '(t, i1, i2, j1, j2) := op in
  match t with
  | Difflib.Delete => wrapped_range t old_pairs i1 i2
  | _ => wrapped_range t new_pairs j1 j2
  end.

(** A character as the document shows it inside a marker: the two
    angle brackets as their entity references, any other character as
    it is. *)
Definition entity_of (c : ascii) : string :=
  if Ascii.eqb c "<" then "&lt;"
  else if Ascii.eqb c ">" then "&gt;"
  else String c "".

(** A line with every [<] and every [>] as its entity reference. *)
Fixpoint as_entities (line : string) : string :=
  match line with
  | EmptyString => EmptyString
  | String c line' => entity_of c ++ as_entities line'
  end.

(** The markup put before and after a changed line. *)
Definition marker_open (t : Difflib.tag) : string :=
  match t with
  | Difflib.Equal => ""
  | Difflib.Insert =>
      "<span style=" ++ dq ++ "background-color: yellow;" ++ dq ++ ">"
  | Difflib.Delete =>
      "<del style=" ++ dq ++ "background-color: #fcc;" ++ dq ++ ">"
  | Difflib.Replace =>
      "<span style=" ++ dq ++ "background-color: #faa;" ++ dq ++ ">"
  end.

Definition marker_close (t : Difflib.tag) : string :=
  match t with
  | Difflib.Equal => ""
  | Difflib.Delete => "</del>"
  | _ => "</span>"
  end.

(** One line as the document shows it under an opcode of kind [t]:
    as it is under [equal], as entities inside the marker otherwise. *)
Definition shown (t : Difflib.tag) (line : string) : string :=
  match t with
  | Difflib.Equal => line
  | _ => marker_open t ++ as_entities line ++ marker_close t
  end.

(** The lines under an opcode: [old_lines[i1:i2]] for a delete,
    [new_lines[j1:j2]] for the other kinds. *)
Definition lines_under (old_lines new_lines : list string)
    (op : Difflib.opcode) : list string :=
  let '(t, i1, i2, j1, j2) := op in
  match t with
  | Difflib.Delete => take (i2 - i1) (drop i1 old_lines)
  | _ => take (j2 - j1) (drop j1 new_lines)
  end.

(** The part of the document that stands for one opcode. *)
Definition segment (old_lines new_lines : list string)
    (op : Difflib.opcode) : string :=
  String.concat "" (map (shown op.1.1.1.1) (lines_under old_lines new_lines op)).

Section Entry.

Variable session_get : string → response.
Variable image_open : string → image_result.
Variable md5_hexdigest : string → string.

(** What one pass of the loop of [compute_image_hashes] leaves under the
    reference [src] of its image, [before] being what was there. *)
Definition recorded_entry (src : string) (before : option string)
  : option string :=
  match session_get src with
  | RequestException e => Some ("Error:" ++ e)
  | Response code content =>
      if (code =? 200)%nat then
        match image_open content with
        | ImageError e => Some ("ErrorImage:" ++ e)
        | ImageSize w h =>
            if ((w <? MIN_IMAGE_WIDTH)%nat || (h <? MIN_IMAGE_HEIGHT)%nat)%bool
            then before
            else Some (md5_hexdigest content)
        end
      else Some ("ErrorStatus:" ++ pretty code)
  end.

End Entry.

Section World.

Context {Driver : Type}.
Variable driver_get : Driver → string → Driver * page_result.

(** The browser session after [n] page loads of [url]. *)
Fixpoint driver_after (n : nat) (url : string) (driver : Driver) : Driver :=
  match n with
  | 0 => driver
  | S n' => driver_after n' url (driver_get driver url).1
  end.


End World.

End Shape.

(** * Properties *)

(** ** The matcher *)

Section DifflibFacts.
Import Difflib.
Context {A : Type} `{Countable A}.
Variables (a b : list A).

Lemma positions_spec (x : A) (l : list A) (i j : nat) :
  j ∈ positions x i l ↔ i ≤ j ∧ l !! (j - i) = Some x.
Proof.
  revert i. induction l as [|y l IH]; intros i; simpl.
  - rewrite elem_of_nil. split; [done | intros [_ ?]; done].
  - destruct (decide (x = y)) as [->|Hne].
    + rewrite elem_of_cons, IH. split.
      * intros [->|[Hle Hl]].
        -- split; [lia|]. by replace (i - i) with 0 by lia.
        -- split; [lia|]. by replace (j - i) with (S (j - S i)) by lia.
      * intros [Hle Hl]. destruct (decide (j = i)) as [->|]; [by left|].
        right. split; [lia|].
        by replace (j - i) with (S (j - S i)) in Hl by lia.
    + rewrite IH. split.
      * intros [Hle Hl]. split; [lia|].
        by replace (j - i) with (S (j - S i)) by lia.
      * intros [Hle Hl]. destruct (decide (j = i)) as [->|].
        -- replace (i - i) with 0 in Hl by lia. simpl in Hl. congruence.
        -- split; [lia|].
           by replace (j - i) with (S (j - S i)) in Hl by lia.
Qed.

Lemma chain_b_index_lookup (x : A) (l : list A) (i : nat)
    (m : gmap A (list nat)) :
  default [] (chain_b_index i l m !! x)
  = default [] (m !! x) ++ positions x i l.
Proof.
  revert i m. induction l as [|y l IH]; intros i m; simpl.
  - by rewrite app_nil_r.
  - rewrite IH. destruct (decide (x = y)) as [->|Hne].
    + rewrite lookup_insert_eq. simpl. by rewrite <- app_assoc.
    + by rewrite lookup_insert_ne.
Qed.

(** What [b2j.get(x, [])] returns: the indices of [x] in [b], unless the
    popularity heuristic removed the key. *)
Lemma b2j_lookup (x : A) :
  default [] (b2j b !! x)
  = if (200 <=? length b) && is_popular b (positions x 0 b)
    then [] else positions x 0 b.
Proof.
  unfold b2j.
  pose proof (chain_b_index_lookup x b 0 ∅) as Hc.
  rewrite lookup_empty in Hc. simpl in Hc.
  destruct (200 <=? length b); simpl; [|done].
  destruct (chain_b_index 0 b ∅ !! x) as [l|] eqn:Hl; simpl in Hc; subst.
  - destruct (is_popular b (positions x 0 b)) eqn:Hp.
    + rewrite map_lookup_filter_None_2; [done|].
      right. intros l' Hl'. simpl. congruence.
    + by rewrite (map_lookup_filter_Some_2 _ _ _ _ Hl).
  - rewrite map_lookup_filter_None_2; [|by left]. simpl.
    rewrite <- Hc. by destruct (is_popular b []).
Qed.

Lemma b2j_elem (x : A) (j : nat) :
  j ∈ default [] (b2j b !! x) → b !! j = Some x.
Proof.
  rewrite b2j_lookup.
  destruct (_ && _); [by rewrite elem_of_nil|].
  rewrite positions_spec. intros [_ Hj]. by rewrite Nat.sub_0_r in Hj.
Qed.

(** *** [find_longest_match] returns a matching block of its region *)

Lemma runs_equal_eq (i j k i' j' k' : nat) :
  i = i' → j = j' → k = k' → runs_equal a b i j k → runs_equal a b i' j' k'.
Proof. by intros -> -> ->. Qed.

Lemma runs_equal_snoc (i j k : nat) :
  runs_equal a b i j k → elt_eqb a b (i + k) (j + k) = true →
  runs_equal a b i j (k + 1).
Proof.
  intros Hr He d Hd. destruct (decide (d = k)) as [->|]; [done|].
  apply Hr. lia.
Qed.

Lemma runs_equal_cons (i j k : nat) :
  0 < i → 0 < j → elt_eqb a b (i - 1) (j - 1) = true →
  runs_equal a b i j k → runs_equal a b (i - 1) (j - 1) (k + 1).
Proof.
  intros Hi Hj He Hr d Hd. destruct d as [|d].
  - by rewrite !Nat.add_0_r.
  - replace (i - 1 + S d) with (i + d) by lia.
    replace (j - 1 + S d) with (j + d) by lia. apply Hr. lia.
Qed.

Lemma elt_eqb_same (i j : nat) (x : A) :
  a !! i = Some x → b !! j = Some x → elt_eqb a b i j = true.
Proof.
  intros Ha Hb. unfold elt_eqb. rewrite Ha, Hb. by apply bool_decide_eq_true.
Qed.

Lemma scan_row_ok (alo ahi blo bhi i : nat) (x : A) (js : list nat)
    (j2len newj2len : gmap nat nat) (best : block) :
  alo ≤ i → i < ahi → a !! i = Some x →
  (∀ j, j ∈ js → b !! j = Some x) →
  j2len_ok a b alo blo bhi i j2len →
  j2len_ok a b alo blo bhi (S i) newj2len →
  best_ok a b alo ahi blo bhi best →
  j2len_ok a b alo blo bhi (S i)
    (scan_row blo bhi i js j2len newj2len best).1
  ∧ best_ok a b alo ahi blo bhi
      (scan_row blo bhi i js j2len newj2len best).2.
Proof.
  intros Hlo Hhi Hx. revert newj2len best.
  induction js as [|j js IH]; intros newj2len best Hjs Hold Hnew Hbest;
    simpl; [done|].
  assert (Hjs' : ∀ j', j' ∈ js → b !! j' = Some x)
    by (intros; apply Hjs; by right).
  destruct (j <? blo) eqn:E1; [by apply IH|].
  destruct (bhi <=? j) eqn:E2; [done|].
  apply Nat.ltb_ge in E1. apply Nat.leb_gt in E2.
  assert (Hbj : b !! j = Some x) by (apply Hjs; by left).
  set (k := j2lenget j2len j + 1).
  assert (Hk : 0 < k ∧ alo + k ≤ S i ∧ blo + k ≤ j + 1 ∧
               runs_equal a b (S i - k) (j + 1 - k) k).
  { subst k. unfold j2lenget. destruct j as [|j'].
    - repeat split; try lia. intros d Hd.
      apply elt_eqb_same with x; [rewrite <- Hx | rewrite <- Hbj];
        f_equal; lia.
    - destruct (j2len !! j') as [k'|] eqn:Ek; simpl.
      + destruct (Hold _ _ Ek) as (?&?&?&?&Hr). repeat split; try lia.
        apply (runs_equal_eq (i - k') (j' + 1 - k') (k' + 1)); [lia..|].
        apply runs_equal_snoc; [done|].
        apply elt_eqb_same with x; [rewrite <- Hx | rewrite <- Hbj];
          f_equal; lia.
      + repeat split; try lia. intros d Hd.
        apply elt_eqb_same with x; [rewrite <- Hx | rewrite <- Hbj];
          f_equal; lia. }
  destruct Hk as (Hk1 & Hk2 & Hk3 & Hk4).
  apply IH; [done|done| |].
  - intros j0 k0. destruct (decide (j0 = j)) as [->|Hne].
    + rewrite lookup_insert_eq. intros [= <-]. done.
    + rewrite lookup_insert_ne by done. apply Hnew.
  - destruct (best.2 <? k); [|done].
    unfold best_ok; simpl. repeat split; try lia.
    by apply (runs_equal_eq (S i - k) (j + 1 - k) k); [lia..|].
Qed.

Lemma scan_rows_ok (alo ahi blo bhi : nat) (n i : nat)
    (j2len : gmap nat nat) (best : block) :
  alo ≤ i → i + n ≤ ahi →
  j2len_ok a b alo blo bhi i j2len →
  best_ok a b alo ahi blo bhi best →
  best_ok a b alo ahi blo bhi (scan_rows a b blo bhi (seq i n) j2len best).
Proof.
  revert i j2len best. induction n as [|n IH]; intros i j2len best Hlo Hhi Hm Hb;
    simpl; [done|].
  destruct (a !! i) as [x|] eqn:Hx.
  - pose proof (scan_row_ok alo ahi blo bhi i x (default [] (b2j b !! x))
                  j2len ∅ best) as Hrow.
    destruct (scan_row blo bhi i _ j2len ∅ best) as [newj2len best'].
    destruct Hrow as [Hm' Hb'];
      [lia | lia | done | intros j; apply b2j_elem | done
      | intros j k; by rewrite lookup_empty | done |].
    apply IH; [lia|lia|done|done].
  - simpl. apply IH; [lia|lia| |done].
    intros j k. by rewrite lookup_empty.
Qed.

Lemma extend_down_ok (fuel : nat) (w : bool) (alo ahi blo bhi : nat)
    (best : block) :
  best_ok a b alo ahi blo bhi best →
  best_ok a b alo ahi blo bhi (extend_down a b fuel w alo blo best).
Proof.
  revert best. induction fuel as [|fuel IH]; intros [[bi bj] bk] Hb;
    simpl; [done|].
  destruct (_ && _) eqn:E; [|done].
  repeat (apply andb_prop in E as [E ?]).
  apply Nat.ltb_lt in E. match goal with X : (blo <? bj) = true |- _ =>
    apply Nat.ltb_lt in X end.
  destruct Hb as (?&?&?&?&Hr); simpl in *.
  apply IH. unfold best_ok; simpl. repeat split; try lia.
  apply runs_equal_cons; [lia|lia|done|done].
Qed.

Lemma extend_up_ok (fuel : nat) (w : bool) (alo ahi blo bhi : nat)
    (best : block) :
  best_ok a b alo ahi blo bhi best →
  best_ok a b alo ahi blo bhi (extend_up a b fuel w ahi bhi best).
Proof.
  revert best. induction fuel as [|fuel IH]; intros [[bi bj] bk] Hb;
    simpl; [done|].
  destruct (_ && _) eqn:E; [|done].
  repeat (apply andb_prop in E as [E ?]).
  apply Nat.ltb_lt in E. match goal with X : (bj + bk <? bhi) = true |- _ =>
    apply Nat.ltb_lt in X end.
  destruct Hb as (?&?&?&?&Hr); simpl in *.
  apply IH. unfold best_ok; simpl. repeat split; try lia.
  by apply runs_equal_snoc.
Qed.

Lemma find_longest_match_ok (alo ahi blo bhi : nat) :
  alo ≤ ahi → blo ≤ bhi →
  best_ok a b alo ahi blo bhi (find_longest_match a b alo ahi blo bhi).
Proof.
  intros Ha Hb. unfold find_longest_match.
  apply extend_up_ok, extend_down_ok, extend_up_ok, extend_down_ok.
  apply scan_rows_ok; [lia|lia| |].
  - intros j k. by rewrite lookup_empty.
  - unfold best_ok; simpl. repeat split; try lia. intros d Hd. lia.
Qed.

(** The fuel of the two [while] loops never cuts them short: any fuel
    that covers the distance to the bound gives the same block. *)
Lemma extend_down_fuel (w : bool) (alo blo : nat) (f1 : nat) :
  ∀ (f2 : nat) (best : block),
    best.1.1 ≤ f1 → best.1.1 ≤ f2 →
    extend_down a b f1 w alo blo best = extend_down a b f2 w alo blo best.
Proof.
  induction f1 as [|f1 IH]; intros [|f2] [[bi bj] bk] H1 H2; simpl in *;
    try done.
  - replace bi with 0 by lia. simpl. done.
  - replace bi with 0 by lia. simpl. done.
  - destruct (_ && _) eqn:E; [|done].
    apply IH; simpl; lia.
Qed.

Lemma extend_up_fuel (w : bool) (ahi bhi : nat) (f1 : nat) :
  ∀ (f2 : nat) (best : block),
    ahi - (best.1.1 + best.2) ≤ f1 → ahi - (best.1.1 + best.2) ≤ f2 →
    extend_up a b f1 w ahi bhi best = extend_up a b f2 w ahi bhi best.
Proof.
  induction f1 as [|f1 IH]; intros [|f2] [[bi bj] bk] H1 H2; simpl in *;
    try done.
  - destruct (Nat.ltb_spec (bi + bk) ahi); [lia|done].
  - destruct (Nat.ltb_spec (bi + bk) ahi); [lia|done].
  - destruct (_ && _) eqn:E; [|done].
    apply IH; simpl; lia.
Qed.

(** *** [get_matching_blocks]: the work loop, the sort, the collapse *)

Lemma chain_bounds (alo blo ahi bhi : nat) (l : list block) :
  chain a b alo blo ahi bhi l → alo ≤ ahi ∧ blo ≤ bhi.
Proof.
  revert alo blo. induction l as [|[[i j] k] l IH]; intros alo blo; simpl;
    [done|].
  intros (?&?&?&?&Hc). apply IH in Hc. lia.
Qed.

Lemma chain_weaken (alo blo ahi bhi alo' blo' ahi' bhi' : nat)
    (l : list block) :
  chain a b alo blo ahi bhi l →
  alo' ≤ alo → blo' ≤ blo → ahi ≤ ahi' → bhi ≤ bhi' →
  chain a b alo' blo' ahi' bhi' l.
Proof.
  revert alo blo alo' blo'.
  induction l as [|[[i j] k] l IH]; intros alo blo alo' blo'; simpl.
  - lia.
  - intros (?&?&?&?&Hc) ????. repeat split; try lia; try done.
    by apply (IH _ _ _ _ Hc).
Qed.

Lemma chain_app (alo blo mi mj ahi bhi : nat) (l1 l2 : list block) :
  chain a b alo blo mi mj l1 → chain a b mi mj ahi bhi l2 →
  chain a b alo blo ahi bhi (l1 ++ l2).
Proof.
  revert alo blo. induction l1 as [|[[i j] k] l1 IH]; intros alo blo; simpl.
  - intros [??] Hc. apply (chain_weaken _ _ _ _ _ _ _ _ _ Hc); lia.
  - intros (?&?&?&?&Hc) Hc2. repeat split; try done. by apply IH.
Qed.

Lemma chain_HdRel (alo blo ahi bhi : nat) (l : list block) (x : block) :
  x.1.1 < alo → chain a b alo blo ahi bhi l → HdRel block_le x l.
Proof.
  destruct l as [|[[i j] k] l]; simpl; [constructor|].
  intros Hx (?&?&?&?&?). constructor. left. simpl. lia.
Qed.

Lemma chain_Sorted (alo blo ahi bhi : nat) (l : list block) :
  chain a b alo blo ahi bhi l → Sorted block_le l.
Proof.
  revert alo blo. induction l as [|[[i j] k] l IH]; intros alo blo; simpl;
    [constructor|].
  intros (?&?&?&?&Hc). constructor; [by eapply IH|].
  eapply chain_HdRel; [|exact Hc]. simpl. lia.
Qed.

Lemma matching_loop_spec (fuel : nat) :
  ∀ (queue : list (nat * nat * nat * nat)) (acc : list block),
    queue_weight queue ≤ fuel →
    Forall (λ r, r.1.1.1 ≤ r.1.1.2 ∧ r.1.2 ≤ r.2) queue →
    ∃ res ls,
      matching_loop a b fuel queue acc = Some res ∧
      Forall2 (λ r l, chain a b r.1.1.1 r.1.2 r.1.1.2 r.2 l) queue ls ∧
      res ≡ₚ acc ++ concat ls.
Proof.
  induction fuel as [|fuel IH]; intros queue acc Hw Hq.
  - destruct queue as [|[[[alo ahi] blo] bhi] queue]; simpl in *; [|lia].
    exists acc, []. split; [done|]. split; [constructor|].
    by rewrite app_nil_r.
  - destruct queue as [|[[[alo ahi] blo] bhi] queue]; simpl in *.
    { exists acc, []. split; [done|]. split; [constructor|].
      by rewrite app_nil_r. }
    apply Forall_cons in Hq as [[Hra Hrb] Hq]. simpl in Hra, Hrb.
    pose proof (find_longest_match_ok alo ahi blo bhi Hra Hrb) as Hbest.
    destruct (find_longest_match a b alo ahi blo bhi) as [[i j] k].
    destruct Hbest as (Hi1 & Hi2 & Hj1 & Hj2 & Hr). simpl in *.
    destruct (0 <? k) eqn:Ek.
    2:{ destruct (IH queue acc) as (res & ls & Hres & Hls & Hp);
          [lia|done|].
        exists res, ([] :: ls). split; [done|]. split; [|done].
        constructor; [simpl; lia|done]. }
    apply Nat.ltb_lt in Ek.
    destruct ((alo <? i) && (blo <? j)) eqn:E1;
      destruct ((i + k <? ahi) && (j + k <? bhi)) eqn:E2.
    + destruct (IH ((i + k, ahi, j + k, bhi) :: (alo, i, blo, j) :: queue)
                  (acc ++ [(i, j, k)])) as (res & ls & Hres & Hls & Hp).
      { simpl. lia. }
      { repeat constructor; simpl; try lia. done. }
      apply Forall2_cons_inv_l in Hls as (l2 & ls' & Hl2 & Hls & ->).
      apply Forall2_cons_inv_l in Hls as (l1 & ls'' & Hl1 & Hls & ->).
      simpl in Hl1, Hl2.
      exists res, ((l1 ++ (i, j, k) :: l2) :: ls''). split; [done|].
      split.
      * constructor; [|done]. simpl.
        eapply chain_app; [exact Hl1|]. simpl. done.
      * rewrite Hp. simpl. rewrite <- !app_assoc. f_equiv. simpl.
        rewrite (app_assoc l2 l1), (Permutation_app_comm l2 l1).
        rewrite <- app_assoc. apply Permutation_middle.
    + destruct (IH ((alo, i, blo, j) :: queue)
                  (acc ++ [(i, j, k)])) as (res & ls & Hres & Hls & Hp).
      { simpl. lia. }
      { repeat constructor; simpl; try lia. done. }
      apply Forall2_cons_inv_l in Hls as (l1 & ls'' & Hl1 & Hls & ->).
      simpl in Hl1.
      exists res, ((l1 ++ [(i, j, k)]) :: ls''). split; [done|].
      split.
      * constructor; [|done]. simpl.
        eapply chain_app; [exact Hl1|]. simpl. repeat split; try lia. done.
      * rewrite Hp. simpl. rewrite <- !app_assoc. f_equiv. simpl.
        apply Permutation_middle.
    + destruct (IH ((i + k, ahi, j + k, bhi) :: queue)
                  (acc ++ [(i, j, k)])) as (res & ls & Hres & Hls & Hp).
      { simpl. lia. }
      { repeat constructor; simpl; try lia. done. }
      apply Forall2_cons_inv_l in Hls as (l2 & ls' & Hl2 & Hls & ->).
      simpl in Hl2.
      exists res, (((i, j, k) :: l2) :: ls'). split; [done|].
      split.
      * constructor; [|done]. simpl. done.
      * rewrite Hp. simpl. by rewrite <- !app_assoc.
    + destruct (IH queue (acc ++ [(i, j, k)]))
        as (res & ls & Hres & Hls & Hp); [lia|done|].
      exists res, ([(i, j, k)] :: ls). split; [done|].
      split.
      * constructor; [|done]. simpl. repeat split; try lia. done.
      * rewrite Hp. simpl. by rewrite <- !app_assoc.
Qed.

Lemma runs_equal_app (i j k1 k2 : nat) :
  runs_equal a b i j k1 → runs_equal a b (i + k1) (j + k1) k2 →
  runs_equal a b i j (k1 + k2).
Proof.
  intros H1 H2 d Hd. destruct (decide (d < k1)) as [Hlt|Hge]; [by apply H1|].
  replace (i + d) with (i + k1 + (d - k1)) by lia.
  replace (j + d) with (j + k1 + (d - k1)) by lia. apply H2. lia.
Qed.

Lemma collapse_spec (la lb : nat) (blocks : list block) :
  ∀ (cur : block) (non_adjacent : list block),
    chain a b 0 0 cur.1.1 cur.1.2 non_adjacent →
    runs_equal a b cur.1.1 cur.1.2 cur.2 →
    chain a b (cur.1.1 + cur.2) (cur.1.2 + cur.2) la lb blocks →
    chain a b 0 0 (collapse blocks cur non_adjacent).2.1.1
      (collapse blocks cur non_adjacent).2.1.2
      (collapse blocks cur non_adjacent).1
    ∧ runs_equal a b (collapse blocks cur non_adjacent).2.1.1
        (collapse blocks cur non_adjacent).2.1.2
        (collapse blocks cur non_adjacent).2.2
    ∧ (collapse blocks cur non_adjacent).2.1.1
      + (collapse blocks cur non_adjacent).2.2 ≤ la
    ∧ (collapse blocks cur non_adjacent).2.1.2
      + (collapse blocks cur non_adjacent).2.2 ≤ lb.
Proof.
  induction blocks as [|[[i2 j2] k2] rest IH];
    intros [[i1 j1] k1] non_adjacent Hna Hcur Hrest; simpl in *.
  - repeat split; try done; lia.
  - destruct Hrest as (Hi & Hj & Hk & Hr & Hrest).
    destruct ((i1 + k1 =? i2) && (j1 + k1 =? j2)) eqn:E.
    + apply andb_prop in E as [E1 E2].
      apply Nat.eqb_eq in E1, E2. subst i2 j2.
      apply IH; simpl; [done| by apply runs_equal_app |].
      apply (chain_weaken _ _ _ _ _ _ _ _ _ Hrest); lia.
    + apply IH; simpl; [|done|done].
      destruct (0 <? k1) eqn:Ek1.
      * apply Nat.ltb_lt in Ek1. eapply chain_app; [exact Hna|].
        simpl. repeat split; try lia. done.
      * apply (chain_weaken _ _ _ _ _ _ _ _ _ Hna); lia.
Qed.

(** The work loop never runs out of fuel, and the list of blocks is an
    ordered chain of matching blocks closed by the sentinel. *)
Lemma get_matching_blocks_spec :
  ∃ l, get_matching_blocks a b = Some (l ++ [(length a, length b, 0)])
       ∧ chain a b 0 0 (length a) (length b) l.
Proof.
  unfold get_matching_blocks.
  destruct (matching_loop_spec (matching_fuel a)
              [(0, length a, 0, length b)] [])
    as (res & ls & -> & Hls & Hp).
  { unfold matching_fuel. simpl. lia. }
  { repeat constructor; simpl; lia. }
  apply Forall2_cons_inv_l in Hls as (l & ls' & Hl & Hls & ->).
  apply Forall2_nil_inv_l in Hls as ->. simpl in Hl, Hp.
  rewrite app_nil_r in Hp.
  assert (merge_sort block_le res = l) as ->.
  { apply (Sorted_unique block_le).
    - apply Sorted_merge_sort, _.
    - by eapply chain_Sorted.
    - by rewrite merge_sort_Permutation. }
  pose proof (collapse_spec (length a) (length b) l (0, 0, 0) []) as Hc.
  destruct (collapse l (0, 0, 0) []) as [na [[i1 j1] k1]]. simpl in Hc.
  destruct Hc as (Hna & Hr & Hi & Hj); [lia| intros d; lia | done |].
  destruct (0 <? k1) eqn:Ek1.
  - apply Nat.ltb_lt in Ek1. eexists. split; [done|].
    eapply chain_app; [exact Hna|]. simpl. repeat split; try lia. done.
  - eexists. split; [done|].
    apply (chain_weaken _ _ _ _ _ _ _ _ _ Hna); lia.
Qed.

(** *** [get_opcodes] *)

Lemma opcodes_loop_acc (blocks : list block) :
  ∀ (i j : nat) (answer : list opcode),
    opcodes_loop blocks i j answer = answer ++ opcodes_loop blocks i j [].
Proof.
  induction blocks as [|[[ai bj] size] rest IH]; intros i j answer; simpl.
  - by rewrite app_nil_r.
  - rewrite IH. symmetry. rewrite IH. symmetry.
    destruct ((i <? ai) && (j <? bj)), (i <? ai), (j <? bj), (0 <? size);
      simpl; by rewrite <- ?app_assoc.
Qed.

Lemma runs_equalb_true (i j k : nat) :
  runs_equalb a b i j k = true ↔ runs_equal a b i j k.
Proof.
  unfold runs_equalb, runs_equal. rewrite forallb_forall. split.
  - intros Hf d Hd. apply Hf, in_seq. lia.
  - intros Hr d Hd%in_seq. apply Hr. lia.
Qed.

Lemma partitionsb_true (ops : list opcode) (i j la lb : nat) :
  partitionsb i j la lb ops = true ↔ partitions i j la lb ops.
Proof.
  revert i j. induction ops as [|[[[[t i1] i2] j1] j2] ops IH]; intros i j;
    simpl.
  - rewrite andb_true_iff, !Nat.eqb_eq. done.
  - rewrite !andb_true_iff, !Nat.eqb_eq, !Nat.leb_le, IH. tauto.
Qed.

Lemma opcodes_loop_chain (la lb : nat) (l : list block) :
  ∀ i j, chain a b i j la lb l →
    partitions i j la lb (opcodes_loop (l ++ [(la, lb, 0)]) i j [])
    ∧ forallb (opcode_okb a b) (opcodes_loop (l ++ [(la, lb, 0)]) i j [])
      = true.
Proof.
  induction l as [|[[ai bj] size] l IH]; intros i j; simpl.
  - intros [Hi Hj].
    destruct (Nat.ltb_spec i la), (Nat.ltb_spec j lb); simpl;
      rewrite ?Nat.add_0_r, ?andb_true_r;
      repeat split; try lia;
      rewrite ?andb_true_iff, ?Nat.ltb_lt, ?Nat.eqb_eq; lia.
  - intros (Hi & Hj & Hk & Hr & Hc).
    destruct (IH _ _ Hc) as [IH1 IH2].
    assert (Heq : opcode_okb a b (Equal, ai, ai + size, bj, bj + size) = true).
    { simpl. rewrite !andb_true_iff, Nat.ltb_lt, Nat.eqb_eq. repeat split;
        [lia|lia|]. apply runs_equalb_true.
      by replace (ai + size - ai) with size by lia. }
    apply Nat.ltb_lt in Hk as Hk'. rewrite Hk'.
    rewrite opcodes_loop_acc.
    destruct (Nat.ltb_spec i ai), (Nat.ltb_spec j bj); simpl;
      rewrite ?app_nil_l;
      (split; [repeat split; try lia; done|]);
      simpl in Heq |- *; rewrite Heq, IH2, ?andb_true_r;
      rewrite ?andb_true_iff, ?Nat.ltb_lt, ?Nat.eqb_eq; try done; lia.
Qed.

(** Every opcode list [get_opcodes] can return is an alignment. *)
Lemma get_opcodes_spec :
  ∃ ops, get_opcodes a b = Some ops
         ∧ partitions 0 0 (length a) (length b) ops
         ∧ forallb (opcode_okb a b) ops = true.
Proof.
  unfold get_opcodes.
  destruct get_matching_blocks_spec as (l & -> & Hl).
  eexists. split; [done|]. by apply opcodes_loop_chain.
Qed.

Lemma partitions_le (ops : list opcode) (i j la lb : nat) :
  partitions i j la lb ops → i ≤ la ∧ j ≤ lb.
Proof.
  revert i j. induction ops as [|[[[[t i1] i2] j1] j2] ops IH]; intros i j;
    simpl; [lia|].
  intros (-> & -> & ? & ? & Hp). apply IH in Hp. lia.
Qed.

Lemma partitions_cover_old (ops : list opcode) (i j la lb x : nat) :
  partitions i j la lb ops →
  cover_count_old x ops = if (i <=? x) && (x <? la) then 1 else 0.
Proof.
  unfold cover_count_old.
  revert i j. induction ops as [|[[[[t i1] i2] j1] j2] ops IH]; intros i j;
    simpl.
  - intros [-> _].
    destruct (Nat.leb_spec la x), (Nat.ltb_spec x la); simpl; lia.
  - intros (-> & -> & ? & ? & Hp).
    pose proof (partitions_le _ _ _ _ _ Hp) as [??].
    specialize (IH _ _ Hp).
    destruct (Nat.leb_spec i x), (Nat.ltb_spec x i2), (Nat.ltb_spec x la),
      (Nat.leb_spec i2 x); simpl in *; lia.
Qed.

Lemma partitions_cover_new (ops : list opcode) (i j la lb y : nat) :
  partitions i j la lb ops →
  cover_count_new y ops = if (j <=? y) && (y <? lb) then 1 else 0.
Proof.
  unfold cover_count_new.
  revert i j. induction ops as [|[[[[t i1] i2] j1] j2] ops IH]; intros i j;
    simpl.
  - intros [_ ->].
    destruct (Nat.leb_spec lb y), (Nat.ltb_spec y lb); simpl; lia.
  - intros (-> & -> & ? & ? & Hp).
    pose proof (partitions_le _ _ _ _ _ Hp) as [??].
    specialize (IH _ _ Hp).
    destruct (Nat.leb_spec j y), (Nat.ltb_spec y j2), (Nat.ltb_spec y lb),
      (Nat.leb_spec j2 y); simpl in *; lia.
Qed.

End DifflibFacts.

(** *** A sequence matched with itself *)

Section DifflibIdentity.
Import Difflib.
Context {A : Type} `{Countable A}.
Variable (x : list A).

Lemma live_lookup (e : A) :
  default [] (b2j x !! e) = if is_live x e then positions e 0 x else [].
Proof. rewrite b2j_lookup. unfold is_live. by destruct (_ && _). Qed.

Lemma positions_Forall (e : A) (l : list A) (i : nat) :
  Forall (λ j, i ≤ j) (positions e i l).
Proof.
  apply Forall_forall. intros j Hj. by apply positions_spec in Hj as [? _].
Qed.

Lemma positions_sorted (e : A) (l : list A) (i : nat) :
  StronglySorted lt (positions e i l).
Proof.
  revert i. induction l as [|y l IH]; intros i; simpl; [constructor|].
  destruct (decide (e = y)); [|done].
  constructor; [done|]. apply (positions_Forall e l (S i)).
Qed.

Lemma live_run_live (j : nat) (e : A) :
  x !! j = Some e → is_live x e = true → live_run x j = S (live_prev x j).
Proof. intros He Hl. destruct j; simpl; by rewrite He, Hl. Qed.

Lemma live_run_dead (j : nat) (e : A) :
  x !! j = Some e → is_live x e = false → live_run x j = 0.
Proof. intros He Hl. destruct j; simpl; by rewrite He, Hl. Qed.

Lemma j2lenget_le (i j : nat) (m : gmap nat nat) :
  diag_len_ok x i m →
  j2lenget m j ≤ live_prev x j ∧ j2lenget m j ≤ live_prev x i.
Proof.
  intros Hm. destruct j as [|j]; simpl; [lia|].
  destruct (m !! j) as [k|] eqn:E; simpl; [|lia].
  apply Hm in E as [? (i' & -> & ?)]. simpl. lia.
Qed.

Lemma j2lenget_diag (i : nat) (m : gmap nat nat) :
  diag_len_ok x i m → diag_entry x i m → j2lenget m i = live_prev x i.
Proof.
  intros Hl He. destruct i as [|i']; simpl; [done|].
  destruct (decide (0 < live_run x i')) as [Hpos|Hz].
  - by rewrite (He i' eq_refl Hpos).
  - destruct (m !! i') as [k|] eqn:E; simpl; [|lia].
    apply Hl in E as [? _]. lia.
Qed.

Lemma scan_row_diag (i : nat) (e : A) (js : list nat)
    (j2len : gmap nat nat) :
  x !! i = Some e → is_live x e = true →
  diag_len_ok x i j2len → diag_entry x i j2len →
  ∀ (newj2len : gmap nat nat) (best : block),
    (∀ j, j ∈ js → x !! j = Some e) →
    StronglySorted lt js →
    diag_len_ok x (S i) newj2len →
    best.1.1 = best.1.2 →
    (∀ i', i' < i → live_run x i' ≤ best.2) →
    (i ∈ js ∨ (live_run x i ≤ best.2
               ∧ newj2len !! i = Some (live_run x i)
               ∧ Forall (lt i) js)) →
    diag_len_ok x (S i) (scan_row 0 (length x) i js j2len newj2len best).1
    ∧ diag_entry x (S i) (scan_row 0 (length x) i js j2len newj2len best).1
    ∧ (scan_row 0 (length x) i js j2len newj2len best).2.1.1
      = (scan_row 0 (length x) i js j2len newj2len best).2.1.2
    ∧ (∀ i', i' < S i →
         live_run x i'
         ≤ (scan_row 0 (length x) i js j2len newj2len best).2.2).
Proof.
  intros Hi Hlive Hlen Hent.
  pose proof (live_run_live i e Hi Hlive) as Hri.
  induction js as [|j js IH]; intros newj2len best Hjs Hsort Hnew Hdiag Hbest Hphase;
    simpl.
  - destruct Hphase as [Hin|(Hl & He & _)]; [by apply elem_of_nil in Hin|].
    split; [done|]. split; [|split; [done|]].
    + intros i' [= <-] _. done.
    + intros i' Hi'. destruct (decide (i' = i)) as [->|]; [done|].
      apply Hbest. lia.
  - assert (Hj : x !! j = Some e) by (apply Hjs; by left).
    pose proof (lookup_lt_Some _ _ _ Hj) as Hjn.
    pose proof (live_run_live j e Hj Hlive) as Hrj.
    destruct (Nat.leb_spec (length x) j) as [?|_]; [lia|].
    apply StronglySorted_inv in Hsort as [Hsort Hhd].
    pose proof (j2lenget_le i j j2len Hlen) as [Hk1 Hk2].
    assert (Hnew' : diag_len_ok x (S i) (<[j:=j2lenget j2len j + 1]> newj2len)).
    { intros j0 k0. destruct (decide (j0 = j)) as [->|Hne].
      - rewrite lookup_insert_eq. intros [= <-]. split; [lia|].
        exists i. split; [done|lia].
      - rewrite lookup_insert_ne by done. apply Hnew. }
    assert (Hjs' : ∀ j', j' ∈ js → x !! j' = Some e)
      by (intros; apply Hjs; by right).
    destruct (decide (j = i)) as [->|Hne].
    + (* the diagonal cell *)
      pose proof (j2lenget_diag i j2len Hlen Hent) as Hd.
      apply IH; try done.
      * by destruct (best.2 <? j2lenget j2len i + 1).
      * intros i' Hi'. destruct (Nat.ltb_spec best.2 (j2lenget j2len i + 1));
          simpl; specialize (Hbest i' Hi'); lia.
      * right. split; [|split].
        -- destruct (Nat.ltb_spec best.2 (j2lenget j2len i + 1)); simpl; lia.
        -- rewrite lookup_insert_eq. f_equal. lia.
        -- done.
    + (* off the diagonal: the best block does not move *)
      assert (Hkeep : (best.2 <? j2lenget j2len j + 1) = false).
      { apply Nat.ltb_ge.
        destruct Hphase as [Hin|(Hl & _ & Hgt)].
        - apply elem_of_cons in Hin as [?|Hin]; [congruence|].
          assert (j < i) by (by eapply Forall_forall in Hhd).
          specialize (Hbest j ltac:(done)). lia.
        - lia. }
      rewrite Hkeep. apply IH; try done.
      destruct Hphase as [Hin|(Hl & He & Hgt)].
      * left. apply elem_of_cons in Hin as [?|Hin]; [congruence|done].
      * right. split; [done|]. split.
        -- by rewrite lookup_insert_ne.
        -- by apply Forall_cons in Hgt as [_ ?].
Qed.

Lemma scan_rows_diag (m : nat) :
  ∀ (i : nat) (j2len : gmap nat nat) (best : block),
    i + m = length x →
    diag_len_ok x i j2len → diag_entry x i j2len →
    best.1.1 = best.1.2 →
    (∀ i', i' < i → live_run x i' ≤ best.2) →
    (scan_rows x x 0 (length x) (seq i m) j2len best).1.1
    = (scan_rows x x 0 (length x) (seq i m) j2len best).1.2.
Proof.
  induction m as [|m IH]; intros i j2len best Hn Hlen Hent Hdiag Hbest;
    simpl; [done|].
  destruct (lookup_lt_is_Some_2 x i ltac:(lia)) as [e He]. rewrite He.
  rewrite live_lookup. destruct (is_live x e) eqn:Hlive.
  - pose proof (scan_row_diag i e (positions e 0 x) j2len He Hlive Hlen Hent
                  ∅ best) as Hrow.
    destruct (scan_row 0 (length x) i (positions e 0 x) j2len ∅ best)
      as [newj2len best'].
    destruct Hrow as (Hlen' & Hent' & Hdiag' & Hbest'); try done.
    + intros j Hj. apply positions_spec in Hj as [_ Hj].
      by rewrite Nat.sub_0_r in Hj.
    + apply positions_sorted.
    + left. apply positions_spec. split; [lia|]. by rewrite Nat.sub_0_r.
    + apply IH; [lia|done..].
  - simpl. apply IH; [lia| | |done|].
    + done.
    + intros i' [= <-]. rewrite (live_run_dead i e He Hlive). lia.
    + intros i' Hi'. destruct (decide (i' = i)) as [->|].
      * rewrite (live_run_dead i e He Hlive). lia.
      * apply Hbest. lia.
Qed.

Lemma junk_at_false (j : nat) : junk_at x j = false.
Proof.
  unfold junk_at, isbjunk, bjunk. destruct (x !! j); [|done].
  apply bool_decide_eq_false. apply not_elem_of_empty.
Qed.

Lemma elt_eqb_refl (i : nat) : i < length x → elt_eqb x x i i = true.
Proof.
  intros Hi. destruct (lookup_lt_is_Some_2 x i Hi) as [e He].
  by apply elt_eqb_same with e.
Qed.

Lemma extend_down_diag (fuel : nat) :
  ∀ i k, i ≤ fuel → i + k ≤ length x →
    extend_down x x fuel false 0 0 (i, i, k) = (0, 0, i + k).
Proof.
  induction fuel as [|fuel IH]; intros i k Hf Hn; simpl.
  - by replace i with 0 by lia.
  - destruct i as [|i]; simpl; [done|].
    rewrite Nat.sub_0_r, junk_at_false, elt_eqb_refl by lia. simpl.
    rewrite IH by lia. f_equal. lia.
Qed.

Lemma extend_up_diag (fuel : nat) :
  ∀ k, length x ≤ k + fuel → k ≤ length x →
    extend_up x x fuel false (length x) (length x) (0, 0, k)
    = (0, 0, length x).
Proof.
  induction fuel as [|fuel IH]; intros k Hf Hn; simpl.
  - f_equal. lia.
  - destruct (Nat.ltb_spec k (length x)); simpl.
    + rewrite junk_at_false, elt_eqb_refl by lia. simpl.
      apply IH; lia.
    + f_equal. lia.
Qed.

Lemma extend_down_junk (fuel alo blo : nat) (best : block) :
  extend_down x x fuel true alo blo best = best.
Proof.
  destruct fuel; simpl; [done|]. destruct best as [[bi bj] bk].
  rewrite junk_at_false. simpl. by rewrite !andb_false_r.
Qed.

Lemma extend_up_junk (fuel ahi bhi : nat) (best : block) :
  extend_up x x fuel true ahi bhi best = best.
Proof.
  destruct fuel; simpl; [done|]. destruct best as [[bi bj] bk].
  rewrite junk_at_false. simpl. by rewrite !andb_false_r.
Qed.

(** The longest match of a sequence with itself is the whole of it. *)
Lemma find_longest_match_self :
  find_longest_match x x 0 (length x) 0 (length x) = (0, 0, length x).
Proof.
  unfold find_longest_match. rewrite extend_up_junk, extend_down_junk.
  rewrite Nat.sub_0_r.
  assert (Hdiag :
    (scan_rows x x 0 (length x) (seq 0 (length x)) ∅ (0, 0, 0)).1.1
    = (scan_rows x x 0 (length x) (seq 0 (length x)) ∅ (0, 0, 0)).1.2).
  { apply scan_rows_diag; [lia| | |done|].
    - intros j k. by rewrite lookup_empty.
    - intros i' [=].
    - intros i' Hi'. lia. }
  assert (Hok : best_ok x x 0 (length x) 0 (length x)
    (scan_rows x x 0 (length x) (seq 0 (length x)) ∅ (0, 0, 0))).
  { apply scan_rows_ok; [lia|lia| |].
    - intros j k. by rewrite lookup_empty.
    - unfold best_ok; simpl. repeat split; try lia. intros d Hd. lia. }
  destruct (scan_rows x x 0 (length x) (seq 0 (length x)) ∅ (0, 0, 0))
    as [[bi bj] bk].
  simpl in Hdiag. subst bj. destruct Hok as (_ & Hi & _). simpl in Hi.
  simpl. rewrite extend_down_diag by lia. simpl.
  apply extend_up_diag; lia.
Qed.

Lemma get_matching_blocks_self :
  0 < length x →
  get_matching_blocks x x
  = Some [(0, 0, length x); (length x, length x, 0)].
Proof.
  intros Hn. unfold get_matching_blocks, matching_fuel.
  replace (2 * length x + 2) with (S (2 * length x + 1)) by lia.
  simpl matching_loop. rewrite find_longest_match_self.
  apply Nat.ltb_lt in Hn as Hn'. rewrite Hn'. simpl.
  rewrite Nat.ltb_irrefl. simpl.
  assert (Hnil : ∀ fuel acc, matching_loop x x fuel [] acc = Some acc)
    by (by intros [|?] ?).
  rewrite Hnil. simpl. by rewrite Hn'.
Qed.

Lemma get_opcodes_self :
  0 < length x →
  get_opcodes x x = Some [(Equal, 0, length x, 0, length x)].
Proof.
  intros Hn. unfold get_opcodes. rewrite get_matching_blocks_self by done.
  simpl. apply Nat.ltb_lt in Hn as Hn'. rewrite Hn'. simpl.
  by rewrite Nat.ltb_irrefl.
Qed.

End DifflibIdentity.


(** ** The Differ *)

Section Differ.
Import Difflib Script.
Local Open Scope string_scope.

Lemma text_only_length (lines : list string) :
  length (text_only lines) = length lines.
Proof. unfold text_only, pairs_of. by rewrite !length_map. Qed.

(** C3 (diff identity law): aligning a non-empty sequence of lines with
    itself gives exactly one opcode, [equal], whose old and new ranges
    are both [[0, len(X))]. *)
Theorem align_self_single_equal (X : list string) :
  X ≠ [] →
  align X X = Some [(Equal, 0, length X, 0, length X)].
Proof.
  intros HX. unfold align.
  rewrite get_opcodes_self; rewrite text_only_length; [done|].
  destruct X; [done|simpl; lia].
Qed.

Lemma align_self_single_equal_witness :
  ["<p>A</p>" ++ PyStr.nl; "<p>B</p>"] ≠ []
  ∧ align ["<p>A</p>" ++ PyStr.nl; "<p>B</p>"]
          ["<p>A</p>" ++ PyStr.nl; "<p>B</p>"]
    = Some [(Equal, 0, 2, 0, 2)].
Proof.
  split; [discriminate|].
  apply (align_self_single_equal ["<p>A</p>" ++ PyStr.nl; "<p>B</p>"]).
  discriminate.
Defined.

(** C6 (diff coverage): for any two line sequences the matcher returns
    opcodes, and their ranges tile [[0, len(old))] and [[0, len(new))]:
    each opcode starts where the one before stopped, the first at 0,
    the last stops at the length, so that every index lies under
    exactly one opcode and no index outside does. *)
Theorem align_partitions (old_lines new_lines : list string) :
  ∃ ops,
    align old_lines new_lines = Some ops
    ∧ partitions 0 0 (length old_lines) (length new_lines) ops
    ∧ (∀ x, cover_count_old x ops = if (x <? length old_lines)%nat then 1 else 0)
    ∧ (∀ y, cover_count_new y ops = if (y <? length new_lines)%nat then 1 else 0).
Proof.
  unfold align.
  destruct (get_opcodes_spec (text_only old_lines) (text_only new_lines))
    as (ops & Hops & Hpart & _).
  rewrite !text_only_length in Hpart.
  exists ops. split; [done|]. split; [done|]. split.
  - intros x. by rewrite (partitions_cover_old _ _ _ _ _ _ Hpart).
  - intros y. by rewrite (partitions_cover_new _ _ _ _ _ _ Hpart).
Qed.

(** C5, as amended: the opcode sequence is an alignment of the two
    sequences of comparison keys (the ranges tile both sequences, every
    [equal] opcode lies over two identical runs of keys of the same
    length, [replace] over two non-empty ranges, [delete] and [insert]
    over one); minimal edit distance is not part of it. *)
Theorem align_is_alignment (old_lines new_lines : list string) :
  ∃ ops,
    align old_lines new_lines = Some ops
    ∧ alignmentb (text_only old_lines) (text_only new_lines) ops = true.
Proof.
  unfold align, alignmentb.
  destruct (get_opcodes_spec (text_only old_lines) (text_only new_lines))
    as (ops & Hops & Hpart & Hok).
  exists ops. split; [done|].
  apply andb_true_iff. split; [|done]. by apply partitionsb_true.
Qed.

(** C5, as stated, fails: for these six and five lines the matcher
    anchors on the longest block [X; Y] and puts seven lines under
    insert and delete, while the alignment through [p], [q], [r] needs
    five. *)
Lemma align_not_minimal :
  ∃ ops,
    align ["X"; "Y"; "p"; "u"; "q"; "r"] ["p"; "q"; "r"; "X"; "Y"] = Some ops
    ∧ ¬ minimal_edit (text_only ["X"; "Y"; "p"; "u"; "q"; "r"])
          (text_only ["p"; "q"; "r"; "X"; "Y"]) ops.
Proof.
  exists [(Insert, 0, 0, 0, 3); (Equal, 0, 2, 3, 5); (Delete, 2, 6, 5, 5)].
  split; [by vm_compute|].
  intros Hmin.
  specialize (Hmin [(Delete, 0, 2, 0, 0); (Equal, 2, 3, 0, 1);
                    (Delete, 3, 4, 1, 1); (Equal, 4, 6, 1, 3);
                    (Insert, 6, 6, 3, 5)]).
  assert (Hlt : (7 ≤ 5)%nat); [|lia].
  apply Hmin. by vm_compute.
Qed.

End Differ.

(** ** The Highlighter *)

Section Highlighter.
Import Difflib PyStr Script.
Local Open Scope string_scope.

Lemma string_app_cons (c : ascii) (s t : string) :
  String c s ++ t = String c (s ++ t).
Proof. reflexivity. Qed.

Lemma string_app_assoc (s t u : string) : (s ++ t) ++ u = s ++ t ++ u.
Proof.
  induction s as [|c s IH]; [done|]. by rewrite !string_app_cons, IH.
Qed.

Lemma string_app_nil_r (s : string) : s ++ "" = s.
Proof. induction s as [|c s IH]; [done|]. by rewrite string_app_cons, IH. Qed.

Lemma string_length_app (s t : string) :
  String.length (s ++ t) = (String.length s + String.length t)%nat.
Proof.
  induction s as [|c s IH]; [done|]. rewrite string_app_cons. simpl.
  by rewrite IH.
Qed.

Lemma replace_char_app (old : ascii) (new s t : string) :
  replace_char old new (s ++ t)
  = replace_char old new s ++ replace_char old new t.
Proof.
  induction s as [|c s IH]; simpl; [done|].
  rewrite IH. destruct (Ascii.eqb c old); [|done].
  by rewrite string_app_assoc.
Qed.

Lemma concat_cons (x : string) (xs : list string) :
  String.concat "" (x :: xs) = x ++ String.concat "" xs.
Proof. destruct xs; simpl; [by rewrite string_app_nil_r|done]. Qed.

Lemma has_char_app (c : ascii) (s t : string) :
  has_char c (s ++ t) = (has_char c s || has_char c t)%bool.
Proof.
  induction s as [|c' s IH]; simpl; [done|].
  rewrite IH. by rewrite orb_assoc.
Qed.

Lemma replace_char_removes (old : ascii) (new s : string) :
  has_char old new = false → has_char old (replace_char old new s) = false.
Proof.
  intros Hnew. induction s as [|c s IH]; simpl; [done|].
  destruct (Ascii.eqb c old) eqn:E.
  - by rewrite has_char_app, Hnew, IH.
  - simpl. by rewrite E, IH.
Qed.

Lemma replace_char_keeps (c old : ascii) (new s : string) :
  has_char c new = false → has_char c s = false →
  has_char c (replace_char old new s) = false.
Proof.
  intros Hnew. induction s as [|c' s IH]; simpl; [done|].
  intros [Hc Hs]%orb_false_iff.
  destruct (Ascii.eqb c' old).
  - by rewrite has_char_app, Hnew, IH.
  - simpl. by rewrite Hc, IH.
Qed.

(** After escaping, a line holds neither [<] nor [>]. *)
Lemma escape_no_lt (line : string) : has_char "<" (escape line) = false.
Proof.
  unfold escape. apply replace_char_keeps; [done|].
  by apply replace_char_removes.
Qed.

Lemma escape_no_gt (line : string) : has_char ">" (escape line) = false.
Proof. unfold escape. by apply replace_char_removes. Qed.

Lemma contains_skip (s t : string) :
  has_char "<" s = false →
  contains "<script>" (s ++ t) = contains "<script>" t.
Proof.
  induction s as [|c s IH]; [done|].
  intros [Hc Hs]%orb_false_iff.
  change (String c s ++ t) with (String c (s ++ t)).
  change (contains "<script>" (String c (s ++ t)))
    with (String.prefix "<script>" (String c (s ++ t))
          || contains "<script>" (s ++ t))%bool.
  rewrite IH by done.
  change (String.prefix "<script>" (String c (s ++ t)))
    with (if ascii_dec "<" c then String.prefix "script>" (s ++ t) else false).
  destruct (ascii_dec "<" c) as [<-|_]; [|done].
  by rewrite Ascii.eqb_refl in Hc.
Qed.

Lemma contains_wrapped (opening body closing : string) :
  (∀ rest, String.prefix "<script>" (String "<" (opening ++ rest)) = false) →
  has_char "<" opening = false →
  has_char "<" body = false →
  contains "<script>" closing = false →
  contains "<script>" (String "<" (opening ++ body ++ closing)) = false.
Proof.
  intros Hpre Hop Hbody Hclose.
  change (contains "<script>" (String "<" (opening ++ body ++ closing)))
    with (String.prefix "<script>" (String "<" (opening ++ body ++ closing))
          || contains "<script>" (opening ++ body ++ closing))%bool.
  by rewrite Hpre, !contains_skip.
Qed.

(** No wrapped line holds the text of a script start tag. *)
Lemma wrapper_no_script (t : tag) (line : string) :
  t ≠ Equal → contains "<script>" (wrapper_of t line) = false.
Proof.
  intros Ht. destruct t; [| | |done]; unfold wrapper_of.
  - change (span_modified line)
      with (String "<" (("span style=" ++ dq ++ "background-color: #faa;"
                         ++ dq ++ ">") ++ escape line ++ "</span>")).
    apply contains_wrapped; [done|done|apply escape_no_lt|done].
  - change (del_removed line)
      with (String "<" (("del style=" ++ dq ++ "background-color: #fcc;"
                         ++ dq ++ ">") ++ escape line ++ "</del>")).
    apply contains_wrapped; [done|done|apply escape_no_lt|done].
  - change (span_inserted line)
      with (String "<" (("span style=" ++ dq ++ "background-color: yellow;"
                         ++ dq ++ ">") ++ escape line ++ "</span>")).
    apply contains_wrapped; [done|done|apply escape_no_lt|done].
Qed.

Lemma append_lines_inr (pairs : list (string * string)) (wrap : string → string)
    (idxs : list nat) :
  ∀ result result',
    append_lines pairs wrap idxs result = inr result' →
    ∃ lines,
      Forall2 (λ idx line, fst <$> pairs !! idx = Some line) idxs lines
      ∧ result' = (result ++ map wrap lines)%list.
Proof.
  induction idxs as [|idx idxs IH]; intros result result'; simpl.
  - intros [= <-]. exists []. split; [constructor|]. by rewrite app_nil_r.
  - destruct (pairs !! idx) as [p|] eqn:Hp; [|done].
    intros (lines & Hl & ->)%IH. exists (p.1 :: lines). split.
    + constructor; [|done]. by rewrite Hp.
    + by rewrite <- app_assoc.
Qed.

End Highlighter.

Section HighlightTotal.
Import Difflib PyStr Script.
Local Open Scope string_scope.

Lemma append_lines_total (pairs : list (string * string))
    (wrap : string → string) (n : nat) :
  ∀ lo result, (lo + n ≤ length pairs)%nat →
    ∃ r, append_lines pairs wrap (seq lo n) result = inr r.
Proof.
  induction n as [|n IH]; intros lo result Hn; simpl; [by eexists|].
  destruct (lookup_lt_is_Some_2 pairs lo ltac:(lia)) as [p ->].
  apply IH. lia.
Qed.

Lemma render_opcodes_total (old_pairs new_pairs : list (string * string))
    (ops : list opcode) :
  ∀ i j result,
    partitions i j (length old_pairs) (length new_pairs) ops →
    ∃ r, render_opcodes old_pairs new_pairs ops result = inr r.
Proof.
  induction ops as [|[[[[t i1] i2] j1] j2] ops IH]; intros i j result;
    simpl; [by eexists|].
  intros (-> & -> & Hi & Hj & Hp).
  pose proof (partitions_le _ _ _ _ _ Hp) as [Hi2 Hj2].
  assert (Hold : ∀ wrap, ∃ r,
    append_lines old_pairs wrap (seq i (i2 - i)) result = inr r)
    by (intros; apply append_lines_total; lia).
  assert (Hnew : ∀ wrap, ∃ r,
    append_lines new_pairs wrap (seq j (j2 - j)) result = inr r)
    by (intros; apply append_lines_total; lia).
  destruct t;
    [destruct (Hnew span_modified) as [r ->]
    |destruct (Hold del_removed) as [r ->]
    |destruct (Hnew span_inserted) as [r ->]
    |destruct (Hnew (λ l, l)) as [r ->]];
    by eapply IH.
Qed.

(** On two strings [highlight_html_diff] always returns a document. *)
Lemma highlight_html_diff_total (old_html new_html : string) :
  ∃ diff_html, highlight_html_diff old_html new_html = Some (inr diff_html).
Proof.
  unfold highlight_html_diff, diff_opcodes, align.
  destruct (get_opcodes_spec (text_only (splitlines_keepends old_html))
              (text_only (splitlines_keepends new_html))) as (ops & -> & Hp & _).
  rewrite !text_only_length in Hp.
  destruct (render_opcodes_total (pairs_of (splitlines_keepends old_html))
              (pairs_of (splitlines_keepends new_html)) ops 0 0 [])
    as [r ->]; [|by eexists].
  unfold pairs_of. by rewrite !length_map.
Qed.

(** The call of [main] raises exactly when the stored markup is not a
    string. *)
Lemma call_highlight_raises (old_html : json) (new_html : string) (e : py_exn) :
  call_highlight old_html new_html = Some (inl e) ↔
  (∀ s, old_html ≠ JStr s) ∧ e = AttributeError.
Proof.
  destruct old_html as [|n|s|d]; simpl;
    try (split; [intros [= <-]; by split | intros [_ ->]; done]).
  destruct (highlight_html_diff_total s new_html) as [d ->].
  split; [done|]. intros [Hs _]. by destruct (Hs s).
Qed.

End HighlightTotal.

(** ** The document of the Highlighter *)

Section Document.
Import Difflib PyStr Script Shape.
Local Open Scope string_scope.

Lemma append_lines_range (pairs : list (string * string))
    (wrap : string → string) (n : nat) :
  ∀ lo result, (lo + n ≤ length pairs)%nat →
    append_lines pairs wrap (seq lo n) result
    = inr (result ++ map (λ p : string * string, wrap p.1)
                       (take n (drop lo pairs)))%list.
Proof.
  induction n as [|n IH]; intros lo result Hn; simpl.
  - by rewrite app_nil_r.
  - destruct (lookup_lt_is_Some_2 pairs lo ltac:(lia)) as [p Hp].
    rewrite Hp, IH by lia. rewrite (drop_S _ _ _ Hp). simpl.
    by rewrite <- app_assoc.
Qed.

Lemma render_opcodes_pieces (old_pairs new_pairs : list (string * string))
    (ops : list opcode) :
  ∀ i j result,
    partitions i j (length old_pairs) (length new_pairs) ops →
    render_opcodes old_pairs new_pairs ops result
    = inr (result ++ flat_map (pieces_of old_pairs new_pairs) ops)%list.
Proof.
  induction ops as [|[[[[t i1] i2] j1] j2] ops IH]; intros i j result;
    simpl; [by rewrite app_nil_r|].
  intros (-> & -> & Hi & Hj & Hp).
  pose proof (partitions_le _ _ _ _ _ Hp) as [Hi2 Hj2].
  destruct t; unfold wrapped_range;
    rewrite append_lines_range by lia;
    rewrite (IH _ _ _ Hp); by rewrite <- app_assoc.
Qed.

(** The opcodes of a diff, the list [result] and the document. *)
Lemma diff_result_spec (old_html new_html : string) :
  ∃ ops,
    diff_opcodes old_html new_html = Some ops
    ∧ partitions 0 0 (length (splitlines_keepends old_html))
        (length (splitlines_keepends new_html)) ops
    ∧ forallb (opcode_okb (text_only (splitlines_keepends old_html))
                 (text_only (splitlines_keepends new_html))) ops = true
    ∧ diff_result old_html new_html
      = Some (inr (flat_map (pieces_of (pairs_of (splitlines_keepends old_html))
                               (pairs_of (splitlines_keepends new_html))) ops))
    ∧ highlight_html_diff old_html new_html
      = Some (inr (meta_line
                   ++ String.concat ""
                        (flat_map (pieces_of (pairs_of (splitlines_keepends old_html))
                                     (pairs_of (splitlines_keepends new_html))) ops))).
Proof.
  unfold diff_result, highlight_html_diff, diff_opcodes, align.
  destruct (get_opcodes_spec (text_only (splitlines_keepends old_html))
              (text_only (splitlines_keepends new_html)))
    as (ops & -> & Hp & Hok).
  rewrite !text_only_length in Hp.
  exists ops. split; [done|]. split; [done|]. split; [done|].
  rewrite (render_opcodes_pieces _ _ ops 0 0 [])
    by (unfold pairs_of; by rewrite !length_map).
  split; [done|]. unfold meta_line. by rewrite string_app_assoc.
Qed.

Lemma pairs_of_fst (lines : list string) : map fst (pairs_of lines) = lines.
Proof.
  unfold pairs_of. rewrite map_map. simpl. apply map_id.
Qed.

Lemma concat_app (l1 l2 : list string) :
  String.concat "" (l1 ++ l2) = String.concat "" l1 ++ String.concat "" l2.
Proof.
  induction l1 as [|x l1 IH]; [done|].
  cbn [app]. by rewrite !concat_cons, IH, string_app_assoc.
Qed.

Lemma concat_flat_map {T : Type} (f : T → list string) (l : list T) :
  String.concat "" (flat_map f l)
  = String.concat "" (map (λ x, String.concat "" (f x)) l).
Proof.
  induction l as [|x l IH]; [done|].
  cbn [flat_map map]. by rewrite concat_app, concat_cons, IH.
Qed.

(** The two [replace] calls of the script do what the words say: every
    [<] and every [>] becomes its entity reference, and nothing else
    changes. *)
Lemma escape_as_entities (line : string) : escape line = as_entities line.
Proof.
  unfold escape. induction line as [|c line IH]; [done|].
  cbn [replace_char as_entities]. unfold entity_of.
  destruct (Ascii.eqb c "<") eqn:Hlt.
  - rewrite replace_char_app, IH. done.
  - cbn [replace_char]. rewrite IH.
    destruct (Ascii.eqb c ">"); [done|]. by rewrite string_app_cons.
Qed.

Lemma as_entities_no_bracket (line : string) :
  has_char "<" (as_entities line) = false
  ∧ has_char ">" (as_entities line) = false.
Proof.
  rewrite <- escape_as_entities. split; [apply escape_no_lt|apply escape_no_gt].
Qed.

Lemma wrapper_of_shown (t : tag) (line : string) :
  wrapper_of t line = shown t line.
Proof.
  destruct t; unfold wrapper_of, shown, span_modified, del_removed,
    span_inserted; rewrite ?escape_as_entities; reflexivity.
Qed.

Lemma lines_of_pairs (lines : list string) (lo n : nat) :
  map fst (take n (drop lo (pairs_of lines))) = take n (drop lo lines).
Proof.
  rewrite <- (pairs_of_fst lines) at 2.
  by rewrite List.skipn_map, List.firstn_map.
Qed.

Lemma pieces_of_segment (old_lines new_lines : list string) (op : opcode) :
  String.concat "" (pieces_of (pairs_of old_lines) (pairs_of new_lines) op)
  = segment old_lines new_lines op.
Proof.
  destruct op as [[[[t i1] i2] j1] j2].
  unfold segment, pieces_of, wrapped_range, lines_under. cbn [fst].
  f_equal. destruct t; rewrite <- lines_of_pairs, map_map;
    apply map_ext; intros p; apply wrapper_of_shown.
Qed.

Lemma contains_after_lt (s rest : string) :
  (∀ r, String.prefix "<script>" (String "<" (s ++ r)) = false) →
  has_char "<" s = false →
  contains "<script>" (String "<" (s ++ rest)) = contains "<script>" rest.
Proof.
  intros Hpre Hs.
  change (contains "<script>" (String "<" (s ++ rest)))
    with (String.prefix "<script>" (String "<" (s ++ rest))
          || contains "<script>" (s ++ rest))%bool.
  by rewrite Hpre, contains_skip.
Qed.

(** No script start tag begins inside a changed line as the document
    shows it. *)
Lemma contains_after_shown (t : tag) (line rest : string) :
  t ≠ Equal →
  contains "<script>" (shown t line ++ rest) = contains "<script>" rest.
Proof.
  intros Ht. destruct (as_entities_no_bracket line) as [Hlt _].
  destruct t; [| | |done]; unfold shown, marker_open, marker_close;
    rewrite !string_app_assoc.
  - change (contains "<script>"
              (String "<" (("span style=" ++ dq ++ "background-color: #faa;"
                            ++ dq ++ ">")
                           ++ as_entities line
                           ++ String "<" ("/span>" ++ rest)))
            = contains "<script>" rest).
    rewrite contains_after_lt by done. rewrite contains_skip by done.
    by rewrite contains_after_lt.
  - change (contains "<script>"
              (String "<" (("del style=" ++ dq ++ "background-color: #fcc;"
                            ++ dq ++ ">")
                           ++ as_entities line
                           ++ String "<" ("/del>" ++ rest)))
            = contains "<script>" rest).
    rewrite contains_after_lt by done. rewrite contains_skip by done.
    by rewrite contains_after_lt.
  - change (contains "<script>"
              (String "<" (("span style=" ++ dq ++ "background-color: yellow;"
                            ++ dq ++ ">")
                           ++ as_entities line
                           ++ String "<" ("/span>" ++ rest)))
            = contains "<script>" rest).
    rewrite contains_after_lt by done. rewrite contains_skip by done.
    by rewrite contains_after_lt.
Qed.

Lemma contains_after_segment (old_lines new_lines : list string)
    (op : opcode) (rest : string) :
  op.1.1.1.1 ≠ Equal →
  contains "<script>" (segment old_lines new_lines op ++ rest)
  = contains "<script>" rest.
Proof.
  intros Ht. unfold segment.
  induction (lines_under old_lines new_lines op) as [|line lines IH]; [done|].
  cbn [map]. by rewrite concat_cons, string_app_assoc, contains_after_shown.
Qed.

(** C2 (escaping safety): whatever the two texts, the opcodes of the
    diff cut the old and the new lines into ranges that follow one
    another, and the document is the meta line followed by one segment
    for each opcode, in order.  The segment of an insert, delete or replace opcode is made of the lines
    under that opcode, each between the opening and the closing marker
    of the opcode with every [<] and every [>] of the line replaced by
    its entity reference and all its other characters kept.  Such a
    segment holds no script start tag, none begins in it whatever
    follows, and between the markers there is no [<] and no [>]. *)
Theorem changed_lines_are_escaped (old_html new_html : string) :
  ∃ ops,
    diff_opcodes old_html new_html = Some ops
    ∧ partitions 0 0 (length (splitlines_keepends old_html))
        (length (splitlines_keepends new_html)) ops
    ∧ highlight_html_diff old_html new_html
      = Some (inr (meta_line
                   ++ String.concat ""
                        (map (segment (splitlines_keepends old_html)
                                (splitlines_keepends new_html)) ops)))
    ∧ Forall (λ op,
        op.1.1.1.1 ≠ Equal →
        segment (splitlines_keepends old_html) (splitlines_keepends new_html) op
        = String.concat ""
            (map (λ line, marker_open op.1.1.1.1 ++ as_entities line
                          ++ marker_close op.1.1.1.1)
               (lines_under (splitlines_keepends old_html)
                  (splitlines_keepends new_html) op))
        ∧ contains "<script>"
            (segment (splitlines_keepends old_html)
               (splitlines_keepends new_html) op) = false
        ∧ (∀ rest,
             contains "<script>"
               (segment (splitlines_keepends old_html)
                  (splitlines_keepends new_html) op ++ rest)
             = contains "<script>" rest)
        ∧ Forall (λ line, escape line = as_entities line
                          ∧ has_char "<" (as_entities line) = false
                          ∧ has_char ">" (as_entities line) = false)
            (lines_under (splitlines_keepends old_html)
               (splitlines_keepends new_html) op)) ops.
Proof.
  destruct (diff_result_spec old_html new_html)
    as (ops & Hops & Hpart & _ & _ & Hdoc).
  exists ops. split; [done|]. split; [done|]. split.
  - rewrite Hdoc. do 3 f_equal. rewrite concat_flat_map.
    f_equal. apply map_ext. intros op. apply pieces_of_segment.
  - apply Forall_forall. intros op _ Ht. split; [|split; [|split]].
    + unfold segment. f_equal. apply map_ext. intros line.
      by destruct (op.1.1.1.1).
    + rewrite <- (string_app_nil_r (segment _ _ op)).
      by rewrite contains_after_segment.
    + intros rest. by apply contains_after_segment.
    + apply Forall_forall. intros line _.
      split; [apply escape_as_entities|apply as_entities_no_bracket].
Qed.

(** A line that is a script element, inserted: the document shows it as
    text. *)
Example script_line_is_shown_as_text :
  highlight_html_diff "" "<script>alert(1)</script>"
  = Some (inr (meta_line
               ++ "<span style=" ++ dq ++ "background-color: yellow;" ++ dq
               ++ ">&lt;script&gt;alert(1)&lt;/script&gt;</span>")).
Proof. by vm_compute. Qed.

End Document.

(** ** The orchestrator *)

Section Orchestrator.
Import PyStr Script.
Local Open Scope string_scope.

Variable BeautifulSoup : string → list Soup.node.
Context {Driver : Type}.
Variable driver_get : Driver → string → Driver * page_result.
Variable session_get : string → response.
Variable image_open : string → image_result.
Variable md5_hexdigest : string → string.
Variables strftime_full strftime_date strftime_hhmm : nat → string.

Local Abbreviation process_row :=
  (process_row BeautifulSoup driver_get session_get image_open md5_hexdigest
     strftime_full strftime_date strftime_hhmm).
Local Abbreviation process_rows :=
  (process_rows BeautifulSoup driver_get session_get image_open md5_hexdigest
     strftime_full strftime_date strftime_hhmm).
Local Abbreviation new_data_of :=
  (new_data_of BeautifulSoup session_get image_open md5_hexdigest).
Local Abbreviation text_for_diff_of := (text_for_diff_of BeautifulSoup).
Local Abbreviation get_page_content_with_selenium :=
  (get_page_content_with_selenium driver_get).

Lemma get_page_attempts_fail (n : nat) :
  ∀ url (d : Driver) last,
    attempts_fail driver_get n url d →
    ∃ err, (get_page_attempts driver_get n url d last).2 = inr (None, err).
Proof.
  induction n as [|n IH]; intros url d last; simpl; [by eexists|].
  intros [[e He] Hrest]. destruct (driver_get d url) as [d' r].
  simpl in He, Hrest. subst r. by apply IH.
Qed.

(** C8: when every page load of the retry budget raises, the row ends
    with the fetch-failed message and nothing else: no file of either
    folder is written, so the Snapshot stored under the name stays as it
    was, and the loop goes on with the next row. *)
Theorem fetch_failure_leaves_store (row : string * string)
    (rows : list (string * string)) (w : world) :
  re_match_http (strip row.2) = true →
  attempts_fail driver_get MAX_RETRIES (strip row.2) (driver w) →
  ∃ w',
    process_row row w = (w', Next)
    ∧ data_folder w' = data_folder w
    ∧ diff_folder w' = diff_folder w
    ∧ log w' = (log w ++ [Printed ErrorFetchFailed (strip row.1)])%list
    ∧ process_rows (row :: rows) w = process_rows rows w'.
Proof.
  intros Hurl Hfail.
  pose proof (get_page_attempts_fail MAX_RETRIES (strip row.2) (driver w)
                None Hfail) as [err Hnone].
  assert (Hrow : ∃ d',
    process_row row w
    = (World (data_folder w) (diff_folder w) d' (clock w)
         (log w ++ [Printed ErrorFetchFailed (strip row.1)]), Next)).
  { unfold Script.process_row. rewrite Hurl. cbn [negb].
    unfold Script.get_page_content_with_selenium.
    destruct (get_page_attempts driver_get MAX_RETRIES (strip row.2)
                (driver w) None) as [d' fetched].
    simpl in Hnone. subst fetched. by exists d'. }
  destruct Hrow as [d' Hrow]. eexists. split; [exact Hrow|].
  repeat split. cbn [Script.process_rows]. by rewrite Hrow.
Qed.

(** The row of a target whose page was fetched and whose Snapshot is
    in the store, up to the comparison of the two texts. *)
Lemma process_row_fetched (row : string * string) (w : world)
    (d' : Driver) (page : string) (err : option string)
    (old : gmap string json) :
  re_match_http (strip row.2) = true →
  get_page_content_with_selenium (strip row.2) (driver w)
  = (d', inr (Some page, err)) →
  data_folder w !! (sanitize_filename (strip row.1) ++ ".json") = Some old →
  process_row row w
  = let name := strip row.1 in
    let file_name := sanitize_filename name ++ ".json" in
    let new_data :=
      new_data_of name (strip row.2) (strftime_full (clock w)) page in
    if py_ne (dict_get old "text_for_diff") (text_for_diff_of page) then
      match call_highlight (dict_get old "html_source") page with
      | None =>
          (World (data_folder w) (diff_folder w) d' (S (clock w))
             (log w ++ [Printed InfoChanged name]), OutOfFuel)
      | Some (inl e) =>
          (World (data_folder w) (diff_folder w) d' (S (clock w))
             (log w ++ [Printed InfoChanged name]), Raised e)
      | Some (inr diff_html) =>
          let file :=
            diff_filename (strftime_date (S (clock w)))
              (strftime_hhmm (S (clock w))) name in
          let content := diff_html_full name diff_html in
          (World (<[file_name := new_data]> (data_folder w))
             (<[file := content]> (diff_folder w)) d' (S (S (clock w)))
             (log w ++ [Printed InfoChanged name; DiffWritten file content;
                        Printed DiffCreated file;
                        SnapshotWritten file_name new_data]), Next)
      end
    else
      (World (<[file_name := new_data]> (data_folder w)) (diff_folder w) d'
         (S (clock w))
         (log w ++ [Printed InfoUnchanged name;
                    SnapshotWritten file_name new_data]), Next).
Proof.
  intros Hurl Hget Hold. unfold Script.process_row.
  rewrite Hurl, Hget, Hold. cbn [negb]. cbv zeta.
  destruct (py_ne _ _); [|by rewrite <- app_assoc].
  destruct (call_highlight _ _) as [[e|diff_html]|]; try done.
  by rewrite <- !app_assoc.
Qed.

(** C1, as amended: for a target whose Snapshot is in the store, equal
    texts give the unchanged message, no diff file, and the new
    Snapshot written; different texts give the changed message, then
    exactly one diff file, rendered from the stored markup and the new
    markup, then the new Snapshot.  The marker is put around whole
    lines of the markup: when the two markups are the lines A, B and
    A, C themselves, the document holds line A as it is and the
    modified marker around C. *)
Theorem snapshot_compared_then_saved (row : string * string) (w : world)
    (d' : Driver) (page : string) (err : option string)
    (old : gmap string json) (old_text old_html : string) :
  re_match_http (strip row.2) = true →
  get_page_content_with_selenium (strip row.2) (driver w)
  = (d', inr (Some page, err)) →
  data_folder w !! (sanitize_filename (strip row.1) ++ ".json") = Some old →
  old !! "text_for_diff" = Some (JStr old_text) →
  old !! "html_source" = Some (JStr old_html) →
  let name := strip row.1 in
  let file_name := sanitize_filename name ++ ".json" in
  let new_data := new_data_of name (strip row.2) (strftime_full (clock w)) page in
  (old_text = text_for_diff_of page →
     process_row row w
     = (World (<[file_name := new_data]> (data_folder w)) (diff_folder w) d'
          (S (clock w))
          (log w ++ [Printed InfoUnchanged name;
                     SnapshotWritten file_name new_data]), Next))
  ∧ (old_text ≠ text_for_diff_of page →
     ∃ diff_html,
       highlight_html_diff old_html page = Some (inr diff_html)
       ∧ process_row row w
         = (World (<[file_name := new_data]> (data_folder w))
              (<[diff_filename (strftime_date (S (clock w)))
                   (strftime_hhmm (S (clock w))) name
                 := diff_html_full name diff_html]> (diff_folder w))
              d' (S (S (clock w)))
              (log w ++ [Printed InfoChanged name;
                         DiffWritten
                           (diff_filename (strftime_date (S (clock w)))
                              (strftime_hhmm (S (clock w))) name)
                           (diff_html_full name diff_html);
                         Printed DiffCreated
                           (diff_filename (strftime_date (S (clock w)))
                              (strftime_hhmm (S (clock w))) name);
                         SnapshotWritten file_name new_data]), Next))
  ∧ highlight_html_diff ("A" ++ nl ++ "B") ("A" ++ nl ++ "C")
    = Some (inr ("<meta charset='UTF-8'>" ++ nl ++ "A" ++ nl
                 ++ span_modified "C")).
Proof.
  intros Hurl Hget Hold Htext Hhtml name file_name new_data.
  pose proof (process_row_fetched row w d' page err old Hurl Hget Hold) as Hrow.
  cbv zeta in Hrow. unfold dict_get in Hrow. rewrite Htext, Hhtml in Hrow.
  cbn [default from_option id py_ne call_highlight] in Hrow.
  split; [|split].
  - intros ->. by rewrite String.eqb_refl in Hrow.
  - intros Hne. apply String.eqb_neq in Hne. rewrite Hne in Hrow.
    cbn [negb] in Hrow.
    destruct (highlight_html_diff_total old_html page) as [diff_html Hd].
    exists diff_html. split; [done|]. by rewrite Hd in Hrow.
  - by vm_compute.
Qed.

(** C9, as amended: when the call of the Differ raises for a target
    whose text changed, which it does exactly when the stored markup is
    not a string, nothing catches the exception: the run stops at that
    row after the changed message, no diff file and no Snapshot are
    written, the stored Snapshot stays, and the rows after it are not
    processed. *)
Theorem diff_failure_stops_run (row : string * string)
    (rows : list (string * string)) (w : world)
    (d' : Driver) (page : string) (err : option string)
    (old : gmap string json) (e : py_exn) :
  re_match_http (strip row.2) = true →
  get_page_content_with_selenium (strip row.2) (driver w)
  = (d', inr (Some page, err)) →
  data_folder w !! (sanitize_filename (strip row.1) ++ ".json") = Some old →
  py_ne (dict_get old "text_for_diff") (text_for_diff_of page) = true →
  call_highlight (dict_get old "html_source") page = Some (inl e) →
  (∀ s, dict_get old "html_source" ≠ JStr s)
  ∧ e = AttributeError
  ∧ process_rows (row :: rows) w
    = (World (data_folder w) (diff_folder w) d' (S (clock w))
         (log w ++ [Printed InfoChanged (strip row.1)]), Raised e).
Proof.
  intros Hurl Hget Hold Hne Hraise.
  pose proof (process_row_fetched row w d' page err old Hurl Hget Hold) as Hrow.
  cbv zeta in Hrow. rewrite Hne, Hraise in Hrow.
  apply call_highlight_raises in Hraise as [Hs ->].
  split; [done|]. split; [done|].
  cbn [Script.process_rows]. by rewrite Hrow.
Qed.

(** C10: the two names [a/b] and [a_b] differ and have the same
    sanitized form, hence the same Snapshot file: after the rows of two
    such targets that file holds the Snapshot of the second one, and
    the folder has gained that one file only. *)
Theorem sanitized_names_collide (w : world) (url1 url2 page1 page2 : string)
    (d1 d2 : Driver) (err1 err2 : option string) :
  re_match_http (strip url1) = true →
  re_match_http (strip url2) = true →
  get_page_content_with_selenium (strip url1) (driver w)
  = (d1, inr (Some page1, err1)) →
  get_page_content_with_selenium (strip url2) d1 = (d2, inr (Some page2, err2)) →
  data_folder w !! "a_b.json" = None →
  "a/b" ≠ "a_b"
  ∧ sanitize_filename "a/b" = sanitize_filename "a_b"
  ∧ ∃ w1 w2,
      process_row ("a/b", url1) w = (w1, Next)
      ∧ data_folder w1 !! "a_b.json"
        = Some (new_data_of "a/b" (strip url1) (strftime_full (clock w)) page1)
      ∧ process_rows [("a/b", url1); ("a_b", url2)] w = (w2, Next)
      ∧ data_folder w2 !! "a_b.json"
        = Some (new_data_of "a_b" (strip url2) (strftime_full (clock w1)) page2)
      ∧ dom (data_folder w2) = dom (data_folder w) ∪ {["a_b.json"]}.
Proof.
  intros Hurl1 Hurl2 Hget1 Hget2 Hnone.
  split; [done|]. split; [done|].
  assert (Hrow1 : process_row ("a/b", url1) w
    = (World (<["a_b.json" :=
                  new_data_of "a/b" (strip url1) (strftime_full (clock w)) page1]>
                (data_folder w)) (diff_folder w) d1 (S (clock w))
         (log w ++ [Printed InfoFirstCapture "a/b";
                    SnapshotWritten "a_b.json"
                      (new_data_of "a/b" (strip url1)
                         (strftime_full (clock w)) page1)]), Next)).
  { unfold Script.process_row. cbn [fst snd].
    change (strip "a/b") with "a/b".
    change (sanitize_filename "a/b" ++ ".json") with "a_b.json".
    rewrite Hurl1, Hget1, Hnone. cbn [negb]. by rewrite <- app_assoc. }
  set (w1 := World (<["a_b.json" := _]> (data_folder w)) _ d1 _ _) in Hrow1.
  assert (Hrow2 : ∃ w2,
    process_row ("a_b", url2) w1 = (w2, Next)
    ∧ data_folder w2
      = <["a_b.json" :=
            new_data_of "a_b" (strip url2) (strftime_full (clock w1)) page2]>
          (data_folder w1)).
  { pose proof (process_row_fetched ("a_b", url2) w1 d2 page2 err2
                  (new_data_of "a/b" (strip url1) (strftime_full (clock w)) page1)
                  Hurl2 Hget2) as Hrow2.
    cbv zeta in Hrow2. cbn [fst snd] in Hrow2.
    change (strip "a_b") with "a_b" in Hrow2.
    change (sanitize_filename "a_b" ++ ".json") with "a_b.json" in Hrow2.
    rewrite Hrow2 by (subst w1; apply lookup_insert_eq).
    destruct (py_ne _ _); [|by eexists].
    unfold dict_get, Script.new_data_of.
    rewrite lookup_insert_ne by done. rewrite lookup_insert_ne by done.
    rewrite lookup_insert_ne by done. rewrite lookup_insert_eq.
    cbn [default from_option id call_highlight].
    destruct (highlight_html_diff_total page1 page2) as [diff_html ->].
    by eexists. }
  destruct Hrow2 as (w2 & Hrow2 & Hdata2).
  exists w1, w2. split; [exact Hrow1|].
  split; [subst w1; apply lookup_insert_eq|].
  split; [cbn [Script.process_rows]; by rewrite Hrow1, Hrow2|].
  rewrite Hdata2. split; [apply lookup_insert_eq|].
  subst w1. cbn [data_folder]. rewrite !dom_insert_L. set_solver.
Qed.

End Orchestrator.

(** ** The Normalizer *)

Section Normalizer.
Import PyStr Soup Script.
Local Open Scope string_scope.

(** Induction over a tree with the children of a tag at hand. *)
Section node_induction.
Variable P : node → Prop.
Hypothesis HText : ∀ s, P (Text s).
Hypothesis HTag : ∀ nm attrs cs, Forall P cs → P (Tag nm attrs cs).

Fixpoint node_children_ind (n : node) : P n :=
  match n with
  | Text s => HText s
  | Tag nm attrs cs =>
      HTag nm attrs cs
        ((fix go (l : list node) : Forall P l :=
            match l with
            | [] => List.Forall_nil P
            | x :: l' =>
                @List.Forall_cons node P x l' (node_children_ind x) (go l')
            end) cs)
  end.
End node_induction.

Lemma same_but_attrs_Tag (nm1 nm2 : string) (a1 a2 : gmap string string)
    (cs1 cs2 : list node) :
  same_but_attrs (Tag nm1 a1 cs1) (Tag nm2 a2 cs2)
  = (String.eqb nm1 nm2 && same_but_attrs_list cs1 cs2)%bool.
Proof.
  reflexivity.
Qed.

Lemma same_but_attrs_list_app (l1 l2 l1' l2' : list node) :
  same_but_attrs_list l1 l2 = true → same_but_attrs_list l1' l2' = true →
  same_but_attrs_list (l1 ++ l1') (l2 ++ l2') = true.
Proof.
  revert l2. induction l1 as [|x1 l1 IH]; intros [|x2 l2]; simpl; try done.
  intros [Hx Hl]%andb_true_iff Hl'. by rewrite Hx, IH.
Qed.

Lemma same_text_strings_in (n1 : node) :
  ∀ n2, same_but_attrs n1 n2 = true → text_strings_in n1 = text_strings_in n2.
Proof.
  induction n1 as [s1|nm1 a1 cs1 IH] using node_children_ind;
    intros [s2|nm2 a2 cs2]; try done.
  - simpl. intros ->%String.eqb_eq. done.
  - rewrite same_but_attrs_Tag.
    intros [->%String.eqb_eq Hcs]%andb_true_iff.
    cbn [text_strings_in]. destruct (is_string_container nm2); [done|].
    revert cs2 Hcs. induction IH as [|x1 cs1 Hx _ IHcs]; intros [|x2 cs2];
      simpl; try done.
    intros [Hx2 Hcs]%andb_true_iff. by rewrite (Hx x2 Hx2), (IHcs cs2 Hcs).
Qed.

Lemma same_text_strings (l1 : list node) :
  ∀ l2, same_but_attrs_list l1 l2 = true →
        flat_map text_strings_in l1 = flat_map text_strings_in l2.
Proof.
  induction l1 as [|x1 l1 IH]; intros [|x2 l2]; simpl; try done.
  intros [Hx Hl]%andb_true_iff.
  by rewrite (same_text_strings_in x1 x2 Hx), (IH l2 Hl).
Qed.

Lemma same_decompose_in (name : string) (n1 : node) :
  ∀ n2, same_but_attrs n1 n2 = true →
        same_but_attrs_list (decompose_in name n1) (decompose_in name n2)
        = true.
Proof.
  induction n1 as [s1|nm1 a1 cs1 IH] using node_children_ind;
    intros [s2|nm2 a2 cs2]; try done.
  - simpl. intros ->. done.
  - rewrite same_but_attrs_Tag.
    intros [->%String.eqb_eq Hcs]%andb_true_iff.
    cbn [decompose_in]. destruct (String.eqb nm2 name); [done|].
    cbn [same_but_attrs_list]. rewrite same_but_attrs_Tag, String.eqb_refl.
    rewrite andb_true_r. cbn [andb].
    revert cs2 Hcs. induction IH as [|x1 cs1 Hx _ IHcs]; intros [|x2 cs2];
      simpl; try done.
    intros [Hx2 Hcs]%andb_true_iff.
    apply same_but_attrs_list_app; [by apply Hx | by apply IHcs].
Qed.

Lemma same_decompose_all (name : string) (l1 : list node) :
  ∀ l2, same_but_attrs_list l1 l2 = true →
        same_but_attrs_list (decompose_all name l1) (decompose_all name l2)
        = true.
Proof.
  unfold decompose_all.
  induction l1 as [|x1 l1 IH]; intros [|x2 l2]; simpl; try done.
  intros [Hx Hl]%andb_true_iff.
  apply same_but_attrs_list_app; [by apply same_decompose_in | by apply IH].
Qed.

Lemma flat_map_nil_iff {T U : Type} (f : T → list U) (l : list T) :
  flat_map f l = [] ↔ Forall (λ x, f x = []) l.
Proof.
  induction l as [|x l IH]; simpl; [by split; [constructor|]|].
  split.
  - intros [Hx Hl]%app_eq_nil. constructor; [done|]. by apply IH.
  - intros [Hx Hl]%Forall_cons. rewrite Hx. by apply IH.
Qed.

Lemma find_all_in_decompose_same (name : string) (n : node) :
  flat_map (find_all_in name) (decompose_in name n) = [].
Proof.
  induction n as [s|nm attrs cs IH] using node_children_ind; [done|].
  cbn [decompose_in]. destruct (String.eqb nm name) eqn:E; [done|].
  cbn [flat_map find_all_in]. rewrite E, app_nil_r. cbn [app].
  induction IH as [|c cs Hc _ IHcs]; [done|].
  cbn [flat_map]. by rewrite flat_map_app, Hc, IHcs.
Qed.

Lemma find_all_decompose_same (name : string) (soup : list node) :
  find_all name (decompose_all name soup) = [].
Proof.
  unfold find_all, decompose_all. induction soup as [|n soup IH]; [done|].
  cbn [flat_map]. by rewrite flat_map_app, find_all_in_decompose_same, IH.
Qed.

Lemma find_all_in_decompose_other (name other : string) (n : node) :
  find_all_in name n = [] →
  flat_map (find_all_in name) (decompose_in other n) = [].
Proof.
  induction n as [s|nm attrs cs IH] using node_children_ind; [done|].
  cbn [find_all_in decompose_in].
  destruct (String.eqb nm name) eqn:E; [done|]. cbn [app].
  intros Hcs. destruct (String.eqb nm other); [done|].
  cbn [flat_map find_all_in]. rewrite E, app_nil_r. cbn [app].
  apply flat_map_nil_iff in Hcs.
  induction IH as [|c cs Hc _ IHcs]; [done|].
  apply Forall_cons in Hcs as [Hc0 Hcs].
  cbn [flat_map]. by rewrite flat_map_app, Hc, IHcs.
Qed.

Lemma find_all_decompose_other (name other : string) (soup : list node) :
  find_all name soup = [] → find_all name (decompose_all other soup) = [].
Proof.
  unfold find_all, decompose_all. intros Hsoup%flat_map_nil_iff.
  induction Hsoup as [|n soup Hn _ IH]; [done|].
  cbn [flat_map]. by rewrite flat_map_app, find_all_in_decompose_other, IH.
Qed.

(** Taking out the tags of a name whose strings [get_text] leaves out
    anyway does not change the strings it yields. *)
Lemma text_strings_decompose_in (name : string) (n : node) :
  is_string_container name = true →
  flat_map text_strings_in (decompose_in name n) = text_strings_in n.
Proof.
  intros Hname.
  induction n as [s|nm attrs cs IH] using node_children_ind; [done|].
  cbn [decompose_in text_strings_in].
  destruct (String.eqb nm name) eqn:E.
  - apply String.eqb_eq in E as ->. by rewrite Hname.
  - cbn [flat_map text_strings_in]. rewrite app_nil_r.
    destruct (is_string_container nm); [done|].
    induction IH as [|c cs Hc _ IHcs]; [done|].
    cbn [flat_map]. by rewrite flat_map_app, Hc, IHcs.
Qed.

Lemma text_strings_decompose_all (name : string) (soup : list node) :
  is_string_container name = true →
  flat_map text_strings_in (decompose_all name soup)
  = flat_map text_strings_in soup.
Proof.
  intros Hname. unfold decompose_all.
  induction soup as [|n soup IH]; [done|].
  cbn [flat_map]. by rewrite flat_map_app, text_strings_decompose_in, IH.
Qed.

(** C4, as amended: two pages whose parse trees differ in the
    attributes of their tags only have the same comparable text.  For
    every page, the tree the text is read from holds no [script] and no
    [style] tag, and the comparable text is made of the plain strings
    of the page, those outside [script], [style], [template], [rt] and
    [rp] elements, each as it is, white space included, with a line
    feed between one and the next. *)
Theorem attributes_do_not_change_text (BeautifulSoup : string → list node)
    (page1 page2 : string) :
  same_but_attrs_list (BeautifulSoup page1) (BeautifulSoup page2) = true →
  text_for_diff_of BeautifulSoup page1 = text_for_diff_of BeautifulSoup page2
  ∧ ∀ page,
      find_all "script" (remove_unnecessary_tags (BeautifulSoup page)) = []
      ∧ find_all "style" (remove_unnecessary_tags (BeautifulSoup page)) = []
      ∧ text_for_diff_of BeautifulSoup page
        = join nl (flat_map text_strings_in (BeautifulSoup page)).
Proof.
  intros Hsame. split.
  - unfold text_for_diff_of, get_text, remove_unnecessary_tags.
    f_equal. apply same_text_strings.
    by do 2 apply same_decompose_all.
  - intros page. unfold text_for_diff_of, get_text, remove_unnecessary_tags.
    split; [apply find_all_decompose_same|].
    split; [apply find_all_decompose_other, find_all_decompose_same|].
    by rewrite !text_strings_decompose_all.
Qed.

Lemma attributes_do_not_change_text_witness :
  text_for_diff_of html_parser
    ("<p class=" ++ dq ++ "x" ++ dq ++ ">A</p><style>p{}</style>")
  = text_for_diff_of html_parser "<p id=y>A</p><style media=print>p{}</style>"
  ∧ ∀ page,
      find_all "script" (remove_unnecessary_tags (html_parser page)) = []
      ∧ find_all "style" (remove_unnecessary_tags (html_parser page)) = []
      ∧ text_for_diff_of html_parser page
        = join nl (flat_map text_strings_in (html_parser page)).
Proof.
  apply (attributes_do_not_change_text html_parser
           ("<p class=" ++ dq ++ "x" ++ dq ++ ">A</p><style>p{}</style>")
           "<p id=y>A</p><style media=print>p{}</style>").
  vm_compute. reflexivity.
Defined.

(** The text of a page with a ruby annotation and a template: the
    strings inside [rt], [rp] and [template] are not part of it. *)
Example containers_are_left_out :
  text_for_diff_of html_parser
    "<ruby>A<rp>(</rp><rt>a</rt><rp>)</rp></ruby><template>T</template>B"
  = "A" ++ nl ++ "B".
Proof. by vm_compute. Qed.

(** C4, as stated, fails: these two pages differ in white space only and
    show the same text, yet their comparable texts differ. *)
Lemma whitespace_is_not_collapsed :
  text_for_diff_of html_parser "<p>A  B</p>" = "A  B"
  ∧ text_for_diff_of html_parser "<p>A B</p>" = "A B"
  ∧ text_for_diff_of html_parser "<p>A  B</p>"
    ≠ text_for_diff_of html_parser "<p>A B</p>".
Proof. split; [by vm_compute|]. split; [by vm_compute|]. by vm_compute. Qed.

End Normalizer.

(** ** The Image Fingerprinter *)

Section Fingerprinter.
Import PyStr Script.
Local Open Scope string_scope.

Variable session_get : string → response.
Variable image_open : string → image_result.
Variable md5_hexdigest : string → string.

Local Abbreviation image_step := (image_step session_get image_open md5_hexdigest).
Local Abbreviation compute_image_hashes :=
  (compute_image_hashes session_get image_open md5_hexdigest).

Section OneReference.
Variables (src content : string) (w h : nat).
Hypothesis Hsrc : src ≠ "".
Hypothesis Hget : session_get src = Response 200 content.
Hypothesis Hopen : image_open content = ImageSize w h.

Lemma image_step_lookup (m : gmap string string) (img : Soup.node) :
  image_step m img !! src
  = if bool_decide (Soup.get img "src" = Some src) then
      if ((w <? MIN_IMAGE_WIDTH)%nat || (h <? MIN_IMAGE_HEIGHT)%nat)%bool
      then m !! src else Some (md5_hexdigest content)
    else m !! src.
Proof.
  unfold Script.image_step.
  destruct (Soup.get img "src") as [src'|]; [|done].
  destruct (decide (src' = src)) as [->|Hne].
  - rewrite bool_decide_eq_true_2 by done.
    destruct src as [|c s]; [done|]. cbn [is_empty].
    rewrite Hget. cbn [Nat.eqb]. rewrite Hopen.
    destruct (_ || _)%bool; [done|]. by rewrite lookup_insert_eq.
  - rewrite bool_decide_eq_false_2 by congruence.
    destruct (is_empty src'); [done|].
    destruct (session_get src') as [status body|e].
    + destruct (status =? 200)%nat.
      * destruct (image_open body) as [w' h'|e].
        -- destruct (_ || _)%bool; [done|]. by rewrite lookup_insert_ne.
        -- by rewrite lookup_insert_ne.
      * by rewrite lookup_insert_ne.
    + by rewrite lookup_insert_ne.
Qed.

Lemma foldl_small (imgs : list Soup.node) :
  ((w <? MIN_IMAGE_WIDTH)%nat || (h <? MIN_IMAGE_HEIGHT)%nat)%bool = true →
  ∀ m, m !! src = None → foldl image_step m imgs !! src = None.
Proof.
  intros Hsmall. induction imgs as [|img imgs IH]; intros m Hm; simpl;
    [done|].
  apply IH. rewrite image_step_lookup, Hsmall. by destruct (bool_decide _).
Qed.

Lemma foldl_large_kept (imgs : list Soup.node) :
  ((w <? MIN_IMAGE_WIDTH)%nat || (h <? MIN_IMAGE_HEIGHT)%nat)%bool = false →
  ∀ m, m !! src = Some (md5_hexdigest content) →
       foldl image_step m imgs !! src = Some (md5_hexdigest content).
Proof.
  intros Hlarge. induction imgs as [|img imgs IH]; intros m Hm; simpl;
    [done|].
  apply IH. rewrite image_step_lookup, Hlarge. by destruct (bool_decide _).
Qed.

Lemma foldl_large (imgs : list Soup.node) (img : Soup.node) :
  ((w <? MIN_IMAGE_WIDTH)%nat || (h <? MIN_IMAGE_HEIGHT)%nat)%bool = false →
  img ∈ imgs → Soup.get img "src" = Some src →
  ∀ m, foldl image_step m imgs !! src = Some (md5_hexdigest content).
Proof.
  intros Hlarge Hin Himg m.
  apply list_elem_of_split in Hin as (l1 & l2 & ->).
  rewrite foldl_app. simpl. apply foldl_large_kept; [done|].
  rewrite image_step_lookup, Hlarge. by rewrite bool_decide_eq_true_2.
Qed.
End OneReference.

(** C7 (size filter): for an image reference of the page whose request
    answers 200 with bytes that decode to a [w] by [h] image, the
    mapping has no entry for the reference when [w < 50] or [h < 50],
    and otherwise holds the MD5 digest of the bytes. *)
Theorem small_images_are_skipped (soup : list Soup.node) (base_url : string)
    (img : Soup.node) (src content : string) (w h : nat) :
  img ∈ Soup.find_all "img" soup →
  Soup.get img "src" = Some src →
  src ≠ "" →
  session_get src = Response 200 content →
  image_open content = ImageSize w h →
  compute_image_hashes soup base_url !! src
  = if ((w <? 50)%nat || (h <? 50)%nat)%bool then None
    else Some (md5_hexdigest content).
Proof.
  intros Hin Himg Hsrc Hget Hopen. unfold Script.compute_image_hashes.
  destruct ((w <? 50)%nat || (h <? 50)%nat)%bool eqn:Hsize.
  - by apply (foldl_small src content w h).
  - by apply (foldl_large src content w h Hsrc Hget Hopen _ img).
Qed.

End Fingerprinter.


(** ** The script at work in the sample world *)

Section Runs.
Import PyStr Script Sample.
Local Open Scope string_scope.

Lemma small_images_are_skipped_witness :
  Script.compute_image_hashes session_get image_open md5_hexdigest
    two_images "http://site/" !! "small.png"
  = if ((10 <? 50)%nat || (10 <? 50)%nat)%bool then None
    else Some (md5_hexdigest "bytes of a 10x10 image").
Proof.
  apply (small_images_are_skipped session_get image_open md5_hexdigest
           two_images "http://site/"
           (Soup.Tag "img" (<["src" := "small.png"]> ∅) [])
           "small.png" "bytes of a 10x10 image" 10 10).
  - apply (list_elem_of_lookup_2 _ 0). vm_compute. reflexivity.
  - vm_compute. reflexivity.
  - discriminate.
  - vm_compute. reflexivity.
  - vm_compute. reflexivity.
Defined.

(** The size filter on the two images of the sample page: 10 by 10 is
    absent, 60 by 60 is there with its digest. *)
Example size_filter_on_two_images :
  Script.compute_image_hashes session_get image_open md5_hexdigest
    two_images "http://site/"
  = <["large.png" := md5_hexdigest "bytes of a 60x60 image"]> ∅.
Proof. by vm_compute. Qed.

Lemma fetch_failure_leaves_store_witness :
  ∃ w',
    process_row_down ("t", "http://site/ac") (world_with snapshot_ab)
    = (w', Next)
    ∧ data_folder w' = data_folder (world_with snapshot_ab)
    ∧ diff_folder w' = diff_folder (world_with snapshot_ab)
    ∧ log w'
      = (log (world_with snapshot_ab)
         ++ [Printed ErrorFetchFailed (strip "t")])%list
    ∧ process_rows_down [("t", "http://site/ac"); ("u", "http://site/u")]
        (world_with snapshot_ab)
      = process_rows_down [("u", "http://site/u")] w'.
Proof.
  apply (fetch_failure_leaves_store Soup.html_parser driver_down session_get
           image_open md5_hexdigest strftime_full strftime_date strftime_hhmm
           ("t", "http://site/ac") [("u", "http://site/u")]
           (world_with snapshot_ab)).
  - vm_compute. reflexivity.
  - simpl. repeat (split; [eexists; reflexivity|]). exact I.
Defined.

Lemma snapshot_compared_then_saved_witness :
  ∃ diff_html,
    highlight_html_diff ("A" ++ nl ++ "B") ("A" ++ nl ++ "C")
    = Some (inr diff_html)
    ∧ process_row_up ("t", "http://site/lines") (world_with snapshot_lines)
      = (World
           (<["t.json" :=
                new_data "t" "http://site/lines" (strftime_full 0)
                  ("A" ++ nl ++ "C")]>
              (data_folder (world_with snapshot_lines)))
           (<["diff-2025-01-01-0000-t.html" := diff_html_full "t" diff_html]> ∅)
           1 2
           [Printed InfoChanged "t";
            DiffWritten "diff-2025-01-01-0000-t.html"
              (diff_html_full "t" diff_html);
            Printed DiffCreated "diff-2025-01-01-0000-t.html";
            SnapshotWritten "t.json"
              (new_data "t" "http://site/lines" (strftime_full 0)
                 ("A" ++ nl ++ "C"))], Next).
Proof.
  apply (snapshot_compared_then_saved Soup.html_parser driver_up session_get
           image_open md5_hexdigest strftime_full strftime_date strftime_hhmm
           ("t", "http://site/lines") (world_with snapshot_lines)
           1 ("A" ++ nl ++ "C") None snapshot_lines
           ("A" ++ nl ++ "B") ("A" ++ nl ++ "B")).
  - vm_compute. reflexivity.
  - vm_compute. reflexivity.
  - vm_compute. reflexivity.
  - vm_compute. reflexivity.
  - vm_compute. reflexivity.
  - vm_compute. discriminate.
Defined.

(** The run of that witness: the text changed from A, B to A, C, one
    diff file is written before the Snapshot, and it marks C only. *)
Example changed_lines_run :
  log (process_rows_up [("t", "http://site/lines")]
         (world_with snapshot_lines)).1
  = [Printed InfoChanged "t";
     DiffWritten "diff-2025-01-01-0000-t.html"
       (diff_html_full "t"
          ("<meta charset='UTF-8'>" ++ nl ++ "A" ++ nl ++ span_modified "C"));
     Printed DiffCreated "diff-2025-01-01-0000-t.html";
     SnapshotWritten "t.json"
       (new_data "t" "http://site/lines" (strftime_full 0)
          ("A" ++ nl ++ "C"))].
Proof. by vm_compute. Qed.

(** C1, as stated, fails in its last part: the stored text is A, B and
    the new text is A, C, but both markups are one line, so the one
    line is what the modified marker goes around, A included. *)
Lemma modified_marker_wraps_whole_line :
  dict_get snapshot_ab "text_for_diff" = JStr ("A" ++ nl ++ "B")
  ∧ text_for_diff_of Soup.html_parser (page_of "http://site/ac")
    = "A" ++ nl ++ "C"
  ∧ log (process_rows_up [("t", "http://site/ac")] (world_with snapshot_ab)).1
    = [Printed InfoChanged "t";
       DiffWritten "diff-2025-01-01-0000-t.html"
         (diff_html_full "t"
            ("<meta charset='UTF-8'>" ++ nl
             ++ "<span style=" ++ dq ++ "background-color: #faa;" ++ dq ++ ">"
             ++ "&lt;p&gt;A&lt;/p&gt;&lt;p&gt;C&lt;/p&gt;" ++ "</span>"));
       Printed DiffCreated "diff-2025-01-01-0000-t.html";
       SnapshotWritten "t.json"
         (new_data "t" "http://site/ac" (strftime_full 0) "<p>A</p><p>C</p>")].
Proof. split; [by vm_compute|]. split; by vm_compute. Qed.

Lemma diff_failure_stops_run_witness :
  (∀ s, dict_get snapshot_null "html_source" ≠ JStr s)
  ∧ AttributeError = AttributeError
  ∧ process_rows_up [("t", "http://site/ac"); ("u", "http://site/u")]
      (world_with snapshot_null)
    = (World (data_folder (world_with snapshot_null))
         (diff_folder (world_with snapshot_null)) 1
         (S (clock (world_with snapshot_null)))
         (log (world_with snapshot_null) ++ [Printed InfoChanged (strip "t")]),
       Raised AttributeError).
Proof.
  apply (diff_failure_stops_run Soup.html_parser driver_up session_get
           image_open md5_hexdigest strftime_full strftime_date strftime_hhmm
           ("t", "http://site/ac") [("u", "http://site/u")]
           (world_with snapshot_null) 1 "<p>A</p><p>C</p>" None snapshot_null
           AttributeError).
  - vm_compute. reflexivity.
  - vm_compute. reflexivity.
  - vm_compute. reflexivity.
  - vm_compute. reflexivity.
  - vm_compute. reflexivity.
Defined.

(** C9, as stated, fails: the stored markup of [t] is a null, the text
    changed, the Differ raises, and the run ends there: the file of
    [t] still holds the old record and not the new one, and the row of
    [u] is never reached. *)
Lemma diff_failure_is_not_absorbed :
  call_highlight (dict_get snapshot_null "html_source") "<p>A</p><p>C</p>"
  = Some (inl AttributeError)
  ∧ (process_rows_up [("t", "http://site/ac"); ("u", "http://site/u")]
       (world_with snapshot_null)).2 = Raised AttributeError
  ∧ data_folder
      (process_rows_up [("t", "http://site/ac"); ("u", "http://site/u")]
         (world_with snapshot_null)).1 !! "t.json" = Some snapshot_null
  ∧ Some snapshot_null
    ≠ Some (new_data "t" "http://site/ac" (strftime_full 0) "<p>A</p><p>C</p>")
  ∧ data_folder
      (process_rows_up [("t", "http://site/ac"); ("u", "http://site/u")]
         (world_with snapshot_null)).1 !! "u.json" = None
  ∧ log (process_rows_up [("t", "http://site/ac"); ("u", "http://site/u")]
           (world_with snapshot_null)).1
    = [Printed InfoChanged "t"].
Proof.
  split; [by vm_compute|]. split; [by vm_compute|]. split; [by vm_compute|].
  split; [by vm_compute|]. split; by vm_compute.
Qed.

Lemma sanitized_names_collide_witness :
  "a/b" ≠ "a_b"
  ∧ sanitize_filename "a/b" = sanitize_filename "a_b"
  ∧ ∃ w1 w2,
      process_row_up ("a/b", "http://site/ab") world_empty = (w1, Next)
      ∧ data_folder w1 !! "a_b.json"
        = Some (new_data "a/b" (strip "http://site/ab")
                  (strftime_full (clock world_empty)) "<p>A</p><p>B</p>")
      ∧ process_rows_up [("a/b", "http://site/ab"); ("a_b", "http://site/ac")]
          world_empty = (w2, Next)
      ∧ data_folder w2 !! "a_b.json"
        = Some (new_data "a_b" (strip "http://site/ac")
                  (strftime_full (clock w1)) "<p>A</p><p>C</p>")
      ∧ dom (data_folder w2) = dom (data_folder world_empty) ∪ {["a_b.json"]}.
Proof.
  apply (sanitized_names_collide Soup.html_parser driver_up session_get
           image_open md5_hexdigest strftime_full strftime_date strftime_hhmm
           world_empty "http://site/ab" "http://site/ac"
           "<p>A</p><p>B</p>" "<p>A</p><p>C</p>" 1 2 None None).
  - vm_compute. reflexivity.
  - vm_compute. reflexivity.
  - vm_compute. reflexivity.
  - vm_compute. reflexivity.
  - vm_compute. reflexivity.
Defined.

End Runs.

(** * Further properties of the script *)

(** ** Strings *)

Section StringFacts.
Import PyStr Script Shape.
Local Open Scope string_scope.

(** *** [sanitize_filename] *)

Lemma re_sub_forbidden_allowed (s : string) :
  all_chars is_allowed (re_sub_forbidden s) = true.
Proof.
  induction s as [|c s IH]; simpl; [done|]. rewrite IH, andb_true_r.
  unfold is_allowed. destruct (is_forbidden c) eqn:E; [done|]. by rewrite E.
Qed.

Lemma re_sub_forbidden_fixed (s : string) :
  all_chars is_allowed s = true → re_sub_forbidden s = s.
Proof.
  induction s as [|c s IH]; simpl; [done|].
  intros [Hc Hs]%andb_true_iff. rewrite IH by done.
  unfold is_allowed in Hc. by destruct (is_forbidden c).
Qed.

(** X1: the name [sanitize_filename] returns is as long as the name it
    was given and holds none of the nine characters of its class. *)
Theorem sanitize_filename_is_safe (name : string) :
  String.length (sanitize_filename name) = String.length name
  ∧ all_chars is_allowed (sanitize_filename name) = true.
Proof.
  split; [|apply re_sub_forbidden_allowed].
  unfold sanitize_filename. induction name as [|c s IH]; simpl; [done|].
  by rewrite IH.
Qed.

(** X2: the names [sanitize_filename] leaves as they are are exactly
    those without a character of its class; applying it twice is
    applying it once. *)
Theorem sanitize_filename_fixed_points (name : string) :
  (sanitize_filename name = name ↔ all_chars is_allowed name = true)
  ∧ sanitize_filename (sanitize_filename name) = sanitize_filename name.
Proof.
  unfold sanitize_filename. split; [split|].
  - intros <-. apply re_sub_forbidden_allowed.
  - apply re_sub_forbidden_fixed.
  - apply re_sub_forbidden_fixed, re_sub_forbidden_allowed.
Qed.

(** *** Escaping *)

Lemma replace_char_absent (old : ascii) (new s : string) :
  has_char old s = false → replace_char old new s = s.
Proof.
  induction s as [|c s IH]; simpl; [done|].
  intros [Hc Hs]%orb_false_iff. by rewrite Hc, IH.
Qed.

(** X3: escaping goes through concatenation: a text can be escaped in
    one piece or part by part. *)
Theorem escape_app (s t : string) : escape (s ++ t) = escape s ++ escape t.
Proof. unfold escape. by rewrite !replace_char_app. Qed.

(** X4: the lines escaping leaves as they are are exactly those without
    an angle bracket. *)
Theorem escape_fixed_points (line : string) :
  escape line = line ↔ has_char "<" line = false ∧ has_char ">" line = false.
Proof.
  split.
  - intros <-. split; [apply escape_no_lt | apply escape_no_gt].
  - intros [Hlt Hgt]. unfold escape.
    rewrite (replace_char_absent "<") by done.
    by apply replace_char_absent.
Qed.

(** X5: the ampersand is not escaped, so a line that holds a [<] and the
    line that holds the entity reference in its place are escaped to the
    same text: the rendered document cannot tell them apart. *)
Theorem escape_merges_entity_and_bracket (s t : string) :
  escape (s ++ "<" ++ t) = escape (s ++ "&lt;" ++ t)
  ∧ s ++ "<" ++ t ≠ s ++ "&lt;" ++ t.
Proof.
  split; [unfold escape; by rewrite !replace_char_app|].
  intros Heq. apply (f_equal String.length) in Heq.
  rewrite !string_length_app in Heq. simpl in Heq. lia.
Qed.

(** *** [splitlines] *)

Lemma snoc_app (cur : string) (c : ascii) (s : string) :
  snoc cur c ++ s = cur ++ String c s.
Proof. unfold snoc. by rewrite string_app_assoc. Qed.

Lemma splitlines_from_concat (n : nat) :
  ∀ s cur, (String.length s ≤ n)%nat →
    String.concat "" (splitlines_from cur s) = cur ++ s.
Proof.
  induction n as [|n IH]; intros [|c s] cur Hn; simpl in Hn; try lia.
  - simpl. rewrite string_app_nil_r. by destruct cur.
  - simpl. rewrite string_app_nil_r. by destruct cur.
  - cbn [splitlines_from]. destruct (is_linebreak c).
    + destruct s as [|c' s'].
      * reflexivity.
      * destruct (_ && _)%bool.
        -- rewrite concat_cons, IH by (simpl in Hn; lia).
           rewrite string_app_nil_r || idtac.
           change (snoc (snoc cur c) c' ++ "" ++ s')
             with (snoc (snoc cur c) c' ++ s').
           by rewrite !snoc_app.
        -- rewrite concat_cons, IH by lia.
           change (snoc cur c ++ "" ++ String c' s')
             with (snoc cur c ++ String c' s').
           by rewrite snoc_app.
    + rewrite IH by lia. by rewrite snoc_app.
Qed.

Lemma snoc_not_empty (cur : string) (c : ascii) : is_empty (snoc cur c) = false.
Proof. by destruct cur. Qed.

Lemma splitlines_from_not_empty (n : nat) :
  ∀ s cur, (String.length s ≤ n)%nat →
    Forall (λ line, is_empty line = false) (splitlines_from cur s).
Proof.
  induction n as [|n IH]; intros [|c s] cur Hn; simpl in Hn; try lia.
  - simpl. destruct cur; by repeat constructor.
  - simpl. destruct cur; by repeat constructor.
  - cbn [splitlines_from]. destruct (is_linebreak c).
    + destruct s as [|c' s'].
      * repeat constructor. apply snoc_not_empty.
      * destruct (_ && _)%bool.
        -- constructor; [apply snoc_not_empty|]. apply IH. simpl in Hn. lia.
        -- constructor; [apply snoc_not_empty|]. apply IH. lia.
    + apply IH. lia.
Qed.

Lemma splitlines_concat_and_lines (s : string) :
  String.concat "" (splitlines_keepends s) = s
  ∧ Forall (λ line, is_empty line = false) (splitlines_keepends s).
Proof.
  unfold splitlines_keepends. split.
  - by rewrite (splitlines_from_concat (String.length s)).
  - by apply (splitlines_from_not_empty (String.length s)).
Qed.

(** X6: the lines [splitlines(keepends=True)] returns, put end to end,
    are the text it was given, and none of them is empty. *)
Theorem splitlines_keepends_joins_back (s : string) :
  String.concat "" (splitlines_keepends s) = s
  ∧ Forall (λ line, is_empty line = false) (splitlines_keepends s).
Proof. apply splitlines_concat_and_lines. Qed.

(** *** [extract_readable_text] *)

Lemma spaced_from_weaken (s : string) :
  spaced_from true s = true → spaced_from false s = true.
Proof.
  destruct s as [|c s]; simpl; [done|].
  destruct (isspace c); [|done]. by rewrite andb_false_r.
Qed.

Lemma sub_spaces_from_spaced (s : string) :
  ∀ in_run, spaced_from in_run (sub_spaces_from in_run s) = true.
Proof.
  induction s as [|c s IH]; intros in_run; simpl; [done|].
  destruct (isspace c) eqn:E.
  - destruct in_run; [apply IH|]. simpl. by rewrite IH.
  - simpl. by rewrite E, IH.
Qed.

Lemma lstrip_spaced (s : string) :
  spaced_from false s = true → spaced_from true (lstrip s) = true.
Proof.
  induction s as [|c s IH]; simpl; [done|].
  destruct (isspace c) eqn:E.
  - intros [_ Hs]%andb_true_iff. by apply IH, spaced_from_weaken.
  - intros Hs. simpl. by rewrite E.
Qed.

Lemma rstrip_tidy (s : string) :
  ∀ after_blank,
    spaced_from after_blank s = true → is_empty (rstrip s) = false →
    tidy_from after_blank (rstrip s) = true.
Proof.
  induction s as [|c s IH]; intros after_blank; simpl; [done|].
  destruct (isspace c) eqn:E.
  - intros [[Hc Hb]%andb_true_iff Hs]%andb_true_iff.
    destruct (is_empty (rstrip s)) eqn:Er; simpl; [done|].
    intros _. by rewrite E, Hc, Hb, IH.
  - intros Hs _. rewrite andb_false_r. simpl. rewrite E.
    destruct (is_empty (rstrip s)) eqn:Er.
    + by destruct (rstrip s).
    + by apply IH.
Qed.

(** X7: a comparison key is tidy: it has no white space at either end,
    no white space character but the blank, and no two blanks in a
    row. *)
Theorem extract_readable_text_is_tidy (line : string) :
  tidy (extract_readable_text line) = true.
Proof.
  unfold tidy, extract_readable_text, strip.
  destruct (is_empty (rstrip _)) eqn:E; [done|]. simpl.
  apply rstrip_tidy; [|done].
  apply lstrip_spaced. apply (sub_spaces_from_spaced _ false).
Qed.

End StringFacts.

(** ** The rendered document *)

Section Rendering.
Import Difflib PyStr Script Shape.
Local Open Scope string_scope.

(** [get_opcodes] when one of the two sequences is empty. *)
Lemma get_opcodes_one_empty (a b : list string) :
  a = [] ∨ b = [] →
  get_opcodes a b
  = Some (if (0 <? length a)%nat then [(Delete, 0, length a, 0, length b)]
          else if (0 <? length b)%nat then [(Insert, 0, length a, 0, length b)]
          else []).
Proof.
  intros Hempty. unfold get_opcodes, get_matching_blocks, matching_fuel.
  replace (2 * length a + 2)%nat with (S (2 * length a + 1)) by lia.
  cbn [matching_loop].
  pose proof (find_longest_match_ok a b 0 (length a) 0 (length b)
                ltac:(lia) ltac:(lia)) as (_ & Hi & _ & Hj & _).
  destruct (find_longest_match a b 0 (length a) 0 (length b)) as [[i j] k].
  simpl in Hi, Hj.
  assert (k = 0) as ->.
  { destruct Hempty as [-> | ->]; simpl in *; lia. }
  cbn [Nat.ltb Nat.leb].
  assert (Hnil : ∀ fuel acc, matching_loop a b fuel [] acc = Some acc)
    by (by intros [|?] ?).
  rewrite Hnil. cbn.
  destruct Hempty as [-> | ->]; simpl.
  - by destruct b.
  - by destruct a.
Qed.

(** X8: the diff of a text with itself is the meta line followed by the
    text as it is: nothing is marked and nothing is escaped. *)
Theorem highlight_html_diff_same (html : string) :
  highlight_html_diff html html = Some (inr (meta_line ++ html)).
Proof.
  destruct (splitlines_concat_and_lines html) as [Hjoin _].
  unfold highlight_html_diff, diff_opcodes, align.
  destruct (splitlines_keepends html) as [|line lines] eqn:Hlines.
  - simpl in Hjoin. subst html. by vm_compute.
  - rewrite get_opcodes_self by (rewrite text_only_length; simpl; lia).
    rewrite text_only_length.
    cbn [render_opcodes render_opcode].
    rewrite append_lines_range by (unfold pairs_of; rewrite length_map; lia).
    rewrite Nat.sub_0_r, drop_0, firstn_all2
      by (unfold pairs_of; rewrite length_map; lia).
    cbn [app].
    change (map (λ p : string * string, p.1) (pairs_of (line :: lines)))
      with (map fst (pairs_of (line :: lines))).
    rewrite pairs_of_fst, Hjoin. unfold meta_line.
    by rewrite string_app_assoc.
Qed.

Lemma wrapped_all (t : tag) (lines : list string) :
  map (λ p : string * string, wrapper_of t p.1)
    (take (length lines - 0) (drop 0 (pairs_of lines)))
  = map (wrapper_of t) lines.
Proof.
  rewrite Nat.sub_0_r, drop_0, firstn_all2
    by (unfold pairs_of; rewrite length_map; lia).
  rewrite <- (pairs_of_fst lines) at 2. by rewrite map_map.
Qed.

(** X9: against an empty text every line of the other text is marked:
    all inserted when the old text is empty, all removed when the new
    text is. *)
Theorem highlight_html_diff_one_side_empty (text : string) :
  highlight_html_diff "" text
  = Some (inr (meta_line
               ++ String.concat "" (map span_inserted (splitlines_keepends text))))
  ∧ highlight_html_diff text ""
    = Some (inr (meta_line
                 ++ String.concat "" (map del_removed (splitlines_keepends text)))).
Proof.
  unfold highlight_html_diff, diff_opcodes, align.
  change (splitlines_keepends "") with (@nil string).
  change (text_only []) with (@nil string).
  change (pairs_of []) with (@nil (string * string)).
  rewrite !get_opcodes_one_empty by auto.
  rewrite text_only_length. cbn [length Nat.ltb Nat.leb].
  unfold meta_line.
  destruct (splitlines_keepends text) as [|line lines] eqn:Hlines.
  - split; by rewrite string_app_assoc.
  - cbn [length Nat.ltb Nat.leb render_opcodes render_opcode].
    rewrite !append_lines_range
      by (unfold pairs_of; rewrite ?length_map; simpl; lia).
    cbn [app]. rewrite <- !Hlines.
    pose proof (wrapped_all Insert (splitlines_keepends text)) as Hins.
    pose proof (wrapped_all Delete (splitlines_keepends text)) as Hdel.
    rewrite Hlines in Hins, Hdel. cbn [length] in Hins, Hdel.
    rewrite Hlines.
    change (λ p : string * string, span_inserted p.1)
      with (λ p : string * string, wrapper_of Insert p.1).
    change (λ p : string * string, del_removed p.1)
      with (λ p : string * string, wrapper_of Delete p.1).
    rewrite Hins, Hdel. split; by rewrite string_app_assoc.
Qed.

Lemma filter_one_exists {T : Type} (f : T → bool) (l : list T) :
  length (List.filter f l) = 1 → ∃ x, x ∈ l ∧ f x = true.
Proof.
  induction l as [|x l IH]; simpl; [done|].
  destruct (f x) eqn:E.
  - intros _. exists x. split; [by left|done].
  - intros (y & Hy & Hf)%IH. exists y. split; [by right|done].
Qed.

Lemma wrapped_range_elem (t : tag) (pairs : list (string * string))
    (lo hi j : nat) (line : string) :
  (lo ≤ j)%nat → (j < hi)%nat → fst <$> pairs !! j = Some line →
  wrapper_of t line ∈ wrapped_range t pairs lo hi.
Proof.
  intros Hlo Hhi Hj. destruct (pairs !! j) as [p|] eqn:Hp; [|done].
  injection Hj as <-. unfold wrapped_range.
  apply list_elem_of_fmap. exists p. split; [done|].
  apply (list_elem_of_lookup_2 _ (j - lo)).
  rewrite lookup_take_lt by lia. rewrite lookup_drop.
  by replace (lo + (j - lo))%nat with j by lia.
Qed.

Lemma wrapped_range_inv (t : tag) (pairs : list (string * string))
    (lo hi : nat) (piece : string) :
  piece ∈ wrapped_range t pairs lo hi →
  ∃ line, piece = wrapper_of t line ∧ line ∈ map fst pairs.
Proof.
  unfold wrapped_range. intros (p & -> & Hp)%list_elem_of_fmap.
  exists p.1. split; [done|]. apply list_elem_of_fmap. exists p.
  split; [done|].
  by apply subseteq_take, subseteq_drop in Hp.
Qed.

(** X10: the list the document is joined from holds every line of the
    new text, as it is or escaped inside an inserted or modified marker,
    and holds nothing else than lines of the new text shown that way and
    lines of the old text shown as removed. *)
Theorem diff_result_shows_the_new_text (old_html new_html : string) :
  ∃ pieces,
    diff_result old_html new_html = Some (inr pieces)
    ∧ highlight_html_diff old_html new_html
      = Some (inr (meta_line ++ String.concat "" pieces))
    ∧ Forall (λ line, ∃ t, t ≠ Delete ∧ wrapper_of t line ∈ pieces)
        (splitlines_keepends new_html)
    ∧ Forall (λ piece, ∃ t line,
                piece = wrapper_of t line
                ∧ line ∈ (if bool_decide (t = Delete)
                          then splitlines_keepends old_html
                          else splitlines_keepends new_html)) pieces.
Proof.
  destruct (diff_result_spec old_html new_html)
    as (ops & Hops & Hpart & Hok & Hres & Hdoc).
  eexists. split; [exact Hres|]. split; [exact Hdoc|]. split.
  - apply Forall_forall. intros line Hline.
    apply list_elem_of_lookup in Hline as [j Hj].
    pose proof (lookup_lt_Some _ _ _ Hj) as Hlt.
    pose proof (partitions_cover_new ops 0 0 _ _ j Hpart) as Hcover.
    apply Nat.ltb_lt in Hlt as Hlt'. rewrite Hlt' in Hcover. simpl in Hcover.
    apply filter_one_exists in Hcover as (op & Hop & Hcov).
    rewrite forallb_forall in Hok.
    specialize (Hok op ltac:(by apply list_elem_of_In)).
    destruct op as [[[[t i1] i2] j1] j2]. simpl in Hcov.
    apply andb_true_iff in Hcov as [Hj1%Nat.leb_le Hj2%Nat.ltb_lt].
    exists t. split.
    + intros ->. simpl in Hok.
      apply andb_true_iff in Hok as [_ Heq%Nat.eqb_eq]. lia.
    + apply list_elem_of_In, in_flat_map. exists (t, i1, i2, j1, j2).
      split; [by apply list_elem_of_In|]. apply list_elem_of_In.
      assert (Hin : wrapper_of t line
                    ∈ wrapped_range t (pairs_of (splitlines_keepends new_html))
                        j1 j2).
      { apply (wrapped_range_elem _ _ _ _ j); [done|done|].
        unfold pairs_of. rewrite list_lookup_fmap, Hj. done. }
      destruct t; try done. simpl in Hok.
      apply andb_true_iff in Hok as [_ Heq%Nat.eqb_eq]. lia.
  - apply Forall_forall. intros piece Hpiece.
    apply list_elem_of_In, in_flat_map in Hpiece as (op & _ & Hpiece).
    apply list_elem_of_In in Hpiece.
    destruct op as [[[[t i1] i2] j1] j2].
    destruct t; simpl in Hpiece;
      apply wrapped_range_inv in Hpiece as (line & -> & Hline);
      rewrite pairs_of_fst in Hline; eexists _, line; split; done.
Qed.

End Rendering.

(** ** What [remove_unnecessary_tags] leaves *)

Section Removal.
Import PyStr Soup Script Shape.
Local Open Scope string_scope.

Lemma decompose_in_absent (name : string) (n : node) :
  find_all_in name n = [] → decompose_in name n = [n].
Proof.
  induction n as [s|nm attrs cs IH] using node_children_ind; [done|].
  cbn [find_all_in decompose_in].
  destruct (String.eqb nm name) eqn:E; [done|]. cbn [app].
  intros Hcs%flat_map_nil_iff. do 2 f_equal.
  induction IH as [|c cs Hc _ IHcs]; [done|].
  apply Forall_cons in Hcs as [Hc0 Hcs].
  cbn [flat_map]. by rewrite Hc, IHcs.
Qed.

Lemma decompose_all_absent (name : string) (soup : list node) :
  find_all name soup = [] → decompose_all name soup = soup.
Proof.
  unfold find_all, decompose_all. intros Hsoup%flat_map_nil_iff.
  induction Hsoup as [|n soup Hn _ IH]; [done|].
  cbn [flat_map]. by rewrite decompose_in_absent, IH.
Qed.

Lemma find_all_in_head (name : string) (n : node) :
  decompose_in name n = [n] → find_all_in name n = [].
Proof.
  induction n as [s|nm attrs cs IH] using node_children_ind; [done|].
  cbn [find_all_in decompose_in].
  destruct (String.eqb nm name) eqn:E; [done|]. cbn [app].
  intros [= Hcs]. rewrite <- Hcs.
  clear Hcs IH. induction cs as [|c cs IHcs]; [done|].
  cbn [flat_map]. by rewrite flat_map_app, find_all_in_decompose_same, IHcs.
Qed.

(** X11: after [remove_unnecessary_tags] the tree holds no [script] tag
    and no [style] tag, at any depth. *)
Theorem remove_unnecessary_tags_removes_all (soup : list node) :
  find_all "script" (remove_unnecessary_tags soup) = []
  ∧ find_all "style" (remove_unnecessary_tags soup) = [].
Proof.
  unfold remove_unnecessary_tags. split.
  - apply find_all_decompose_same.
  - apply find_all_decompose_other, find_all_decompose_same.
Qed.

(** X12: a tree without [script] and [style] tags is left as it is, so
    removing twice is removing once. *)
Theorem remove_unnecessary_tags_keeps_clean_trees (soup : list node) :
  find_all "script" soup = [] → find_all "style" soup = [] →
  remove_unnecessary_tags soup = soup
  ∧ remove_unnecessary_tags (remove_unnecessary_tags soup) = soup.
Proof.
  intros Hscript Hstyle. unfold remove_unnecessary_tags.
  rewrite (decompose_all_absent "style" soup) by done.
  rewrite (decompose_all_absent "script" soup) by done.
  rewrite (decompose_all_absent "style" soup) by done.
  by rewrite (decompose_all_absent "script" soup).
Qed.

Lemma remove_unnecessary_tags_keeps_clean_trees_witness :
  remove_unnecessary_tags (html_parser "<p>A <b>B</b></p>")
  = html_parser "<p>A <b>B</b></p>"
  ∧ remove_unnecessary_tags
      (remove_unnecessary_tags (html_parser "<p>A <b>B</b></p>"))
    = html_parser "<p>A <b>B</b></p>".
Proof.
  apply (remove_unnecessary_tags_keeps_clean_trees
           (html_parser "<p>A <b>B</b></p>")).
  - vm_compute. reflexivity.
  - vm_compute. reflexivity.
Defined.

(** X13: removing is idempotent on every tree. *)
Theorem remove_unnecessary_tags_idempotent (soup : list node) :
  remove_unnecessary_tags (remove_unnecessary_tags soup)
  = remove_unnecessary_tags soup.
Proof.
  unfold remove_unnecessary_tags.
  rewrite (decompose_all_absent "style")
    by apply find_all_decompose_other, find_all_decompose_same.
  by rewrite (decompose_all_absent "script") by apply find_all_decompose_same.
Qed.

Lemma strings_in_decompose (name : string) (n : node) :
  flat_map strings_in (decompose_in name n) `sublist_of` strings_in n.
Proof.
  induction n as [s|nm attrs cs IH] using node_children_ind.
  - simpl. done.
  - cbn [decompose_in]. destruct (String.eqb nm name).
    + apply sublist_nil_l.
    + cbn [flat_map strings_in]. rewrite app_nil_r.
      induction IH as [|c cs Hc _ IHcs]; [done|].
      cbn [flat_map]. rewrite flat_map_app. by apply sublist_app.
Qed.

Lemma strings_decompose_all (name : string) (soup : list node) :
  flat_map strings_in (decompose_all name soup)
  `sublist_of` flat_map strings_in soup.
Proof.
  unfold decompose_all. induction soup as [|n soup IH]; [done|].
  cbn [flat_map]. rewrite flat_map_app.
  apply sublist_app; [apply strings_in_decompose | done].
Qed.

(** X14: the text nodes that go into the comparable text are text nodes
    of the page, in the order of the page: removing tags neither adds
    nor reorders text. *)
Theorem remove_unnecessary_tags_keeps_order (soup : list node) :
  flat_map strings_in (remove_unnecessary_tags soup)
  `sublist_of` flat_map strings_in soup.
Proof.
  unfold remove_unnecessary_tags.
  etrans; [apply strings_decompose_all|apply strings_decompose_all].
Qed.

End Removal.

(** ** What [compute_image_hashes] records *)

Section Recorded.
Import PyStr Script Shape.
Local Open Scope string_scope.

Variable session_get : string → response.
Variable image_open : string → image_result.
Variable md5_hexdigest : string → string.

Local Abbreviation image_step := (image_step session_get image_open md5_hexdigest).
Local Abbreviation compute_image_hashes :=
  (compute_image_hashes session_get image_open md5_hexdigest).

(** One pass of the loop either leaves the dictionary as it is or sets
    the entry of the image's own reference. *)
Lemma image_step_cases (m : gmap string string) (img : Soup.node) :
  image_step m img = m
  ∨ ∃ src v, Soup.get img "src" = Some src ∧ is_empty src = false
             ∧ image_step m img = <[src := v]> m.
Proof.
  unfold Script.image_step.
  destruct (Soup.get img "src") as [src|]; [|by left].
  destruct (is_empty src) eqn:E; [by left|].
  destruct (session_get src) as [code content|e].
  - destruct (code =? 200)%nat.
    + destruct (image_open content) as [w h|e].
      * destruct (_ || _)%bool; [by left|]. right. by eexists _, _.
      * right. by eexists _, _.
    + right. by eexists _, _.
  - right. by eexists _, _.
Qed.

Lemma foldl_image_step_keys (imgs : list Soup.node) :
  ∀ m src,
    is_Some (foldl image_step m imgs !! src) →
    is_Some (m !! src)
    ∨ ∃ img, img ∈ imgs ∧ Soup.get img "src" = Some src
             ∧ is_empty src = false.
Proof.
  induction imgs as [|img imgs IH]; intros m src; simpl; [by left|].
  intros [Hm|(img' & Hin & Hget & Hne)]%IH.
  - destruct (image_step_cases m img) as [Heq|(src' & v & Hget & Hne & Heq)];
      rewrite Heq in Hm; [by left|].
    destruct (decide (src' = src)) as [->|Hdiff].
    + right. exists img. split; [by left|done].
    + rewrite lookup_insert_ne in Hm by done. by left.
  - right. exists img'. split; [by right|done].
Qed.

(** X15: every key of the dictionary [compute_image_hashes] returns is
    the non-empty [src] of an [img] tag of the page: an image without a
    [src], or with an empty one, leaves no entry. *)
Theorem image_hash_keys_are_sources (soup : list Soup.node)
    (base_url : string) :
  map_Forall (λ src _, ∃ img, img ∈ Soup.find_all "img" soup
                              ∧ Soup.get img "src" = Some src
                              ∧ src ≠ "")
    (compute_image_hashes soup base_url).
Proof.
  intros src v Hv. unfold Script.compute_image_hashes in Hv.
  destruct (foldl_image_step_keys (Soup.find_all "img" soup) ∅ src)
    as [Hm|(img & Hin & Hget & Hne)]; [by eexists| |].
  - rewrite lookup_empty in Hm. by destruct Hm.
  - exists img. split; [done|]. split; [done|]. by intros ->.
Qed.

Local Abbreviation recorded_entry :=
  (recorded_entry session_get image_open md5_hexdigest).

Lemma recorded_entry_twice (src : string) (before : option string) :
  recorded_entry src (recorded_entry src before) = recorded_entry src before.
Proof.
  unfold Shape.recorded_entry.
  destruct (session_get src) as [code content|e]; [|done].
  destruct (code =? 200)%nat; [|done].
  destruct (image_open content) as [w h|e]; [|done].
  by destruct (_ || _)%bool.
Qed.

Lemma image_step_entry (m : gmap string string) (img : Soup.node)
    (src : string) :
  src ≠ "" →
  image_step m img !! src
  = if bool_decide (Soup.get img "src" = Some src)
    then recorded_entry src (m !! src) else m !! src.
Proof.
  intros Hsrc. unfold Script.image_step, Shape.recorded_entry.
  destruct (Soup.get img "src") as [src'|]; [|done].
  destruct (decide (src' = src)) as [->|Hne].
  - rewrite bool_decide_eq_true_2 by done.
    destruct src as [|c s]; [done|]. cbn [is_empty].
    destruct (session_get (String c s)) as [code content|e].
    + destruct (code =? 200)%nat.
      * destruct (image_open content) as [w h|e].
        -- destruct (_ || _)%bool; [done|]. by rewrite lookup_insert_eq.
        -- by rewrite lookup_insert_eq.
      * by rewrite lookup_insert_eq.
    + by rewrite lookup_insert_eq.
  - rewrite bool_decide_eq_false_2 by congruence.
    destruct (is_empty src'); [done|].
    destruct (session_get src') as [code content|e].
    + destruct (code =? 200)%nat.
      * destruct (image_open content) as [w h|e].
        -- destruct (_ || _)%bool; [done|]. by rewrite lookup_insert_ne.
        -- by rewrite lookup_insert_ne.
      * by rewrite lookup_insert_ne.
    + by rewrite lookup_insert_ne.
Qed.

Lemma foldl_image_step_settled (src : string) (imgs : list Soup.node) :
  src ≠ "" →
  ∀ m before,
    m !! src = recorded_entry src before →
    foldl image_step m imgs !! src = recorded_entry src before.
Proof.
  intros Hsrc. induction imgs as [|x imgs IH]; intros m before Hm; [done|].
  cbn [foldl]. apply IH. rewrite image_step_entry by done.
  destruct (bool_decide _); [|done].
  by rewrite Hm, recorded_entry_twice.
Qed.

Lemma foldl_image_step_either (src : string) (imgs : list Soup.node) :
  src ≠ "" →
  ∀ m,
    foldl image_step m imgs !! src = m !! src
    ∨ foldl image_step m imgs !! src = recorded_entry src (m !! src).
Proof.
  intros Hsrc. induction imgs as [|x imgs IH]; intros m; [by left|].
  cbn [foldl]. pose proof (image_step_entry m x src Hsrc) as Hstep.
  destruct (bool_decide _).
  - right. by apply foldl_image_step_settled.
  - destruct (IH (image_step m x)) as [H|H]; rewrite H, Hstep; [by left|by right].
Qed.

(** X16: what [compute_image_hashes] holds for the reference of an
    image of the page depends on that reference alone: the text of the
    failure when the request raises, answers another status than 200 or
    answers bytes that do not decode; nothing when the picture is under
    50 pixels on a side; the digest of the bytes otherwise. *)
Theorem image_entry_by_reference (soup : list Soup.node)
    (base_url : string) (img : Soup.node) (src : string) :
  img ∈ Soup.find_all "img" soup →
  Soup.get img "src" = Some src →
  src ≠ "" →
  compute_image_hashes soup base_url !! src
  = match session_get src with
    | RequestException e => Some ("Error:" ++ e)
    | Response code content =>
        if (code =? 200)%nat then
          match image_open content with
          | ImageError e => Some ("ErrorImage:" ++ e)
          | ImageSize w h =>
              if ((w <? 50)%nat || (h <? 50)%nat)%bool then None
              else Some (md5_hexdigest content)
          end
        else Some ("ErrorStatus:" ++ pretty code)
    end.
Proof.
  intros Hin Hget Hsrc. unfold Script.compute_image_hashes.
  apply list_elem_of_split in Hin as (l1 & l2 & ->).
  rewrite foldl_app. cbn [foldl].
  transitivity (recorded_entry src None); [|done].
  apply foldl_image_step_settled; [done|].
  rewrite image_step_entry, bool_decide_eq_true_2 by done.
  destruct (foldl_image_step_either src l1 Hsrc ∅) as [H|H]; rewrite H.
  - by rewrite lookup_empty.
  - by rewrite lookup_empty, recorded_entry_twice.
Qed.

End Recorded.

Lemma image_entry_by_reference_witness :
  Script.compute_image_hashes Sample.session_get Sample.image_open
    Sample.md5_hexdigest
    (Soup.html_parser "<img src=gone.png><p>x</p><img src=large.png>")
    "http://site/" !! "gone.png"
  = Some "ErrorStatus:404".
Proof.
  apply (image_entry_by_reference Sample.session_get Sample.image_open
           Sample.md5_hexdigest
           (Soup.html_parser "<img src=gone.png><p>x</p><img src=large.png>")
           "http://site/"
           (Soup.Tag "img" (<["src" := "gone.png"]> ∅) []) "gone.png").
  - apply (list_elem_of_lookup_2 _ 0). vm_compute. reflexivity.
  - vm_compute. reflexivity.
  - discriminate.
Defined.

(** ** The retries of [get_page_content_with_selenium] *)

Section Retries.
Import PyStr Script Shape.
Local Open Scope string_scope.

Context {Driver : Type}.
Variable driver_get : Driver → string → Driver * page_result.

Local Abbreviation get_page_attempts := (get_page_attempts driver_get).
Local Abbreviation get_page_content_with_selenium :=
  (get_page_content_with_selenium driver_get).
Local Abbreviation attempts_fail := (attempts_fail driver_get).
Local Abbreviation driver_after := (driver_after driver_get).

Lemma get_page_attempts_first_success (k : nat) :
  ∀ n url (d d' : Driver) last html,
    (k < n)%nat →
    attempts_fail k url d →
    driver_get (driver_after k url d) url = (d', PageSource html) →
    get_page_attempts n url d last = (d', inr (Some html, None)).
Proof.
  induction k as [|k IH]; intros n url d d' last html Hlt Hfail Hget;
    (destruct n as [|n]; [lia|]); cbn [Script.get_page_attempts].
  - cbn [Shape.driver_after] in Hget. by rewrite Hget.
  - cbn [Script.attempts_fail] in Hfail. destruct Hfail as [[e He] Hrest].
    cbn [Shape.driver_after] in Hget.
    destruct (driver_get d url) as [d1 r]. cbn [fst snd] in *. subst r.
    apply IH; [lia|done|done].
Qed.

Lemma get_page_attempts_all_fail (n : nat) :
  ∀ url (d : Driver) last,
    attempts_fail (S n) url d →
    ∃ e, (driver_get (driver_after n url d) url).2 = WebDriverException e
         ∧ get_page_attempts (S n) url d last
           = (driver_after (S n) url d, inr (None, Some e)).
Proof.
  induction n as [|n IH]; intros url d last Hfail.
  - destruct Hfail as [[e He] _]. exists e. split; [done|].
    cbn [Script.get_page_attempts Shape.driver_after].
    destruct (driver_get d url) as [d1 r]. cbn [fst snd] in *. by subst r.
  - destruct Hfail as [[e0 He0] Hrest].
    change (get_page_attempts (S (S n)) url d last)
      with (match driver_get d url with
            | (driver', PageSource html) => (driver', inr (Some html, None))
            | (driver', WebDriverException e) =>
                get_page_attempts (S n) url driver' (Some e)
            | (driver', LoadRaised e) => (driver', inl (Uncaught e))
            end).
    change (driver_after (S (S n)) url d)
      with (driver_after (S n) url (driver_get d url).1).
    change (driver_after (S n) url d)
      with (driver_after n url (driver_get d url).1).
    destruct (driver_get d url) as [d1 r]. cbn [fst snd] in *. subst r.
    by apply IH.
Qed.

(** The loads the loop makes before it is left, and the way it is
    left. *)
Lemma get_page_attempts_shape (n : nat) :
  ∀ url (d : Driver) last,
    ∃ k, (k ≤ n)%nat
         ∧ attempts_fail k url d
         ∧ ((k = n
             ∧ ∃ e, get_page_attempts n url d last
                    = (driver_after n url d, inr (None, Some e)))
            ∨ ((k < n)%nat
               ∧ ∃ html,
                   (driver_get (driver_after k url d) url).2 = PageSource html
                   ∧ get_page_attempts n url d last
                     = (driver_after (S k) url d, inr (Some html, None)))
            ∨ ((k < n)%nat
               ∧ ∃ e,
                   (driver_get (driver_after k url d) url).2 = LoadRaised e
                   ∧ get_page_attempts n url d last
                     = (driver_after (S k) url d, inl (Uncaught e)))).
Proof.
  induction n as [|n IH]; intros url d last.
  - exists 0. split; [done|]. split; [done|]. left. split; [done|].
    by eexists.
  - cbn [Script.get_page_attempts].
    destruct (driver_get d url) as [d1 r] eqn:Hget. destruct r as [html|e|e].
    + exists 0. split; [lia|]. split; [done|]. right. left.
      split; [lia|]. exists html. cbn [Shape.driver_after]. by rewrite Hget.
    + destruct (IH url d1 (Some e)) as (k & Hk & Hfail & Hcase).
      exists (S k). split; [lia|]. split.
      { cbn [Script.attempts_fail]. rewrite Hget. split; [by exists e|done]. }
      cbn [Shape.driver_after]. rewrite Hget. cbn [fst].
      destruct Hcase
        as [[-> [e' Hr]]|[(Hlt & html & Hh & Hr)|(Hlt & e' & He & Hr)]].
      * left. split; [done|]. by exists e'.
      * right. left. split; [lia|]. by exists html.
      * right. right. split; [lia|]. by exists e'.
    + exists 0. split; [lia|]. split; [done|]. right. right.
      split; [lia|]. exists e. cbn [Shape.driver_after]. by rewrite Hget.
Qed.

(** X17: the page returned is that of the first load that does not
    raise, as long as it is one of the first five; the loads before it
    are the only ones made, and no error text goes with the page. *)
Theorem first_successful_load_is_returned (k : nat) (url : string)
    (d d' : Driver) (html : string) :
  (k < MAX_RETRIES)%nat →
  attempts_fail k url d →
  driver_get (driver_after k url d) url = (d', PageSource html) →
  get_page_content_with_selenium url d = (d', inr (Some html, None)).
Proof.
  intros Hk Hfail Hget. unfold Script.get_page_content_with_selenium.
  by apply (get_page_attempts_first_success k).
Qed.

(** X18: when the five loads all raise, the function has made exactly
    five loads and returns no page, with the text of the exception of
    the fifth load. *)
Theorem last_exception_is_reported (url : string) (d : Driver) :
  attempts_fail MAX_RETRIES url d →
  ∃ e,
    (driver_get (driver_after 4 url d) url).2 = WebDriverException e
    ∧ get_page_content_with_selenium url d
      = (driver_after 5 url d, inr (None, Some e)).
Proof.
  intros Hfail. unfold Script.get_page_content_with_selenium.
  by apply (get_page_attempts_all_fail 4).
Qed.

(** X19: the function goes on loading as long as the loads raise a
    [WebDriverException], at most five times, and is left at the first
    load that does otherwise.  So there is a number [k] of loads that
    raised a [WebDriverException], and either [k] is five and the pair
    returned has no page and an error text, or [k] is less, the next
    load is the last one made, and the function returns its page with
    no error text, or lets through the exception of another class that
    this load raised. *)
Theorem fetch_stops_at_first_other_outcome (url : string) (d : Driver) :
  ∃ k, (k ≤ MAX_RETRIES)%nat
       ∧ attempts_fail k url d
       ∧ ((k = MAX_RETRIES
           ∧ ∃ e, get_page_content_with_selenium url d
                  = (driver_after MAX_RETRIES url d, inr (None, Some e)))
          ∨ ((k < MAX_RETRIES)%nat
             ∧ ∃ html,
                 (driver_get (driver_after k url d) url).2 = PageSource html
                 ∧ get_page_content_with_selenium url d
                   = (driver_after (S k) url d, inr (Some html, None)))
          ∨ ((k < MAX_RETRIES)%nat
             ∧ ∃ e,
                 (driver_get (driver_after k url d) url).2 = LoadRaised e
                 ∧ get_page_content_with_selenium url d
                   = (driver_after (S k) url d, inl (Uncaught e)))).
Proof.
  unfold Script.get_page_content_with_selenium.
  destruct (get_page_attempts_shape MAX_RETRIES url d None)
    as (k & Hk & Hfail & Hcase).
  exists k. split; [done|]. split; [done|].
  destruct Hcase as [Hcase|[Hcase|Hcase]].
  - by left.
  - right. by left.
  - right. by right.
Qed.

End Retries.

Lemma first_successful_load_is_returned_witness :
  Script.get_page_content_with_selenium Sample.driver_flaky "http://site/ab" 0
  = (3, inr (Some "<p>A</p><p>B</p>", None)).
Proof.
  apply (first_successful_load_is_returned Sample.driver_flaky 2
           "http://site/ab" 0 3 "<p>A</p><p>B</p>").
  - unfold Script.MAX_RETRIES. lia.
  - simpl. split; [by eexists|]. split; [by eexists|done].
  - vm_compute. reflexivity.
Defined.

Lemma last_exception_is_reported_witness :
  ∃ e,
    (Sample.driver_down
       (Shape.driver_after Sample.driver_down 4 "http://site/ab" 0)
       "http://site/ab").2 = Script.WebDriverException e
    ∧ Script.get_page_content_with_selenium Sample.driver_down
        "http://site/ab" 0
      = (Shape.driver_after Sample.driver_down 5 "http://site/ab" 0,
         inr (None, Some e)).
Proof.
  apply (last_exception_is_reported Sample.driver_down "http://site/ab" 0).
  simpl. repeat split; by eexists.
Defined.

(** ** The loop over the rows *)

Section Loop.
Import PyStr Script Shape.
Local Open Scope string_scope.

Variable BeautifulSoup : string → list Soup.node.
Context {Driver : Type}.
Variable driver_get : Driver → string → Driver * page_result.
Variable session_get : string → response.
Variable image_open : string → image_result.
Variable md5_hexdigest : string → string.
Variables strftime_full strftime_date strftime_hhmm : nat → string.

Local Abbreviation process_row :=
  (process_row BeautifulSoup driver_get session_get image_open md5_hexdigest
     strftime_full strftime_date strftime_hhmm).
Local Abbreviation process_rows :=
  (process_rows BeautifulSoup driver_get session_get image_open md5_hexdigest
     strftime_full strftime_date strftime_hhmm).
Local Abbreviation new_data_of :=
  (new_data_of BeautifulSoup session_get image_open md5_hexdigest).
Local Abbreviation text_for_diff_of := (text_for_diff_of BeautifulSoup).
Local Abbreviation get_page_content_with_selenium :=
  (get_page_content_with_selenium driver_get).
Local Abbreviation file_of :=
  (λ row : string * string, sanitize_filename (strip row.1) ++ ".json").

Lemma call_highlight_returns (old_html : json) (new_html : string) :
  call_highlight old_html new_html ≠ None.
Proof.
  destruct old_html as [|n|s|d]; simpl; try done.
  by destruct (highlight_html_diff_total s new_html) as [d ->].
Qed.

Lemma new_data_of_text (name url retrieved_at page : string) :
  dict_get (new_data_of name url retrieved_at page) "text_for_diff"
  = JStr (text_for_diff_of page).
Proof.
  unfold dict_get, Script.new_data_of.
  rewrite !lookup_insert_ne by done. by rewrite lookup_insert_eq.
Qed.


(** The ways the body of the loop ends for one row, and what it has
    touched by then. *)
Lemma process_row_cases (row : string * string) (w : world) :
  ∃ w' ending,
    process_row row w = (w', ending)
    ∧ log w `prefix_of` log w'
    ∧ (clock w ≤ clock w')%nat
    ∧ dom (diff_folder w) ⊆ dom (diff_folder w')
    ∧ ((ending = Next
        ∧ (data_folder w' = data_folder w
           ∨ ∃ t page,
               data_folder w'
               = <[file_of row := new_data_of (strip row.1) (strip row.2) t page]>
                   (data_folder w)))
       ∨ (ending = Raised AttributeError
          ∧ data_folder w' = data_folder w
          ∧ ∃ old, data_folder w !! file_of row = Some old
                   ∧ ∀ s, dict_get old "html_source" ≠ JStr s)
       ∨ (∃ d msg,
            ending = Raised (Uncaught msg)
            ∧ data_folder w' = data_folder w
            ∧ (driver_get d (strip row.2)).2 = LoadRaised msg)).
Proof.
  unfold Script.process_row.
  destruct (negb (re_match_http (strip row.2))).
  { eexists _, _. split; [done|]. cbn [log clock diff_folder data_folder].
    split; [by apply prefix_app_r|]. split; [done|]. split; [done|].
    left. split; [done|]. by left. }
  destruct (get_page_content_with_selenium (strip row.2) (driver w))
    as [d' fetched] eqn:Hfetch.
  destruct fetched as [e|[[page|] err]].
  { unfold Script.get_page_content_with_selenium in Hfetch.
    destruct (get_page_attempts_shape driver_get MAX_RETRIES (strip row.2)
                (driver w) None)
      as (k & _ & _ & [[_ [e' Hr]]|[(_ & html & _ & Hr)|(_ & msg & Hmsg & Hr)]]);
      rewrite Hr in Hfetch; try discriminate.
    injection Hfetch as <- <-.
    eexists _, _. split; [done|]. cbn [log clock diff_folder data_folder].
    split; [done|]. split; [done|]. split; [done|].
    right. right. by eexists _, msg. }
  2:{ eexists _, _. split; [done|]. cbn [log clock diff_folder data_folder].
      split; [by apply prefix_app_r|]. split; [done|]. split; [done|].
      left. split; [done|]. by left. }
  cbv zeta.
  destruct (data_folder w !! _) as [old|] eqn:Hold.
  2:{ eexists _, _. split; [done|]. cbn [log clock diff_folder data_folder].
      split; [by do 2 apply prefix_app_r|]. split; [lia|]. split; [done|].
      left. split; [done|]. right. by eexists _, _. }
  destruct (py_ne _ _).
  2:{ eexists _, _. split; [done|]. cbn [log clock diff_folder data_folder].
      split; [by do 2 apply prefix_app_r|]. split; [lia|]. split; [done|].
      left. split; [done|]. right. by eexists _, _. }
  destruct (call_highlight _ _) as [[e|diff_html]|] eqn:Hcall.
  - apply call_highlight_raises in Hcall as [Hnot ->].
    eexists _, _. split; [done|]. cbn [log clock diff_folder data_folder].
    split; [by apply prefix_app_r|]. split; [lia|]. split; [done|].
    right. left. split; [done|]. split; [done|]. by exists old.
  - eexists _, _. split; [done|]. cbn [log clock diff_folder data_folder].
    split; [by do 3 apply prefix_app_r|]. split; [lia|].
    split; [rewrite dom_insert; set_solver|].
    left. split; [done|]. right. by eexists _, _.
  - by apply call_highlight_returns in Hcall.
Qed.

Lemma process_rows_cons (row : string * string)
    (rows : list (string * string)) (w : world) :
  process_rows (row :: rows) w
  = match process_row row w with
    | (w', Next) => process_rows rows w'
    | stopped => stopped
    end.
Proof. done. Qed.

(** X20: rows whose second field does not begin with [http://] or
    [https://] take one skip message each and nothing else: no page is
    loaded, the clock is not read, no file is written, and the loop
    reaches its end. *)
Theorem invalid_rows_are_skipped (rows : list (string * string)) (w : world) :
  Forall (λ row, re_match_http (strip row.2) = false) rows →
  process_rows rows w
  = (World (data_folder w) (diff_folder w) (driver w) (clock w)
       (log w ++ map (λ row, Printed SkipInvalidUrl (strip row.1)) rows)%list,
     Next).
Proof.
  intros Hrows. revert w.
  induction Hrows as [|row rows Hrow _ IH]; intros w.
  - cbn [Script.process_rows map]. rewrite app_nil_r. by destruct w.
  - rewrite process_rows_cons. unfold Script.process_row. rewrite Hrow.
    cbn [negb]. rewrite IH. cbn [data_folder diff_folder driver clock log map].
    by rewrite <- app_assoc.
Qed.

(** X21: a row that was processed without an exception, processed again
    while the site serves the same page, reports the target as
    unchanged, writes no diff file and rewrites the Snapshot, whatever
    the store held before the first of the two runs. *)
Theorem second_run_reports_unchanged (row : string * string) (w w1 : world)
    (d1 d2 : Driver) (page : string) (err1 err2 : option string) :
  re_match_http (strip row.2) = true →
  get_page_content_with_selenium (strip row.2) (driver w)
  = (d1, inr (Some page, err1)) →
  process_row row w = (w1, Next) →
  get_page_content_with_selenium (strip row.2) d1 = (d2, inr (Some page, err2)) →
  process_row row w1
  = (World
       (<[file_of row
          := new_data_of (strip row.1) (strip row.2)
               (strftime_full (clock w1)) page]> (data_folder w1))
       (diff_folder w1) d2 (S (clock w1))
       (log w1 ++ [Printed InfoUnchanged (strip row.1);
                   SnapshotWritten (file_of row)
                     (new_data_of (strip row.1) (strip row.2)
                        (strftime_full (clock w1)) page)])%list,
     Next).
Proof.
  intros Hurl Hget1 Hrow Hget2.
  assert (Hw1 : driver w1 = d1
    ∧ data_folder w1 !! file_of row
      = Some (new_data_of (strip row.1) (strip row.2)
                (strftime_full (clock w)) page)).
  { unfold Script.process_row in Hrow. rewrite Hurl, Hget1 in Hrow.
    cbn [negb] in Hrow. cbv beta iota zeta in Hrow.
    destruct (data_folder w !! _) as [old|].
    - destruct (py_ne _ _).
      + destruct (call_highlight _ _) as [[e|diff_html]|]; try done.
        injection Hrow as <-. cbn [driver data_folder].
        by rewrite lookup_insert_eq.
      + injection Hrow as <-. cbn [driver data_folder].
        by rewrite lookup_insert_eq.
    - injection Hrow as <-. cbn [driver data_folder].
      by rewrite lookup_insert_eq. }
  destruct Hw1 as [Hd Hfile]. rewrite <- Hd in Hget2.
  rewrite (process_row_fetched BeautifulSoup driver_get session_get image_open
             md5_hexdigest strftime_full strftime_date strftime_hhmm
             row w1 d2 page err2 _ Hurl Hget2 Hfile).
  cbv zeta. rewrite new_data_of_text. cbn [py_ne].
  by rewrite String.eqb_refl.
Qed.

(** X22: a run leaves alone every Snapshot file that is not the file of
    one of its rows. *)
Theorem other_snapshots_are_untouched (rows : list (string * string))
    (w : world) (file : string) :
  Forall (λ row, file ≠ file_of row) rows →
  data_folder (process_rows rows w).1 !! file = data_folder w !! file.
Proof.
  intros Hrows. revert w.
  induction Hrows as [|row rows Hrow _ IH]; intros w; [done|].
  rewrite process_rows_cons.
  destruct (process_row_cases row w)
    as (w' & ending & -> & _ & _ & _ & Hcase).
  destruct Hcase as [[-> Hdata]|[(-> & Hdata & _)|(d & msg & -> & Hdata & _)]].
  - rewrite IH. destruct Hdata as [->|(t & page & ->)]; [done|].
    by rewrite lookup_insert_ne.
  - cbn [fst]. by rewrite Hdata.
  - cbn [fst]. by rewrite Hdata.
Qed.

(** X23: a run only adds: what was printed and written before is a
    prefix of the log after, the clock does not go back, and neither
    folder loses a file, also when the run stops on an exception. *)
Theorem run_only_adds (rows : list (string * string)) (w : world) :
  log w `prefix_of` log (process_rows rows w).1
  ∧ (clock w ≤ clock (process_rows rows w).1)%nat
  ∧ dom (data_folder w) ⊆ dom (data_folder (process_rows rows w).1)
  ∧ dom (diff_folder w) ⊆ dom (diff_folder (process_rows rows w).1).
Proof.
  revert w. induction rows as [|row rows IH]; intros w; [done|].
  rewrite process_rows_cons.
  destruct (process_row_cases row w)
    as (w' & ending & -> & Hlog & Hclock & Hdiff & Hcase).
  assert (Hdata : dom (data_folder w) ⊆ dom (data_folder w')).
  { destruct Hcase
      as [[_ [->|(t & page & ->)]]|[(_ & -> & _)|(d & msg & _ & -> & _)]];
      [done| |done|done].
    rewrite dom_insert. set_solver. }
  destruct Hcase as [[-> _]|[(-> & _)|(d & msg & -> & _)]].
  - destruct (IH w') as (Hlog' & Hclock' & Hdata' & Hdiff').
    split; [by etrans|]. split; [lia|]. split; by etrans.
  - done.
  - done.
Qed.




End Loop.

(** ** Runs of the further properties in the small world *)

Section FurtherRuns.
Import PyStr Script Sample Shape.
Local Open Scope string_scope.

Lemma invalid_rows_are_skipped_witness :
  process_rows_up [("a", "ftp://site/ab"); ("b", " site/ab ")] world_empty
  = (World (data_folder world_empty) (diff_folder world_empty)
       (driver world_empty) (clock world_empty)
       (log world_empty
        ++ map (λ row : string * string, Printed SkipInvalidUrl (strip row.1))
             [("a", "ftp://site/ab"); ("b", " site/ab ")])%list,
     Next).
Proof.
  apply (invalid_rows_are_skipped Soup.html_parser driver_up session_get
           image_open md5_hexdigest strftime_full strftime_date strftime_hhmm
           [("a", "ftp://site/ab"); ("b", " site/ab ")] world_empty).
  repeat constructor.
Defined.

Lemma second_run_reports_unchanged_witness :
  process_row_up ("t", "http://site/ab")
    (process_row_up ("t", "http://site/ab") world_empty).1
  = (World
       (<["t.json" := new_data "t" "http://site/ab" (strftime_full 1)
                        "<p>A</p><p>B</p>"]>
          (data_folder (process_row_up ("t", "http://site/ab") world_empty).1))
       ∅ 2 2
       [Printed InfoFirstCapture "t";
        SnapshotWritten "t.json"
          (new_data "t" "http://site/ab" (strftime_full 0) "<p>A</p><p>B</p>");
        Printed InfoUnchanged "t";
        SnapshotWritten "t.json"
          (new_data "t" "http://site/ab" (strftime_full 1) "<p>A</p><p>B</p>")],
     Next).
Proof.
  refine (second_run_reports_unchanged Soup.html_parser driver_up session_get
            image_open md5_hexdigest strftime_full strftime_date strftime_hhmm
            ("t", "http://site/ab") world_empty
            (process_row_up ("t", "http://site/ab") world_empty).1
            1 2 "<p>A</p><p>B</p>" None None _ _ _ _).
  - vm_compute. reflexivity.
  - vm_compute. reflexivity.
  - vm_compute. reflexivity.
  - vm_compute. reflexivity.
Defined.

Lemma other_snapshots_are_untouched_witness :
  data_folder
    (process_rows_up [("u", "http://site/ac"); ("v", "http://site/lines")]
       (world_with snapshot_ab)).1 !! "t.json"
  = data_folder (world_with snapshot_ab) !! "t.json".
Proof.
  apply (other_snapshots_are_untouched Soup.html_parser driver_up session_get
           image_open md5_hexdigest strftime_full strftime_date strftime_hhmm
           [("u", "http://site/ac"); ("v", "http://site/lines")]
           (world_with snapshot_ab) "t.json").
  repeat constructor; vm_compute; discriminate.
Defined.


(** The run of that witness: the first row is processed, the load of
    the second row raises, and the run stops there with that exception,
    before anything is printed or written for the second row. *)
Example lost_connection_stops_run :
  (process_rows_lost [("t", "http://site/ac"); ("u", "http://site/ab")]
     (world_with snapshot_ab)).2 = Raised (Uncaught "MaxRetryError")
  ∧ data_folder
      (process_rows_lost [("t", "http://site/ac"); ("u", "http://site/ab")]
         (world_with snapshot_ab)).1 !! "u.json" = None
  ∧ last (log (process_rows_lost
                 [("t", "http://site/ac"); ("u", "http://site/ab")]
                 (world_with snapshot_ab)).1)
    = Some (SnapshotWritten "t.json"
              (new_data "t" "http://site/ac" (strftime_full 0)
                 "<p>A</p><p>C</p>")).
Proof. split; [by vm_compute|]. split; by vm_compute. Qed.


End FurtherRuns.
